(** * Windows-MCP: the UI-state extraction engine ([windows_mcp.tree.service])

    A shallow embedding of [Tree.get_state], [Tree.get_appwise_nodes],
    [Tree.get_nodes] (with its nested classifier functions, [dom_correction]
    and [tree_traversal]) and [Tree.iou_bounding_box], together with the
    properties of the engine that the specification states.

    Conventions of the embedding.
    - A provider object ([uiautomation.Control]) is a finite tree; every
      property read may raise, so every attribute has type [exc _].
    - Python's [try: ... except Exception: return False] is [try_false].
    - The four result buffers and the two [self] fields written during a
      traversal are threaded explicitly; a raise keeps the [self] fields
      written so far (they live on the shared [Tree] object).
    - Time ([time.monotonic()], configured timeouts) is an integer number of
      milliseconds.
    - The thread pool is driven by a schedule: the list of futures in the
      order in which [as_completed] yields them.  A job runs as one step,
      at the moment the engine receives its future.

    The development also embeds the part of [windows_mcp.desktop.service]
    that feeds the engine and reads its snapshots: [get_apps] with its
    callback, [get_active_app], [Desktop.get_state], [is_app_visible] with
    the three functions it calls, [scroll], [bring_window_to_top],
    [get_element_from_xpath] and [get_element_handle_from_label].
    - A window handle answers the calls of [win32gui] through a record of
      answers, each of which may raise, as a control does.
    - Calls made for their effect are recorded as a list, in order. *)

From stdpp Require Import base option list gmap strings.
From Stdlib Require Import ZArith Ascii String Lia.

Local Open Scope string_scope.
Local Open Scope list_scope.
Local Open Scope Z_scope.

(** ** Exceptions *)

Module Exc.

(** The result of evaluating a Python expression: a value, or a raised
    exception (the engine never inspects which one). *)
Inductive exc (A : Type) : Type :=
  | Ok (a : A)
  | Raise.
Arguments Ok {A} a.
Arguments Raise {A}.

Definition bind {A B} (m : exc A) (k : A -> exc B) : exc B :=
  match m with
  | Ok a => k a
  | Raise => Raise
  end.

(** [try: return body / except Exception: return False] *)
Definition try_false (body : exc bool) : bool :=
  match body with
  | Ok b => b
  | Raise => false
  end.

(** Python's short-circuit [a and b] / [a or b] on booleans whose operands
    may raise: the right operand is evaluated only when needed. *)
Definition and_ (a b : exc bool) : exc bool :=
  bind a (fun x => if x then b else Ok false).
Definition or_ (a b : exc bool) : exc bool :=
  bind a (fun x => if x then Ok true else b).
Definition not_ (a : exc bool) : exc bool :=
  bind a (fun x => Ok (negb x)).

Definition raised {A} (m : exc A) : bool :=
  match m with
  | Ok _ => false
  | Raise => true
  end.

End Exc.
Export Exc.

#[global] Instance exc_ret : MRet exc := fun A a => Ok a.
#[global] Instance exc_bind : MBind exc := fun A B k m => Exc.bind m k.
#[global] Instance exc_fmap : FMap exc := fun A B f m => Exc.bind m (fun a => Ok (f a)).

(** ** Python string methods (ASCII model) *)

Module PyStr.

Definition code (c : ascii) : nat := nat_of_ascii c.

(** [str.isspace] on one ASCII character: TAB..CR, FS..US and the space. *)
Definition is_space (c : ascii) : bool :=
  let n := code c in
  ((9 <=? n) && (n <=? 13) || (28 <=? n) && (n <=? 32))%nat.

Definition is_upper (c : ascii) : bool :=
  let n := code c in ((65 <=? n) && (n <=? 90))%nat.
Definition is_lower (c : ascii) : bool :=
  let n := code c in ((97 <=? n) && (n <=? 122))%nat.

Definition to_upper (c : ascii) : ascii :=
  if is_lower c then ascii_of_nat (code c - 32) else c.
Definition to_lower (c : ascii) : ascii :=
  if is_upper c then ascii_of_nat (code c + 32) else c.

Fixpoint lstrip (s : string) : string :=
  match s with
  | String c s' => if is_space c then lstrip s' else s
  | EmptyString => EmptyString
  end.

(** Strips trailing white space: a character is dropped when it is white
    space and everything after it has been dropped. *)
Fixpoint rstrip (s : string) : string :=
  match s with
  | EmptyString => EmptyString
  | String c s' =>
      match rstrip s' with
      | EmptyString => if is_space c then EmptyString else String c EmptyString
      | r => String c r
      end
  end.

(** [s.strip()] *)
Definition strip (s : string) : string := rstrip (lstrip s).

Fixpoint lower (s : string) : string :=
  match s with
  | EmptyString => EmptyString
  | String c s' => String (to_lower c) (lower s')
  end.

(** [s.title()]: a cased character is upper-cased when it follows an
    uncased one and lower-cased otherwise. *)
Fixpoint title_from (previous_is_cased : bool) (s : string) : string :=
  match s with
  | EmptyString => EmptyString
  | String c s' =>
      if is_lower c || is_upper c then
        String (if previous_is_cased then to_lower c else to_upper c)
               (title_from true s')
      else String c (title_from false s')
  end.
Definition title (s : string) : string := title_from false s.

(** [s.capitalize()] *)
Definition capitalize (s : string) : string :=
  match s with
  | EmptyString => EmptyString
  | String c s' => String (to_upper c) (lower s')
  end.

(** Truthiness of a string, and [a or b] on strings. *)
Definition truthy (s : string) : bool :=
  match s with
  | EmptyString => false
  | _ => true
  end.
Definition or_else (a b : string) : string := if truthy a then a else b.

(** [x in names] for a collection of strings. *)
Definition mem (x : string) (names : list string) : bool :=
  bool_decide (x ∈ names).

End PyStr.

(** ** [windows_mcp/tree/config.py] *)

Definition INTERACTIVE_CONTROL_TYPE_NAMES : list string :=
  [ "ButtonControl"; "ListItemControl"; "MenuItemControl"; "EditControl";
    "CheckBoxControl"; "RadioButtonControl"; "ComboBoxControl";
    "HyperlinkControl"; "SplitButtonControl"; "TabItemControl";
    "TreeItemControl"; "DataItemControl"; "HeaderItemControl";
    "TextBoxControl"; "SpinnerControl"; "ScrollBarControl" ].

Definition DOCUMENT_CONTROL_TYPE_NAMES : list string := [ "DocumentControl" ].

Definition INFORMATIVE_CONTROL_TYPE_NAMES : list string :=
  [ "TextControl"; "ImageControl"; "StatusBarControl" ].

Definition DEFAULT_ACTIONS : list string :=
  [ "Click"; "Press"; "Jump"; "Check"; "Uncheck"; "Double Click" ].

Definition THREAD_MAX_RETRIES : nat := 3.

(** ** Geometry and result records ([uiautomation.Rect], [tree/views.py]) *)

Module Rect.
(** The provider's rectangle. [width], [height] and [isempty] are the
    methods of [uiautomation.Rect]. *)
Record t : Type := mk { left : Z; top : Z; right : Z; bottom : Z }.
Definition width (r : t) : Z := right r - left r.
Definition height (r : t) : Z := bottom r - top r.
Definition isempty (r : t) : bool := (width r =? 0) || (height r =? 0).
End Rect.

Module Center.
Record t : Type := mk { x : Z; y : Z }.
End Center.

Module BoundingBox.
Record t : Type :=
  mk { left : Z; top : Z; right : Z; bottom : Z; width : Z; height : Z }.

(** The four edges, for the places where the source passes a [BoundingBox]
    where a [Rect] is read ([iou_bounding_box(self.dom_bounding_box, ...)]). *)
Definition edges (b : t) : Rect.t := Rect.mk (left b) (top b) (right b) (bottom b).

(** Modelled from the spec: [BoundingBox.get_center] lives in
    [tree/views.py], which is not among the sources; the specification
    (section 4.5) gives it as the midpoint of the box. *)
Definition get_center (b : t) : Center.t :=
  Center.mk (left b + width b / 2) (top b + height b / 2).
End BoundingBox.

Module TreeElementNode.
Record t : Type := mk {
  name : string;
  control_type : string;
  value : option string;
  shortcut : string;
  bounding_box : BoundingBox.t;
  center : Center.t;
  xpath : string;
  app_name : string;
  is_focused : bool
}.
End TreeElementNode.

Module ScrollElementNode.
Record t : Type := mk {
  name : string;
  app_name : string;
  control_type : string;
  bounding_box : BoundingBox.t;
  center : Center.t;
  xpath : string;
  horizontal_scrollable : bool;
  horizontal_scroll_percent : Z;
  vertical_scrollable : bool;
  vertical_scroll_percent : Z;
  is_focused : bool
}.
End ScrollElementNode.

Module TextElementNode.
Record t : Type := mk { text : string }.
End TextElementNode.

Module DOMInfo.
Record t : Type := mk {
  horizontal_scrollable : bool;
  horizontal_scroll_percent : Z;
  vertical_scrollable : bool;
  vertical_scroll_percent : Z
}.
End DOMInfo.

(** The warnings of a snapshot.  Each constructor stands for one message of
    the source, with the numbers the message prints. *)
Inductive warning : Type :=
  | UiaDisabledWarning (remaining : Z)
      (* UIAutomation enumeration temporarily disabled for {remaining}s after
         a prior timeout; returning partial results. *)
  | RootEnumTimeoutWarning (root_timeout_s : Z)
      (* Root UIAutomation enumeration timed out after {root_timeout_s}s;
         falling back to active window only. *)
  | RootEnumFailedWarning
      (* Root UIAutomation enumeration failed; falling back to active window
         only. *)
  | ActiveLookupFailedWarning
      (* Active window UIAutomation handle lookup failed; returning partial
         state. *)
  | EnumerationTimeoutWarning (timeout_s : Z)
      (* UI tree enumeration timed out after {timeout_s}s; returning partial
         results. *)
  | SubtreesFailedWarning.
      (* Some UIA subtrees failed; returning partial results. *)

Module TreeState.
Record t : Type := mk {
  dom_info : option DOMInfo.t;
  interactive_nodes : list TreeElementNode.t;
  scrollable_nodes : list ScrollElementNode.t;
  dom_informative_nodes : list TextElementNode.t;
  is_partial : bool;
  warnings : list warning
}.
End TreeState.

(** ** The accessibility provider: [uiautomation.Control] *)

(** The Python class of a control object, as far as [isinstance] asks. *)
Inductive py_class : Type := ImageControl | WindowControl | OtherControl.

Module ScrollPattern.
Record t : Type := mk {
  HorizontallyScrollable : exc bool;
  HorizontalScrollPercent : exc Z;
  VerticallyScrollable : exc bool;
  VerticalScrollPercent : exc Z
}.
End ScrollPattern.

Module LegacyIAccessiblePattern.
Record t : Type := mk {
  DefaultAction : exc string;
  Value : exc (option string)
}.
End LegacyIAccessiblePattern.

(** What one control answers to each property read.  [ProcessName] is
    [Process(node.ProcessId).name()]; [IsModal] is
    [node.GetWindowPattern().IsModal]; [GetScrollPattern] is
    [node.GetPattern(PatternId.ScrollPattern)], [Ok None] when the control
    has no such pattern. *)
Record Attributes : Type := mkAttributes {
  class_of : py_class;
  Name : exc string;
  ControlTypeName : exc string;
  LocalizedControlType : exc string;
  ClassName : exc string;
  AutomationId : exc string;
  AcceleratorKey : exc string;
  IsOffscreen : exc bool;
  IsEnabled : exc bool;
  IsKeyboardFocusable : exc bool;
  IsControlElement : exc bool;
  HasKeyboardFocus : exc bool;
  BoundingRectangle : exc Rect.t;
  NativeWindowHandle : exc Z;
  ProcessName : exc string;
  GetScrollPattern : exc (option ScrollPattern.t);
  GetLegacyIAccessiblePattern : exc LegacyIAccessiblePattern.t;
  IsModal : exc bool
}.

(** A control with the subtree below it, [GetChildren] included. *)
#[local] Unset Elimination Schemes.
Inductive Control : Type :=
  | mkControl (attributes : Attributes) (children : exc (list Control)).

#[local] Set Elimination Schemes.

Definition attributes_of (node : Control) : Attributes :=
  match node with mkControl a _ => a end.
Coercion attributes_of : Control >-> Attributes.

Definition GetChildren (node : Control) : exc (list Control) :=
  match node with mkControl _ cs => cs end.

(** [node.GetFirstChildControl()]: [None] when there is no child. *)
Definition GetFirstChildControl (node : Control) : exc (option Control) :=
  cs ← GetChildren node; Ok (head cs).

(** [windows_mcp.desktop.views.App], as far as the engine reads it. *)
Record App : Type := mkApp { handle : Z }.

(** [windows_mcp.desktop.views.Size] *)
Record Size : Type := mkSize { Size_width : Z; Size_height : Z }.

(** ** The engine's settings and collaborators

    The timeouts of [tree/config.py] are read from the process environment,
    so they are parameters here, as are the collaborators whose source is
    not part of the engine: the browser and system-window tables of
    [desktop/config.py], the [WINDOWS_MCP_EXCLUDE_SYSTEM_WINDOWS] switch and
    the sampling function of [tree/utils.py]. *)
Record Settings : Type := mkSettings {
  TREE_STATE_TIMEOUT_S : Z;
  TREE_STATE_TIMEOUT_DOM_S : Z;
  ROOT_ENUM_TIMEOUT_S : Z;
  UIA_TIMEOUT_COOLDOWN_S : Z;
  BROWSER_NAMES : list string;
  EXCLUDED_APPS : list string;
  exclude_system_windows : bool;
  random_point_within_bounding_box : Control -> exc (Z * Z)
}.

(** ** [Tree]: the engine object *)

Module Tree.
Record t : Type := mk {
  screen_box : BoundingBox.t;
  dom_info : option DOMInfo.t;
  dom_bounding_box : option BoundingBox.t;
  _uia_disabled_until : Z
}.

(** [Tree.__init__] *)
Definition init (screen_size : Size) : t :=
  {| screen_box :=
       BoundingBox.mk 0 0 (Size_width screen_size) (Size_height screen_size)
                      (Size_width screen_size) (Size_height screen_size);
     dom_info := None;
     dom_bounding_box := None;
     _uia_disabled_until := 0 |}.

Definition set_dom_bounding_box (self : t) (box : BoundingBox.t) : t :=
  {| screen_box := screen_box self;
     dom_info := dom_info self;
     dom_bounding_box := Some box;
     _uia_disabled_until := _uia_disabled_until self |}.

Definition set_dom_info (self : t) (info : DOMInfo.t) : t :=
  {| screen_box := screen_box self;
     dom_info := Some info;
     dom_bounding_box := dom_bounding_box self;
     _uia_disabled_until := _uia_disabled_until self |}.

Definition set_uia_disabled_until (self : t) (until : Z) : t :=
  {| screen_box := screen_box self;
     dom_info := dom_info self;
     dom_bounding_box := dom_bounding_box self;
     _uia_disabled_until := until |}.
End Tree.

(** ** [Tree.iou_bounding_box] *)

Definition iou_bounding_box (self : Tree.t) (window_box element_box : Rect.t)
  : BoundingBox.t :=
  (* Step 1: intersection of element and window *)
  let intersection_left := Z.max (Rect.left window_box) (Rect.left element_box) in
  let intersection_top := Z.max (Rect.top window_box) (Rect.top element_box) in
  let intersection_right := Z.min (Rect.right window_box) (Rect.right element_box) in
  let intersection_bottom := Z.min (Rect.bottom window_box) (Rect.bottom element_box) in
  (* Step 2: clamp to screen boundaries *)
  let screen := Tree.screen_box self in
  let intersection_left := Z.max (BoundingBox.left screen) intersection_left in
  let intersection_top := Z.max (BoundingBox.top screen) intersection_top in
  let intersection_right := Z.min (BoundingBox.right screen) intersection_right in
  let intersection_bottom := Z.min (BoundingBox.bottom screen) intersection_bottom in
  (* Step 3: validate intersection *)
  if (intersection_left <? intersection_right) && (intersection_top <? intersection_bottom)
  then BoundingBox.mk intersection_left intersection_top
                      intersection_right intersection_bottom
                      (intersection_right - intersection_left)
                      (intersection_bottom - intersection_top)
  else BoundingBox.mk 0 0 0 0 0 0.

(** ** The classifier: the nested functions of [Tree.get_nodes] *)

Section Classifier.

(** The window's browser flag, resolved once by [get_nodes]. *)
Variable is_browser : bool.

Definition is_element_visible (node : Control) : exc bool :=
  is_control ← IsControlElement node;
  box ← BoundingRectangle node;
  if Rect.isempty box then Ok false else
  let area := Rect.width box * Rect.height box in
  is_offscreen ← or_ (not_ (IsOffscreen node))
                     (t ← ControlTypeName node; Ok (PyStr.mem t ["EditControl"]));
  Ok ((0 <? area) && is_offscreen && is_control).

Definition is_element_enabled (node : Control) : bool :=
  try_false (IsEnabled node).

Definition is_default_action (node : Control) : exc bool :=
  legacy_pattern ← GetLegacyIAccessiblePattern node;
  action ← LegacyIAccessiblePattern.DefaultAction legacy_pattern;
  Ok (PyStr.mem (PyStr.title action) DEFAULT_ACTIONS).

Definition is_element_image (node : Control) : exc bool :=
  match class_of node with
  | ImageControl =>
      or_ (t ← LocalizedControlType node; Ok (bool_decide (t = "graphic")))
          (not_ (IsKeyboardFocusable node))
  | _ => Ok false
  end.

Definition is_keyboard_focusable (node : Control) : bool :=
  try_false
    (t ← ControlTypeName node;
     if PyStr.mem t ["EditControl"; "ButtonControl"; "CheckBoxControl";
                     "RadioButtonControl"; "TabItemControl"]
     then Ok true
     else IsKeyboardFocusable node).

Definition is_element_text (node : Control) : bool :=
  try_false
    (t ← ControlTypeName node;
     if PyStr.mem t INFORMATIVE_CONTROL_TYPE_NAMES then
       and_ (and_ (is_element_visible node) (Ok (is_element_enabled node)))
            (not_ (is_element_image node))
     else Ok false).

Definition is_window_modal (node : Control) : bool :=
  try_false (IsModal node).

(** Returns [None] (falsy) when the node's own localized type differs. *)
Definition element_has_child_element
    (node : Control) (control_type child_control_type : string) : exc bool :=
  t ← LocalizedControlType node;
  if bool_decide (t = control_type) then
    first_child ← GetFirstChildControl node;
    match first_child : option Control with
    | None => Ok false
    | Some c =>
        ct ← LocalizedControlType c;
        Ok (bool_decide (ct = child_control_type))
    end
  else Ok false.

Definition group_has_no_name (node : Control) : bool :=
  try_false
    (t ← ControlTypeName node;
     if bool_decide (t = "GroupControl") then
       n ← Name node; Ok (negb (PyStr.truthy (PyStr.strip n)))
     else Ok false).

Definition is_element_scrollable (node : Control) : bool :=
  try_false
    (stop ← or_ (t ← ControlTypeName node;
                 Ok (PyStr.mem t (INTERACTIVE_CONTROL_TYPE_NAMES
                                      ++ INFORMATIVE_CONTROL_TYPE_NAMES)))
                (IsOffscreen node);
     if (stop : bool) then Ok false else
     scroll_pattern ← GetScrollPattern node;
     match scroll_pattern : option ScrollPattern.t with
     | None => Ok false
     | Some p => ScrollPattern.VerticallyScrollable p
     end).

Definition is_element_interactive (node : Control) : bool :=
  try_false
    (t ← ControlTypeName node;
     if is_browser && PyStr.mem t ["DataItemControl"; "ListItemControl"]
        && negb (is_keyboard_focusable node) then Ok false
     else if negb is_browser && bool_decide (t = "ImageControl")
             && is_keyboard_focusable node then Ok true
     else if PyStr.mem t (INTERACTIVE_CONTROL_TYPE_NAMES
                            ++ DOCUMENT_CONTROL_TYPE_NAMES) then
       and_ (and_ (is_element_visible node) (Ok (is_element_enabled node)))
            (or_ (not_ (is_element_image node))
                 (Ok (is_keyboard_focusable node)))
     else if bool_decide (t = "GroupControl") then
       if is_browser then
         and_ (and_ (is_element_visible node) (Ok (is_element_enabled node)))
              (or_ (is_default_action node)
                   (Ok (is_keyboard_focusable node)))
       else Ok false
     else Ok false).

End Classifier.

(** ** The traversal state

    [get_nodes] walks one window with four buffers in scope and writes the
    shared fields [self.dom_bounding_box] and [self.dom_info].  A step of
    the walk takes this state and returns a value or a raise together with
    the state reached: what was written to [self] before a raise stays
    written. *)

Module Walk.
Record t : Type := mk {
  self : Tree.t;
  interactive_nodes : list TreeElementNode.t;
  dom_interactive_nodes : list TreeElementNode.t;
  scrollable_nodes : list ScrollElementNode.t;
  dom_informative_nodes : list TextElementNode.t
}.

Definition start (self : Tree.t) : t := mk self [] [] [] [].

Definition with_self (f : Tree.t -> Tree.t) (w : t) : t :=
  mk (f (self w)) (interactive_nodes w) (dom_interactive_nodes w)
     (scrollable_nodes w) (dom_informative_nodes w).
Definition with_interactive
    (f : list TreeElementNode.t -> list TreeElementNode.t) (w : t) : t :=
  mk (self w) (f (interactive_nodes w)) (dom_interactive_nodes w)
     (scrollable_nodes w) (dom_informative_nodes w).
Definition with_dom_interactive
    (f : list TreeElementNode.t -> list TreeElementNode.t) (w : t) : t :=
  mk (self w) (interactive_nodes w) (f (dom_interactive_nodes w))
     (scrollable_nodes w) (dom_informative_nodes w).
Definition with_scrollable
    (f : list ScrollElementNode.t -> list ScrollElementNode.t) (w : t) : t :=
  mk (self w) (interactive_nodes w) (dom_interactive_nodes w)
     (f (scrollable_nodes w)) (dom_informative_nodes w).
Definition with_informative
    (f : list TextElementNode.t -> list TextElementNode.t) (w : t) : t :=
  mk (self w) (interactive_nodes w) (dom_interactive_nodes w)
     (scrollable_nodes w) (f (dom_informative_nodes w)).
End Walk.

Definition walk (A : Type) : Type := Walk.t -> exc A * Walk.t.

Definition walk_ret {A} (a : A) : walk A := fun w => (Ok a, w).
Definition walk_bind {A B} (m : walk A) (k : A -> walk B) : walk B :=
  fun w =>
    match m w with
    | (Ok a, w') => k a w'
    | (Raise, w') => (Raise, w')
    end.

#[global] Instance walk_mret : MRet walk := @walk_ret.
#[global] Instance walk_mbind : MBind walk := fun A B k m => walk_bind m k.

(** A provider read, or any other expression that may raise, inside a walk. *)
Definition read {A} (m : exc A) : walk A := fun w => (m, w).
Definition update (f : Walk.t -> Walk.t) : walk unit := fun w => (Ok tt, f w).
Definition get_self : walk Tree.t := fun w => (Ok (Walk.self w), w).

(** [lst.append(x)], [lst.clear()] and [lst.pop()]: the last raises on an
    empty list. *)
Definition append {A} (x : A) (l : list A) : list A := l ++ [x].
Definition clear {A} (l : list A) : list A := [].
Definition pop_dom_interactive_node : walk unit :=
  fun w =>
    match Walk.dom_interactive_nodes w with
    | [] => (Raise, w)
    | _ => (Ok tt, Walk.with_dom_interactive (@removelast TreeElementNode.t) w)
    end.

(** Reading [self.dom_bounding_box.left] and the like raises while the field
    is still [None]. *)
Definition get_dom_bounding_box : walk BoundingBox.t :=
  fun w =>
    match Tree.dom_bounding_box (Walk.self w) with
    | Some box => (Ok box, w)
    | None => (Raise, w)
    end.

(** [for x in xs: body(x)] and [for x in xs[::-1]: body(x)].  The second is
    written by recursion on [xs] itself, last element first. *)
Definition for_each {A} (body : A -> walk unit) : list A -> walk unit :=
  fix loop (xs : list A) : walk unit :=
    match xs with
    | [] => walk_ret tt
    | x :: rest => walk_bind (body x) (fun _ => loop rest)
    end.
Definition for_each_reversed {A} (body : A -> walk unit) : list A -> walk unit :=
  fix loop (xs : list A) : walk unit :=
    match xs with
    | [] => walk_ret tt
    | x :: rest => walk_bind (loop rest) (fun _ => body x)
    end.

(** The loop of [dom_correction] that follows the first-child chain of a
    group, with its [try]/[except]: [None] when the source returns from
    [dom_correction] inside the loop (an interactive type on the chain, or a
    raise), otherwise the control the loop stops at. *)
Fixpoint first_child_chain (child : Control) : option Control :=
  match child with
  | mkControl a (Ok (first :: _)) =>
      match ControlTypeName a with
      | Ok t =>
          if PyStr.mem t INTERACTIVE_CONTROL_TYPE_NAMES then None
          else first_child_chain first
      | Raise => None
      end
  | mkControl _ (Ok []) => Some child
  | mkControl _ Raise => None
  end.

(** ** [Tree.get_nodes]: the walk of one window *)

Section GetNodes.

Variable cfg : Settings.

(** The variables of [get_nodes] that its nested functions close over. *)
Variable is_browser : bool.
Variable app_name : string.
Variable window_bounding_box : Rect.t.

(** The [TreeElementNode] that [tree_traversal] builds for an interactive
    node, clipped to [reference_box]. *)
Definition interactive_element (node : Control) (reference_box : Rect.t)
    (self : Tree.t) : exc TreeElementNode.t :=
  legacy_pattern ← GetLegacyIAccessiblePattern node;
  raw_value ← LegacyIAccessiblePattern.Value legacy_pattern;
  let value := match raw_value with
               | Some v => PyStr.strip v
               | None => ""
               end in
  is_focused ← HasKeyboardFocus node;
  name ← Name node;
  element_bounding_box ← BoundingRectangle node;
  let bounding_box := iou_bounding_box self reference_box element_bounding_box in
  let center := BoundingBox.get_center bounding_box in
  control_type ← LocalizedControlType node;
  shortcut ← AcceleratorKey node;
  Ok (TreeElementNode.mk (PyStr.strip name) (PyStr.title control_type)
        (Some value) shortcut bounding_box center "" app_name is_focused).

(** The element that [dom_correction] emits in place of a focusable group
    whose first-child chain ends in the text node [child]. *)
Definition group_element (node child : Control) : walk TreeElementNode.t :=
  legacy_pattern ← read (GetLegacyIAccessiblePattern node);
  value ← read (LegacyIAccessiblePattern.Value legacy_pattern);
  element_bounding_box ← read (BoundingRectangle node);
  dom_bounding_box ← get_dom_bounding_box;
  self ← get_self;
  let bounding_box :=
    iou_bounding_box self (BoundingBox.edges dom_bounding_box) element_bounding_box in
  let center := BoundingBox.get_center bounding_box in
  is_focused ← read (HasKeyboardFocus node);
  name ← read (Name child);
  control_type ← read (LocalizedControlType node);
  shortcut ← read (AcceleratorKey node);
  mret (TreeElementNode.mk (PyStr.strip name) control_type value shortcut
          bounding_box center "" app_name is_focused).

(** The element that [dom_correction] emits for a link that wraps a
    heading; [node] is the heading. *)
Definition link_element (node : Control) : walk TreeElementNode.t :=
  legacy_pattern ← read (GetLegacyIAccessiblePattern node);
  _ ← read (LegacyIAccessiblePattern.Value legacy_pattern);
  element_bounding_box ← read (BoundingRectangle node);
  dom_bounding_box ← get_dom_bounding_box;
  self ← get_self;
  let bounding_box :=
    iou_bounding_box self (BoundingBox.edges dom_bounding_box) element_bounding_box in
  let center := BoundingBox.get_center bounding_box in
  is_focused ← read (HasKeyboardFocus node);
  name ← read (Name node);
  shortcut ← read (AcceleratorKey node);
  mret (TreeElementNode.mk (PyStr.strip name) "link" (Some (PyStr.strip name))
          shortcut bounding_box center "" app_name is_focused).

Definition dom_correction (node : Control) : walk unit :=
  row_with_link ← read (or_ (element_has_child_element node "list item" "link")
                            (element_has_child_element node "item" "link"));
  if (row_with_link : bool) then pop_dom_interactive_node
  else
    t ← read (ControlTypeName node);
    if bool_decide (t = "GroupControl") then
      pop_dom_interactive_node;;
      if is_keyboard_focusable node then
        match first_child_chain node with
        | None => mret tt
        | Some child =>
            ct ← read (ControlTypeName child);
            if bool_decide (ct = "TextControl") then
              element ← group_element node child;
              update (Walk.with_dom_interactive (append element))
            else mret tt
        end
      else mret tt
    else
      link_with_heading ← read (element_has_child_element node "link" "heading");
      if (link_with_heading : bool) then
        pop_dom_interactive_node;;
        first_child ← read (GetFirstChildControl node);
        match first_child : option Control with
        | Some heading =>
            element ← link_element heading;
            update (Walk.with_dom_interactive (append element))
        | None => read Raise
        end
      else mret tt.

(** The condition under which [tree_traversal] returns at once. *)
Definition skip_rule (node : Control) : exc bool :=
  and_ (and_ (IsOffscreen node)
             (t ← ControlTypeName node;
              Ok (negb (PyStr.mem t ["GroupControl"; "EditControl"; "TitleBarControl"]))))
       (c ← ClassName node;
        Ok (negb (PyStr.mem c ["Popup"; "Windows.UI.Core.CoreComponentInputSource"]))).

(** The name of a scrollable element:
    [node.Name.strip() or node.AutomationId
     or node.LocalizedControlType.capitalize() or "''"]. *)
Definition scrollable_name (node : Control) : exc string :=
  name ← Name node;
  if PyStr.truthy (PyStr.strip name) then Ok (PyStr.strip name) else
  automation_id ← AutomationId node;
  if PyStr.truthy automation_id then Ok automation_id else
  control_type ← LocalizedControlType node;
  Ok (PyStr.or_else (PyStr.capitalize control_type) "''").

(** The [ScrollElementNode] that [tree_traversal] builds for a scrollable
    node: the provider's rectangle as it is, and a sampled centre. *)
Definition scrollable_element (node : Control) : exc ScrollElementNode.t :=
  pattern ← GetScrollPattern node;
  match pattern : option ScrollPattern.t with
  | None => Raise
  | Some scroll_pattern =>
      box ← BoundingRectangle node;
      '(x, y) ← random_point_within_bounding_box cfg node;
      name ← scrollable_name node;
      control_type ← LocalizedControlType node;
      horizontal ← ScrollPattern.HorizontallyScrollable scroll_pattern;
      horizontal_percent ←
        (if (horizontal : bool)
         then ScrollPattern.HorizontalScrollPercent scroll_pattern else Ok 0);
      vertical ← ScrollPattern.VerticallyScrollable scroll_pattern;
      vertical_percent ←
        (if (vertical : bool)
         then ScrollPattern.VerticalScrollPercent scroll_pattern else Ok 0);
      is_focused ← HasKeyboardFocus node;
      Ok (ScrollElementNode.mk name app_name (PyStr.title control_type)
            (BoundingBox.mk (Rect.left box) (Rect.top box) (Rect.right box)
               (Rect.bottom box) (Rect.width box) (Rect.height box))
            (Center.mk x y) "" horizontal horizontal_percent
            vertical vertical_percent is_focused)
  end.

(** What [tree_traversal] does with the node itself, once the skip rule has
    let it through and before it turns to the children. *)
Definition classify_node (node : Control) (is_dom : bool) : walk unit :=
  (if is_element_scrollable node then
     element ← read (scrollable_element node);
     update (Walk.with_scrollable (append element))
   else mret tt);;
  if is_element_interactive is_browser node then
    if is_browser && is_dom then
      dom_bounding_box ← get_dom_bounding_box;
      self ← get_self;
      tree_node ← read (interactive_element node (BoundingBox.edges dom_bounding_box) self);
      update (Walk.with_dom_interactive (append tree_node));;
      dom_correction node
    else
      self ← get_self;
      tree_node ← read (interactive_element node window_bounding_box self);
      update (Walk.with_interactive (append tree_node))
  else if is_element_text node then
    name ← read (Name node);
    update (Walk.with_informative (append (TextElementNode.mk (PyStr.strip name))))
  else mret tt.

(** The body of the loop over the children, up to the recursive call: the
    effect of meeting [child], and the [is_dom] and [is_dialog] flags with
    which [tree_traversal] then enters it.  Each of the three branches of
    the source ends in that call. *)
Definition enter_child (child : Control) (is_dom is_dialog : bool)
  : walk (bool * bool) :=
  is_root_web_area ←
    read (if is_browser
          then (a ← AutomationId child; Ok (bool_decide (a = "RootWebArea")))
          else Ok false);
  if (is_root_web_area : bool) then
    (* the child is the root of a browser document *)
    bounding_box ← read (BoundingRectangle child);
    update (Walk.with_self (fun self =>
      Tree.set_dom_bounding_box self
        (BoundingBox.mk (Rect.left bounding_box) (Rect.top bounding_box)
           (Rect.right bounding_box) (Rect.bottom bounding_box)
           (Rect.width bounding_box) (Rect.height bounding_box))));;
    pattern ← read (GetScrollPattern child);
    match pattern : option ScrollPattern.t with
    | None => read Raise
    | Some scroll_pattern =>
        horizontal ← read (ScrollPattern.HorizontallyScrollable scroll_pattern);
        horizontal_percent ←
          read (if (horizontal : bool)
                then ScrollPattern.HorizontalScrollPercent scroll_pattern else Ok 0);
        vertical ← read (ScrollPattern.VerticallyScrollable scroll_pattern);
        vertical_percent ←
          read (if (vertical : bool)
                then ScrollPattern.VerticalScrollPercent scroll_pattern else Ok 0);
        update (Walk.with_self (fun self =>
          Tree.set_dom_info self
            (DOMInfo.mk horizontal horizontal_percent vertical vertical_percent)));;
        (* enter DOM subtree *)
        mret (true, is_dialog)
    end
  else
    match class_of child with
    | WindowControl =>
        (* the child is a dialog *)
        offscreen ← read (IsOffscreen child);
        (if (offscreen : bool) then mret tt
         else if is_dom then
           bounding_box ← read (BoundingRectangle child);
           dom_bounding_box ← get_dom_bounding_box;
           (* bounding_box.width() > 0.8*self.dom_bounding_box.width *)
           if 8 * BoundingBox.width dom_bounding_box <? 10 * Rect.width bounding_box
           then update (Walk.with_dom_interactive clear)
           else mret tt
         else
           if is_window_modal child
           then update (Walk.with_interactive clear)
           else mret tt);;
        (* enter dialog subtree *)
        mret (is_dom, true)
    | _ =>
        (* normal non-dialog children *)
        mret (is_dom, is_dialog)
    end.

Fixpoint tree_traversal (node : Control) (is_dom is_dialog : bool) {struct node}
  : walk unit :=
  skip ← read (skip_rule node);
  if (skip : bool) then mret tt
  else
    classify_node node is_dom;;
    match node with
    | mkControl _ (Ok children) =>
        let visit child :=
          flags ← enter_child child is_dom is_dialog;
          tree_traversal child (fst flags) (snd flags) in
        if is_dom then for_each visit children
        else for_each_reversed visit children
    | mkControl _ Raise => read Raise
    end.

(** The body of that loop as a whole: meet the child, then walk it. *)
Definition visit_child (is_dom is_dialog : bool) (child : Control) : walk unit :=
  flags ← enter_child child is_dom is_dialog;
  tree_traversal child (fst flags) (snd flags).

End GetNodes.

(** [Desktop.is_app_browser] *)
Definition is_app_browser (cfg : Settings) (node : Control) : exc bool :=
  name ← ProcessName node; Ok (PyStr.mem name (BROWSER_NAMES cfg)).

(** The three lists one window job returns. *)
Definition window_result : Type :=
  (list TreeElementNode.t * list ScrollElementNode.t * list TextElementNode.t)%type.

(** [Tree.get_nodes].  The result comes with the [Tree] object as the job
    leaves it. *)
Definition get_nodes (cfg : Settings) (node : Control) (is_browser : option bool)
    (use_dom : bool) (self : Tree.t) : exc window_result * Tree.t :=
  let is_browser :=
    match is_browser with
    | Some b => b
    | None => try_false (is_app_browser cfg node)
    end in
  match BoundingRectangle node, Name node, ClassName node with
  | Ok window_bounding_box, Ok name, Ok class_name =>
      let app_name :=
        if bool_decide (class_name = "Progman") then "Desktop"
        else if PyStr.mem class_name ["Shell_TrayWnd"; "Shell_SecondaryTrayWnd"]
        then "Taskbar"
        else if bool_decide (class_name = "Microsoft.UI.Content.PopupWindowSiteBridge")
        then "Context Menu"
        else PyStr.strip name in
      match tree_traversal cfg is_browser app_name window_bounding_box
              node false false (Walk.start self) with
      | (Ok _, w) =>
          (Ok (if use_dom then
                 if is_browser
                 then (Walk.dom_interactive_nodes w, Walk.scrollable_nodes w,
                       Walk.dom_informative_nodes w)
                 else ([], [], [])
               else (Walk.interactive_nodes w ++ Walk.dom_interactive_nodes w,
                     Walk.scrollable_nodes w, Walk.dom_informative_nodes w)),
           Walk.self w)
      | (Raise, w) => (Raise, Walk.self w)
      end
  | _, _, _ => (Raise, self)
  end.

(** ** The worker pool as the engine sees it *)

(** A job handed to [self._executor.submit].  Every call into the provider
    is made inside one of these. *)
Inductive job : Type :=
  | CollectTargetsJob
  | ControlFromHandleJob (handle : Z)
  | GetNodesJob (app : nat).

#[global] Instance job_eq_dec : EqDecision job.
Proof. solve_decision. Defined.

(** What [as_completed] does next during the join.

    [Completes future view]: it yields [future], whose job has ended.  A
    control is a handle on a live object that every job reads anew: [view]
    is the window as this job read it, so a window may show a retried job
    something else than it showed the job before.  What the job wrote to
    the [Tree] object takes effect at this moment.

    [WaitTimesOut]: it raises [TimeoutError].  The jobs still running are
    abandoned, and nothing they do is seen any more. *)
Inductive event : Type :=
  | Completes (future : nat) (view : Control)
  | WaitTimesOut.

(** ** [Tree.get_appwise_nodes] *)

Module Join.
(** The local variables of [get_appwise_nodes], the [Tree] object, the
    number of clock reads made so far and the jobs submitted so far.
    Futures are numbered in the order of their submission and windows by
    their position in [apps]; [future_to_app] keeps insertion order, as a
    dictionary does. *)
Record t : Type := mk {
  self : Tree.t;
  interactive_nodes : list TreeElementNode.t;
  scrollable_nodes : list ScrollElementNode.t;
  dom_informative_nodes : list TextElementNode.t;
  is_partial : bool;
  warnings : list warning;
  retry_counts : gmap nat nat;
  future_to_app : list (nat * nat);
  completed : nat;
  next_future : nat;
  clock_reads : nat;
  submitted : list job
}.
End Join.

Section GetAppwiseNodes.

Variable cfg : Settings.
Variable use_dom : bool.

(** The successive values of [time.monotonic()] during the call. *)
Variable clock : nat -> Z.

Definition timeout_s : Z :=
  if use_dom then TREE_STATE_TIMEOUT_DOM_S cfg else TREE_STATE_TIMEOUT_S cfg.

(** [time.monotonic()] *)
Definition monotonic (st : Join.t) : Z * Join.t :=
  (clock (Join.clock_reads st),
   Join.mk (Join.self st) (Join.interactive_nodes st) (Join.scrollable_nodes st)
     (Join.dom_informative_nodes st) (Join.is_partial st) (Join.warnings st)
     (Join.retry_counts st) (Join.future_to_app st) (Join.completed st)
     (Join.next_future st) (S (Join.clock_reads st)) (Join.submitted st)).

(** [future_to_app[self._executor.submit(self.get_nodes, app, None, use_dom)] = app] *)
Definition submit (app : nat) (st : Join.t) : Join.t :=
  Join.mk (Join.self st) (Join.interactive_nodes st) (Join.scrollable_nodes st)
    (Join.dom_informative_nodes st) (Join.is_partial st) (Join.warnings st)
    (Join.retry_counts st)
    (Join.future_to_app st ++ [(Join.next_future st, app)])
    (Join.completed st) (S (Join.next_future st)) (Join.clock_reads st)
    (Join.submitted st ++ [GetNodesJob app]).

(** [is_partial = True; warnings.append(w)] *)
Definition mark_partial (w : warning) (st : Join.t) : Join.t :=
  Join.mk (Join.self st) (Join.interactive_nodes st) (Join.scrollable_nodes st)
    (Join.dom_informative_nodes st) true (Join.warnings st ++ [w])
    (Join.retry_counts st) (Join.future_to_app st) (Join.completed st)
    (Join.next_future st) (Join.clock_reads st) (Join.submitted st).

(** [future_to_app.pop(future)] *)
Definition pop_future (future : nat) (st : Join.t) : Join.t :=
  Join.mk (Join.self st) (Join.interactive_nodes st) (Join.scrollable_nodes st)
    (Join.dom_informative_nodes st) (Join.is_partial st) (Join.warnings st)
    (Join.retry_counts st)
    (filter (fun entry => entry.1 ≠ future) (Join.future_to_app st))
    (Join.completed st) (Join.next_future st) (Join.clock_reads st)
    (Join.submitted st).

(** The three [extend] calls and [completed += 1], with the [Tree] object
    as the job left it. *)
Definition merge (result : window_result) (self : Tree.t) (st : Join.t) : Join.t :=
  let '(element_nodes, scroll_nodes, informative_nodes) := result in
  Join.mk self (Join.interactive_nodes st ++ element_nodes)
    (Join.scrollable_nodes st ++ scroll_nodes)
    (Join.dom_informative_nodes st ++ informative_nodes)
    (Join.is_partial st) (Join.warnings st) (Join.retry_counts st)
    (Join.future_to_app st) (S (Join.completed st)) (Join.next_future st)
    (Join.clock_reads st) (Join.submitted st).

(** [retry_counts[app] += 1], with the [Tree] object as the failed job left
    it.  Every window of [apps] has an entry from the start. *)
Definition count_retry (app : nat) (self : Tree.t) (st : Join.t) : Join.t :=
  Join.mk self (Join.interactive_nodes st) (Join.scrollable_nodes st)
    (Join.dom_informative_nodes st) (Join.is_partial st) (Join.warnings st)
    (<[app := S (default 0%nat (Join.retry_counts st !! app))]> (Join.retry_counts st))
    (Join.future_to_app st) (Join.completed st) (Join.next_future st)
    (Join.clock_reads st) (Join.submitted st).

(** [future_to_app.get(future)] *)
Definition app_of (future : nat) (st : Join.t) : option nat :=
  (fun found : nat * (nat * nat) => found.2.2)
    <$> list_find (fun entry => entry.1 = future) (Join.future_to_app st).

(** The body of the [for future in as_completed(...)] loop. *)
Definition on_completed (deadline : Z) (future : nat) (view : Control)
    (st : Join.t) : Join.t :=
  match app_of future st with
  | None => st
  | Some app =>
      let st := pop_future future st in
      match get_nodes cfg view None use_dom (Join.self st) with
      | (Ok result, self) => merge result self st
      | (Raise, self) =>
          let st := count_retry app self st in
          if (default 0%nat (Join.retry_counts st !! app) <? THREAD_MAX_RETRIES)%nat
          then
            let '(now, st) := monotonic st in
            if 0 <? deadline - now
            then submit app st
            else mark_partial SubtreesFailedWarning st
          else mark_partial SubtreesFailedWarning st
      end
  end.

(** The head of the [while future_to_app:] loop: [None] when the loop is
    left (nothing is pending, or the deadline has passed), otherwise the
    futures the next [as_completed] waits for. *)
Definition loop_head (deadline : Z) (st : Join.t) : option (list nat) * Join.t :=
  match Join.future_to_app st with
  | [] => (None, st)
  | _ =>
      let '(now, st) := monotonic st in
      let remaining := deadline - now in
      if remaining <=? 0
      then (None, mark_partial (EnumerationTimeoutWarning timeout_s) st)
      else (Some (Join.future_to_app st).*1, st)
  end.

(** The join.  [pending] holds the futures the running [as_completed] has
    not yielded yet.  A schedule that ends while futures are pending stands
    for futures that never complete: the wait times out.  An event for a
    future that is not pending cannot occur and is passed over. *)
Fixpoint join (deadline : Z) (schedule : list event) (pending : list nat)
    (st : Join.t) : Join.t :=
  match schedule with
  | Completes future view :: rest =>
      if bool_decide (future ∈ pending) then
        let st := on_completed deadline future view st in
        match filter (fun f => f ≠ future) pending with
        | [] =>
            match loop_head deadline st with
            | (Some pending, st) => join deadline rest pending st
            | (None, st) => st
            end
        | pending => join deadline rest pending st
        end
      else join deadline rest pending st
  | WaitTimesOut :: _ | [] =>
      mark_partial (EnumerationTimeoutWarning timeout_s) st
  end.

Definition get_appwise_nodes (apps : list Control) (schedule : list event)
    (self : Tree.t) (submitted : list job) : Join.t :=
  let deadline := clock 0 + timeout_s in
  let windows := seq 0 (List.length apps) in
  let retry_counts : gmap nat nat :=
    list_to_map ((fun app => (app, 0%nat)) <$> windows) in
  let st :=
    foldl (fun st app => submit app st)
      (Join.mk self [] [] [] false [] retry_counts [] 0 0 1 submitted) windows in
  match loop_head deadline st with
  | (Some pending, st) => join deadline schedule pending st
  | (None, st) => st
  end.

End GetAppwiseNodes.

(** ** [Tree.get_state] *)

(** How the root enumeration job ends: [collect_targets] runs to its end
    on what [GetRootControl().GetChildren()] answers, or the wait for it
    times out; [now] is then the value of [time.monotonic()] read by the
    handler. *)
Inductive root_enumeration : Type :=
  | RootAnswers (children : exc (list Control))
  | RootTimesOut (now : Z).

Module Call.
(** What the world does during one call of [get_state]: the clock at
    entry, the end of the root enumeration, the end of the wait for
    [uia.ControlFromHandle] ([Raise] for an error or a timeout), and the
    clock and the schedule of the join. *)
Record t : Type := mk {
  now : Z;
  root : root_enumeration;
  active_window : exc Control;
  clock : nat -> Z;
  schedule : list event
}.
End Call.

(** The nested function [collect_targets] of [get_state], on the children
    of the root. *)
Fixpoint collect_targets (cfg : Settings) (active_app : option App)
    (other_apps_handle : list Z) (children : list Control)
  : exc (list Control) :=
  match children with
  | [] => Ok []
  | child :: rest =>
      match NativeWindowHandle child with
      | Raise => collect_targets cfg active_app other_apps_handle rest
      | Ok hwnd =>
          if bool_decide (hwnd ∈ other_apps_handle)
          then collect_targets cfg active_app other_apps_handle rest
          else
            is_desktop ←
              match active_app with
              | Some _ => c ← ClassName child; Ok (bool_decide (c = "Progman"))
              | None => Ok false
              end;
            if (is_desktop : bool)
            then collect_targets cfg active_app other_apps_handle rest
            else
              is_system ←
                (if exclude_system_windows cfg
                 then (c ← ClassName child; Ok (PyStr.mem c (EXCLUDED_APPS cfg)))
                 else Ok false);
              if (is_system : bool)
              then collect_targets cfg active_app other_apps_handle rest
              else
                targets ← collect_targets cfg active_app other_apps_handle rest;
                Ok (child :: targets)
      end
  end.

Definition get_state (cfg : Settings) (self : Tree.t) (active_app : option App)
    (other_apps : list App) (use_dom : bool) (env : Call.t)
  : TreeState.t * Tree.t * list job :=
  let timeout_s := timeout_s cfg use_dom in
  let root_timeout_s := Z.min (ROOT_ENUM_TIMEOUT_S cfg) timeout_s in
  let now := Call.now env in
  if now <? Tree._uia_disabled_until self then
    let remaining := Tree._uia_disabled_until self - now in
    (TreeState.mk None [] [] [] true [UiaDisabledWarning remaining], self, [])
  else
    let other_apps_handle := handle <$> other_apps in
    let submitted := [CollectTargetsJob] in
    let '(apps, root_partial, root_warnings, self) :=
      match Call.root env with
      | RootAnswers children =>
          match children ≫= collect_targets cfg active_app other_apps_handle with
          | Ok targets => (targets, false, [], self)
          | Raise => ([], true, [RootEnumFailedWarning], self)
          end
      | RootTimesOut now =>
          ([], true, [RootEnumTimeoutWarning root_timeout_s],
           Tree.set_uia_disabled_until self
             (Z.max (Tree._uia_disabled_until self)
                    (now + UIA_TIMEOUT_COOLDOWN_S cfg)))
      end in
    (* Fallback: at least enumerate the active app. *)
    let '(apps, root_partial, root_warnings, submitted) :=
      match apps, active_app with
      | [], Some app =>
          if bool_decide (handle app ≠ 0) then
            match Call.active_window env with
            | Ok control =>
                ([control], root_partial, root_warnings,
                 submitted ++ [ControlFromHandleJob (handle app)])
            | Raise =>
                ([], true, root_warnings ++ [ActiveLookupFailedWarning],
                 submitted ++ [ControlFromHandleJob (handle app)])
            end
          else (apps, root_partial, root_warnings, submitted)
      | _, _ => (apps, root_partial, root_warnings, submitted)
      end in
    let st :=
      get_appwise_nodes cfg use_dom (Call.clock env) apps (Call.schedule env)
        self submitted in
    (TreeState.mk (Tree.dom_info (Join.self st))
       (Join.interactive_nodes st) (Join.scrollable_nodes st)
       (Join.dom_informative_nodes st)
       (Join.is_partial st || root_partial)
       (Join.warnings st ++ root_warnings),
     Join.self st, Join.submitted st).

(** ** [windows_mcp/desktop/service.py]: the applications on the desktop *)

(** [windows_mcp.desktop.views.Status] *)
Inductive Status : Type := MAXIMIZED | MINIMIZED | NORMAL | HIDDEN.

#[global] Instance Status_eq_dec : EqDecision Status.
Proof. solve_decision. Defined.

(** [windows_mcp.desktop.views.App] with all its fields; [App] above is
    what the engine reads of it. *)
Module DesktopApp.
Record t : Type := mk {
  name : string;
  depth : nat;
  status : Status;
  size : Size;
  handle : Z;
  process_id : Z
}.
End DesktopApp.

Definition as_engine_app (app : DesktopApp.t) : App := mkApp (DesktopApp.handle app).

(** The constants of [win32con] that the listing uses. *)
Definition WS_MINIMIZEBOX : Z := 0x20000.
Definition WS_MAXIMIZEBOX : Z := 0x10000.
Definition SW_SHOWMAXIMIZED : Z := 3.

Module Win32.
(** What a window answers to the calls of [win32gui] and [win32process]
    that take its handle; every call may raise.
    [GetWindowLong_GWL_STYLE] is [GetWindowLong(hwnd, GWL_STYLE)] and
    [GetWindowPlacement_showCmd] is [GetWindowPlacement(hwnd)[1]]. *)
Record window : Type := mk {
  hwnd : Z;
  IsWindow : exc bool;
  IsWindowVisible : exc bool;
  GetWindowText : exc string;
  GetClassName : exc string;
  GetWindowLong_GWL_STYLE : exc Z;
  GetWindowRect : exc Rect.t;
  GetWindowThreadProcessId : exc (Z * Z);
  IsIconic : exc bool;
  IsZoomed : exc bool;
  GetWindowPlacement_showCmd : exc Z
}.
End Win32.

(** The collaborators of [Desktop.get_state] that work on images:
    [Tree.get_annotated_screenshot] and the PNG encoder. *)
Record Vision : Type := mkVision {
  Image : Type;
  Scale : Type;
  get_annotated_screenshot : list TreeElementNode.t -> Scale -> Image;
  png_bytes : Image -> Image
}.

(** [windows_mcp.desktop.views.DesktopState] *)
Module DesktopState.
Record t (V : Vision) : Type := mk {
  apps : list DesktopApp.t;
  active_app : option DesktopApp.t;
  screenshot : option (Image V);
  tree_state : TreeState.t
}.
Arguments mk {V}.
Arguments apps {V}.
Arguments active_app {V}.
Arguments screenshot {V}.
Arguments tree_state {V}.
End DesktopState.

(** [x in s] for strings: [x] occurs in [s]. *)
Fixpoint occurs_in (x s : string) : bool :=
  String.prefix x s ||
  match s with
  | EmptyString => false
  | String _ rest => occurs_in x rest
  end.

(** [lst[i]]: a negative index counts from the end, an index out of range
    raises. *)
Definition py_index {A} (l : list A) (i : Z) : exc A :=
  let n := Z.of_nat (List.length l) in
  let i := if i <? 0 then i + n else i in
  if (0 <=? i) && (i <? n)
  then match l !! Z.to_nat i with
       | Some x => Ok x
       | None => Raise
       end
  else Raise.


      (* Invalid type. Use "horizontal" or "vertical". *)

(** The calls that [bring_window_to_top] makes for their effect.
    [ControlFromHandle_SetFocus] is [uia.ControlFromHandle(hwnd).SetFocus()];
    [time_sleep] takes milliseconds. *)
Inductive activation : Type :=
  | AllowSetForegroundWindow (process : Z)
  | AttachThreadInput (current_thread thread : Z) (attach : bool)
  | ShowWindow (hwnd show : Z)
  | SetForegroundWindow (hwnd : Z)
  | SetActiveWindow (hwnd : Z)
  | SetFocus (hwnd : Z)
  | BringWindowToTop (hwnd : Z)
  | ControlFromHandle_SetFocus (hwnd : Z)
  | click (x y : Z)
  | time_sleep (ms : Z).

#[global] Instance activation_eq_dec : EqDecision activation.
Proof. solve_decision. Defined.

Definition SW_SHOW : Z := 5.

(** What the world does during one call of [bring_window_to_top]: what
    the calls made for their value answer, which of the calls made for
    their effect raise, and whether the environment asks for the click
    ([WINDOWS_MCP_FORCE_FOCUS_CLICK]). *)
Record activation_world : Type := mkActivationWorld {
  GetForegroundWindow_first : exc Z;
  GetWindowThreadProcessId_thread : Z -> exc Z;
  GetCurrentThreadId : exc Z;
  raises : activation -> bool;
  WINDOWS_MCP_FORCE_FOCUS_CLICK : bool;
  GetForegroundWindow_then : exc Z;
  GetWindowRect_target : exc Rect.t
}.

Module Desktop.

(** The object: the engine and the state kept by the last [get_state]. *)
Record t (V : Vision) : Type := mk {
  tree : Tree.t;
  desktop_state : option (DesktopState.t V)
}.
Arguments mk {V}.
Arguments tree {V}.
Arguments desktop_state {V}.

(** The maximised flag as [get_active_app] and [enum_cb] read it:
    [has_IsZoomed] is [hasattr(win32gui, "IsZoomed")]. *)
Definition is_max_of (has_IsZoomed : bool) (w : Win32.window) : exc bool :=
  if has_IsZoomed then Win32.IsZoomed w
  else Ok (match Win32.GetWindowPlacement_showCmd w with
           | Ok show_cmd => bool_decide (show_cmd = SW_SHOWMAXIMIZED)
           | Raise => false
           end).

(** The conditional expression that both compute the status with. *)
Definition status_of (is_min is_max is_visible : bool) : Status :=
  if is_min then MINIMIZED
  else if is_max then MAXIMIZED
  else if is_visible then NORMAL
  else HIDDEN.

(** [get_active_app]: [GetForegroundWindow] is the window whose handle
    [win32gui.GetForegroundWindow()] returns. *)
Definition get_active_app (has_IsZoomed : bool) (GetForegroundWindow : exc Win32.window)
  : option DesktopApp.t :=
  let body : exc (option DesktopApp.t) :=
    w ← GetForegroundWindow;
    if bool_decide (Win32.hwnd w = 0) then Ok None else
    text ← Win32.GetWindowText w;
    let name := PyStr.or_else (PyStr.strip (PyStr.or_else text "")) "Foreground Window" in
    rect ← Win32.GetWindowRect w;
    let width := Z.max 0 (Rect.right rect - Rect.left rect) in
    let height := Z.max 0 (Rect.bottom rect - Rect.top rect) in
    ids ← Win32.GetWindowThreadProcessId w;
    is_min ← Win32.IsIconic w;
    is_max ← is_max_of has_IsZoomed w;
    is_visible ← Win32.IsWindowVisible w;
    Ok (Some (DesktopApp.mk name 0 (status_of is_min is_max is_visible)
                (mkSize width height) (Win32.hwnd w) ids.2))
  in
  match body with
  | Ok app => app
  | Raise => None
  end.

(** [get_app_status]: [window_of] gives the window behind a handle, which
    the calls [uia.IsIconic], [uia.IsZoomed] and [uia.IsWindowVisible]
    ask. *)
Definition get_app_status (window_of : Z -> Win32.window) (control : Control)
  : exc Status :=
  iconic ← (h ← NativeWindowHandle control; Win32.IsIconic (window_of h));
  if (iconic : bool) then Ok MINIMIZED else
  zoomed ← (h ← NativeWindowHandle control; Win32.IsZoomed (window_of h));
  if (zoomed : bool) then Ok MAXIMIZED else
  visible ← (h ← NativeWindowHandle control; Win32.IsWindowVisible (window_of h));
  if (visible : bool) then Ok NORMAL else Ok HIDDEN.

Definition get_app_size (control : Control) : exc Size :=
  window ← BoundingRectangle control;
  if Rect.isempty window then Ok (mkSize 0 0)
  else Ok (mkSize (Rect.width window) (Rect.height window)).

Definition is_overlay_app (element : Control) : exc bool :=
  children ← GetChildren element;
  let no_children := bool_decide (List.length children = 0%nat) in
  name ← Name element;
  let is_name := occurs_in "Overlay" (PyStr.strip name) in
  Ok (no_children || is_name).

Definition is_app_visible (window_of : Z -> Win32.window) (app : Control) : exc bool :=
  status ← get_app_status window_of app;
  let is_minimized := negb (bool_decide (status = MINIMIZED)) in
  size ← get_app_size app;
  let area := Size_width size * Size_height size in
  is_overlay ← is_overlay_app app;
  Ok (negb is_overlay && is_minimized && (10 <? area)).

(** The callback [enum_cb] of [get_apps], with the list it appends to:
    a window is passed over when a test sends it away or when a call
    raises. *)
Definition enum_cb (cfg : Settings) (has_IsZoomed : bool)
    (apps : list DesktopApp.t) (w : Win32.window) : list DesktopApp.t :=
  let body : exc (option DesktopApp.t) :=
    is_window ← (if bool_decide (Win32.hwnd w = 0) then Ok false else Win32.IsWindow w);
    if negb is_window then Ok None else
    visible ← Win32.IsWindowVisible w;
    if negb visible then Ok None else
    text ← Win32.GetWindowText w;
    let title := PyStr.strip (PyStr.or_else text "") in
    if negb (PyStr.truthy title) then Ok None else
    let class_name :=
      match Win32.GetClassName w with
      | Ok class_name => class_name
      | Raise => ""
      end in
    if PyStr.mem class_name (EXCLUDED_APPS cfg) then Ok None else
    style ← Win32.GetWindowLong_GWL_STYLE w;
    if negb (negb (Z.land style WS_MINIMIZEBOX =? 0)
             && negb (Z.land style WS_MAXIMIZEBOX =? 0)) then Ok None else
    rect ← Win32.GetWindowRect w;
    let width := Z.max 0 (Rect.right rect - Rect.left rect) in
    let height := Z.max 0 (Rect.bottom rect - Rect.top rect) in
    if width * height <=? 10 then Ok None else
    ids ← Win32.GetWindowThreadProcessId w;
    is_min ← Win32.IsIconic w;
    is_max ← is_max_of has_IsZoomed w;
    is_visible ← Win32.IsWindowVisible w;
    Ok (Some (DesktopApp.mk title (List.length apps)
                (status_of is_min is_max is_visible)
                (mkSize width height) (Win32.hwnd w) ids.2))
  in
  match body with
  | Ok (Some app) => apps ++ [app]
  | Ok None | Raise => apps
  end.

(** [get_apps]: [windows] are the windows that [EnumWindows] passes to the
    callback, in its order; should [EnumWindows] then raise, the list
    gathered so far is returned all the same. *)
Definition get_apps (cfg : Settings) (has_IsZoomed : bool)
    (windows : list Win32.window) : list DesktopApp.t :=
  foldl (enum_cb cfg has_IsZoomed) [] windows.

(** What the world does during one call of [Desktop.get_state]: the
    windows that [EnumWindows] lists, the foreground window, and the world
    of the call into the engine. *)
Record world : Type := mkWorld {
  windows : list Win32.window;
  foreground : exc Win32.window;
  call : Call.t
}.

(** [Desktop.get_state]; it comes with the object as the call leaves it
    and with the jobs handed to the pool. *)
Definition get_state (cfg : Settings) (has_IsZoomed : bool) {V : Vision}
    (self : t V) (use_vision use_dom as_bytes : bool) (scale : Scale V)
    (env : world) : DesktopState.t V * t V * list job :=
  let apps := get_apps cfg has_IsZoomed (windows env) in
  let active_app := get_active_app has_IsZoomed (foreground env) in
  let apps :=
    match active_app with
    | Some active =>
        filter (fun app => DesktopApp.handle app ≠ DesktopApp.handle active) apps
    | None => apps
    end in
  let '(tree_state, tree, jobs) :=
    get_state cfg (tree self) (as_engine_app <$> active_app)
      (as_engine_app <$> apps) use_dom (call env) in
  let screenshot :=
    if use_vision then
      let screenshot :=
        get_annotated_screenshot V (TreeState.interactive_nodes tree_state) scale in
      Some (if as_bytes then png_bytes V screenshot else screenshot)
    else None in
  let desktop_state := DesktopState.mk apps active_app screenshot tree_state in
  (desktop_state, mk tree (Some desktop_state), jobs).

(** [str.split(sep)] for a separator of one character. *)
Fixpoint split (sep : ascii) (s : string) : list string :=
  match s with
  | EmptyString => [EmptyString]
  | String c rest =>
      if Ascii.eqb c sep then EmptyString :: split sep rest
      else match split sep rest with
           | first :: others => String c first :: others
           | [] => [String c EmptyString]
           end
  end.

Definition is_digit (c : ascii) : bool :=
  let n := PyStr.code c in ((48 <=? n) && (n <=? 57))%nat.

(** [\w] on one ASCII character. *)
Definition is_word (c : ascii) : bool :=
  is_digit c || PyStr.is_upper c || PyStr.is_lower c || Ascii.eqb c "_".

(** The longest prefix of [s] whose characters satisfy [p], and the rest. *)
Fixpoint span (p : ascii -> bool) (s : string) : string * string :=
  match s with
  | EmptyString => (EmptyString, EmptyString)
  | String c rest =>
      if p c then let '(taken, remaining) := span p rest in (String c taken, remaining)
      else (EmptyString, s)
  end.

(** [re.compile(r'(\w+)(?:\[(\d+)\])?').fullmatch(part)]: the two groups of
    a match, the second [None] when there is no index. *)
Definition fullmatch (part : string) : option (string * option string) :=
  let '(control_type, rest) := span is_word part in
  if negb (PyStr.truthy control_type) then None else
  match rest with
  | EmptyString => Some (control_type, None)
  | String "[" rest =>
      let '(index, rest) := span is_digit rest in
      if PyStr.truthy index && String.eqb rest "]"
      then Some (control_type, Some index) else None
  | _ => None
  end.

(** [int(s)] on a string of decimal digits. *)
Definition int (s : string) : nat :=
  fold_left (fun n c => (10 * n + (PyStr.code c - 48))%nat) (list_ascii_of_string s) 0%nat.

(** [list(filter(lambda x: x.ControlTypeName == control_type, children))] *)
Fixpoint same_type_children (control_type : string) (children : list Control)
  : exc (list Control) :=
  match children with
  | [] => Ok []
  | child :: rest =>
      t ← ControlTypeName child;
      others ← same_type_children control_type rest;
      Ok (if bool_decide (t = control_type) then child :: others else others)
  end.

(** The loop of [get_element_from_xpath] over the parts of the path. *)
Fixpoint follow (element : Control) (parts : list string) : exc Control :=
  match parts with
  | [] => Ok element
  | part :: rest =>
      match fullmatch part with
      | None => follow element rest
      | Some (control_type, index) =>
          let index :=
            match index with
            | Some digits => Some (int digits)
            | None => None
            end in
          children ← GetChildren element;
          same_type ← same_type_children control_type children;
          element ←
            match index with
            | Some (S i) =>
                match same_type !! i with
                | Some child => Ok child
                | None => Raise
                end
            | Some O | None =>
                match same_type with
                | child :: _ => Ok child
                | [] => Raise
                end
            end;
          follow element rest
      end
  end.

Definition get_element_from_xpath (GetRootControl : exc Control) (xpath : string)
  : exc Control :=
  let parts := split "/" xpath in
  root ← GetRootControl;
  follow root (tail parts).

Definition get_element_handle_from_label {V : Vision} (self : t V)
    (GetRootControl : exc Control) (label : Z) : exc Control :=
  match desktop_state self with
  | None => Raise
  | Some desktop_state =>
      let tree_state := DesktopState.tree_state desktop_state in
      element_node ← py_index (TreeState.interactive_nodes tree_state) label;
      let xpath := TreeElementNode.xpath element_node in
      get_element_from_xpath GetRootControl xpath
  end.


(** A run of statements that are one call each; [true] marks a call that
    sits in a [try] of its own whose handler passes.  The outcome comes
    with the calls attempted. *)
Fixpoint run_calls (raises : activation -> bool) (statements : list (bool * activation))
  : exc unit * list activation :=
  match statements with
  | [] => (Ok tt, [])
  | (in_try, c) :: rest =>
      let '(outcome, calls) := run_calls raises rest in
      if in_try then (outcome, c :: calls)
      else if raises c then (Raise, [c])
      else (outcome, c :: calls)
  end.

(** The last resort of [bring_window_to_top], a click on the title bar:
    the calls it makes; whatever raises in it is passed over. *)
Definition focus_click (w : activation_world) (target_handle : Z) : list activation :=
  match GetForegroundWindow_then w with
  | Ok foreground =>
      if bool_decide (foreground ≠ target_handle) then
        match GetWindowRect_target w with
        | Ok rect =>
            let x := Z.quot (Rect.left rect + Rect.right rect) 2 in
            let y := Rect.top rect + 12 in
            if raises w (click x y) then [click x y]
            else [click x y; time_sleep 50]
        | Raise => []
        end
      else []
  | Raise => []
  end.

(** [bring_window_to_top], with the calls it attempts, in order. *)
Definition bring_window_to_top (w : activation_world) (target_handle : Z)
  : exc unit * list activation :=
  match
    foreground_handle ← GetForegroundWindow_first w;
    foreground_thread ← GetWindowThreadProcessId_thread w foreground_handle;
    target_thread ← GetWindowThreadProcessId_thread w target_handle;
    current_thread ← GetCurrentThreadId w;
    Ok (foreground_thread, target_thread, current_thread)
  with
  | Raise => (Raise, [])
  | Ok (foreground_thread, target_thread, current_thread) =>
      (* try: *)
      let '(outcome, calls) :=
        run_calls (raises w)
          [ (false, AllowSetForegroundWindow (-1));
            (true, AttachThreadInput current_thread foreground_thread true);
            (true, AttachThreadInput current_thread target_thread true);
            (true, ShowWindow target_handle SW_SHOW);
            (false, SetForegroundWindow target_handle);
            (true, SetActiveWindow target_handle);
            (true, SetFocus target_handle);
            (true, BringWindowToTop target_handle);
            (true, ControlFromHandle_SetFocus target_handle) ] in
      let calls :=
        match outcome with
        | Ok _ =>
            if WINDOWS_MCP_FORCE_FOCUS_CLICK w
            then calls ++ focus_click w target_handle
            else calls
        | Raise => calls
        end in
      (* except Exception: logged; finally: *)
      let '(_, detaching) :=
        run_calls (raises w)
          [ (true, AttachThreadInput current_thread target_thread false);
            (true, AttachThreadInput current_thread foreground_thread false) ] in
      (Ok tt, calls ++ detaching)
  end.

End Desktop.

(** ** The vocabulary of the properties *)

(** The parts of the bounding-box invariant. *)
Definition box_ordered (b : BoundingBox.t) : Prop :=
  BoundingBox.left b <= BoundingBox.right b /\
  BoundingBox.top b <= BoundingBox.bottom b.
Definition box_dimensions (b : BoundingBox.t) : Prop :=
  BoundingBox.width b = BoundingBox.right b - BoundingBox.left b /\
  BoundingBox.height b = BoundingBox.bottom b - BoundingBox.top b.
Definition box_degenerate (b : BoundingBox.t) : Prop :=
  BoundingBox.right b <= BoundingBox.left b \/
  BoundingBox.bottom b <= BoundingBox.top b.
Definition box_within (screen b : BoundingBox.t) : Prop :=
  BoundingBox.left screen <= BoundingBox.left b /\
  BoundingBox.top screen <= BoundingBox.top b /\
  BoundingBox.right b <= BoundingBox.right screen /\
  BoundingBox.bottom b <= BoundingBox.bottom screen.

(** The invariant in full: ordered edges, width and height equal to the
    differences of the edges, all-zero when there is no area, inside the
    screen otherwise. *)
Definition clipped_box (screen b : BoundingBox.t) : Prop :=
  box_ordered b /\ box_dimensions b /\
  (box_degenerate b -> b = BoundingBox.mk 0 0 0 0 0 0) /\
  (~ box_degenerate b -> box_within screen b).

(** An answer of the provider that has turned into an error, or stayed
    what it was. *)
Definition fails_or_same {A} (degraded original : exc A) : Prop :=
  degraded = Raise \/ degraded = original.

(** The same for a pattern object: the call that fetches it fails, or it
    fetches a pattern whose own reads fail or stay. *)
Definition scroll_pattern_degraded (degraded original : exc (option ScrollPattern.t))
  : Prop :=
  degraded = Raise \/ degraded = original \/
  exists p' p, degraded = Ok (Some p') /\ original = Ok (Some p) /\
    fails_or_same (ScrollPattern.HorizontallyScrollable p')
                  (ScrollPattern.HorizontallyScrollable p) /\
    fails_or_same (ScrollPattern.HorizontalScrollPercent p')
                  (ScrollPattern.HorizontalScrollPercent p) /\
    fails_or_same (ScrollPattern.VerticallyScrollable p')
                  (ScrollPattern.VerticallyScrollable p) /\
    fails_or_same (ScrollPattern.VerticalScrollPercent p')
                  (ScrollPattern.VerticalScrollPercent p).
Definition legacy_pattern_degraded (degraded original : exc LegacyIAccessiblePattern.t)
  : Prop :=
  degraded = Raise \/
  exists p' p, degraded = Ok p' /\ original = Ok p /\
    fails_or_same (LegacyIAccessiblePattern.DefaultAction p')
                  (LegacyIAccessiblePattern.DefaultAction p) /\
    fails_or_same (LegacyIAccessiblePattern.Value p')
                  (LegacyIAccessiblePattern.Value p).

(** [degraded node' node]: the control [node'] is [node] with some of its
    provider reads replaced by errors. *)
Record degraded (node' node : Attributes) : Prop := mkDegraded {
  degraded_class : class_of node' = class_of node;
  degraded_Name : fails_or_same (Name node') (Name node);
  degraded_ControlTypeName : fails_or_same (ControlTypeName node') (ControlTypeName node);
  degraded_LocalizedControlType :
    fails_or_same (LocalizedControlType node') (LocalizedControlType node);
  degraded_ClassName : fails_or_same (ClassName node') (ClassName node);
  degraded_AutomationId : fails_or_same (AutomationId node') (AutomationId node);
  degraded_AcceleratorKey : fails_or_same (AcceleratorKey node') (AcceleratorKey node);
  degraded_IsOffscreen : fails_or_same (IsOffscreen node') (IsOffscreen node);
  degraded_IsEnabled : fails_or_same (IsEnabled node') (IsEnabled node);
  degraded_IsKeyboardFocusable :
    fails_or_same (IsKeyboardFocusable node') (IsKeyboardFocusable node);
  degraded_IsControlElement :
    fails_or_same (IsControlElement node') (IsControlElement node);
  degraded_HasKeyboardFocus :
    fails_or_same (HasKeyboardFocus node') (HasKeyboardFocus node);
  degraded_BoundingRectangle :
    fails_or_same (BoundingRectangle node') (BoundingRectangle node);
  degraded_NativeWindowHandle :
    fails_or_same (NativeWindowHandle node') (NativeWindowHandle node);
  degraded_ProcessName : fails_or_same (ProcessName node') (ProcessName node);
  degraded_GetScrollPattern :
    scroll_pattern_degraded (GetScrollPattern node') (GetScrollPattern node);
  degraded_GetLegacyIAccessiblePattern :
    legacy_pattern_degraded (GetLegacyIAccessiblePattern node')
                            (GetLegacyIAccessiblePattern node);
  degraded_IsModal : fails_or_same (IsModal node') (IsModal node)
}.

(** [true] when below [node] there is a control that a browser window
    takes for the root of a document: one whose [AutomationId] reads
    [RootWebArea]. *)
Definition is_root_web_area (child : Control) : bool :=
  match AutomationId child with
  | Ok a => bool_decide (a = "RootWebArea")
  | Raise => false
  end.
Fixpoint some_descendant (p : Control -> bool) (node : Control) : bool :=
  match node with
  | mkControl _ (Ok children) =>
      existsb (fun child => p child || some_descendant p child) children
  | mkControl _ Raise => false
  end.
Definition has_root_web_area : Control -> bool := some_descendant is_root_web_area.

(** A window job can meet a document root only in a browser window with
    such a control below it. *)
Definition may_meet_document_root (cfg : Settings) (view : Control) : bool :=
  try_false (is_app_browser cfg view) && has_root_web_area view.



(** How often the window [app] has been handed to the pool. *)
Definition submissions (app : nat) (submitted : list job) : nat :=
  List.length (filter (fun j => j = GetNodesJob app) submitted).

(** The number of failures on record for a window. *)
Definition failures (app : nat) (st : Join.t) : nat :=
  default 0%nat (Join.retry_counts st !! app).

(** The invariant behind the bound on retries: since the join began with
    [before] handed to the pool, a window has been handed over at most
    [THREAD_MAX_RETRIES] times, and never more often than its failures
    plus one. *)
Definition retry_bound (before : list job) (st : Join.t) : Prop :=
  forall app,
    (submissions app (Join.submitted st)
       <= submissions app before + failures app st + 1)%nat /\
    (submissions app (Join.submitted st)
       <= submissions app before + THREAD_MAX_RETRIES)%nat.

(** The invariants of a walk and of a join that the proofs carry: a
    property of the [Tree] object, a property of the box of every
    interactive element and one of the box of every scrollable element. *)
Definition walk_invariant (on_self : Tree.t -> Prop)
    (on_box on_scroll_box : BoundingBox.t -> Prop) (w : Walk.t) : Prop :=
  on_self (Walk.self w) /\
  Forall (fun e => on_box (TreeElementNode.bounding_box e)) (Walk.interactive_nodes w) /\
  Forall (fun e => on_box (TreeElementNode.bounding_box e)) (Walk.dom_interactive_nodes w) /\
  Forall (fun e => on_scroll_box (ScrollElementNode.bounding_box e)) (Walk.scrollable_nodes w).

Definition join_invariant (on_self : Tree.t -> Prop)
    (on_box on_scroll_box : BoundingBox.t -> Prop) (st : Join.t) : Prop :=
  on_self (Join.self st) /\
  Forall (fun e => on_box (TreeElementNode.bounding_box e)) (Join.interactive_nodes st) /\
  Forall (fun e => on_scroll_box (ScrollElementNode.bounding_box e)) (Join.scrollable_nodes st).

(** [walk_spec P m Q]: the step [m] of a walk keeps the invariant [P] of
    the traversal state, whether it returns or raises, and a value it
    returns satisfies [Q]. *)
Definition walk_spec {A} (P : Walk.t -> Prop) (m : walk A) (Q : A -> Prop) : Prop :=
  forall w, P w -> P (m w).2 /\ forall a, (m w).1 = Ok a -> Q a.

Definition walk_keeps (P : Walk.t -> Prop) {A} (m : walk A) : Prop :=
  walk_spec P m (fun _ => True).

(** The same for a window job as a whole. *)
Definition result_invariant (on_box on_scroll_box : BoundingBox.t -> Prop)
    (result : window_result) : Prop :=
  Forall (fun e => on_box (TreeElementNode.bounding_box e)) result.1.1 /\
  Forall (fun e => on_scroll_box (ScrollElementNode.bounding_box e)) result.1.2.

Definition job_keeps (cfg : Settings) (on_self : Tree.t -> Prop)
    (on_box on_scroll_box : BoundingBox.t -> Prop) (view : Control)
    (use_dom : bool) : Prop :=
  forall self, on_self self ->
    on_self (get_nodes cfg view None use_dom self).2 /\
    forall result, (get_nodes cfg view None use_dom self).1 = Ok result ->
      result_invariant on_box on_scroll_box result.

(** An event of a schedule whose job, if any, walked a view with [good]. *)
Definition good_event (good : Control -> Prop) (e : event) : Prop :=
  match e with
  | Completes _ view => good view
  | WaitTimesOut => True
  end.

(** The points of a rectangle: its left and top edges belong to it, its
    right and bottom edges do not. *)
Definition rect_contains (r : Rect.t) (x y : Z) : Prop :=
  Rect.left r <= x < Rect.right r /\ Rect.top r <= y < Rect.bottom r.

(** The name under which [get_nodes] files the elements of a window: a
    fixed label for the desktop, the taskbar and a context menu, and the
    stripped name of the window otherwise. *)
Definition app_name_of (view : Control) : exc string :=
  name ← Name view;
  class_name ← ClassName view;
  Ok (if bool_decide (class_name = "Progman") then "Desktop"
      else if PyStr.mem class_name ["Shell_TrayWnd"; "Shell_SecondaryTrayWnd"]
      then "Taskbar"
      else if bool_decide (class_name = "Microsoft.UI.Content.PopupWindowSiteBridge")
      then "Context Menu"
      else PyStr.strip name).

(** An element as the walk of the window [app_name] builds it: filed under
    that name, with an empty path. *)
Definition element_of (app_name : string) (e : TreeElementNode.t) : Prop :=
  TreeElementNode.xpath e = "" /\ TreeElementNode.app_name e = app_name.
Definition scroll_element_of (app_name : string) (e : ScrollElementNode.t) : Prop :=
  ScrollElementNode.xpath e = "" /\ ScrollElementNode.app_name e = app_name.

(** The value of an expression that returns, [d] for one that raises. *)
Definition value_or {A} (d : A) (m : exc A) : A :=
  match m with
  | Ok a => a
  | Raise => d
  end.

#[global] Instance warning_eq_dec : EqDecision warning.
Proof. solve_decision. Defined.

(** The number of windows the join has given up: each leaves one
    [SubtreesFailedWarning]. *)
Definition dropped (st : Join.t) : nat :=
  List.length (filter (fun w => w = SubtreesFailedWarning) (Join.warnings st)).

(** The books of the join over [n] windows: the pending futures are
    distinct and were all handed out, and every window is merged, given up
    or pending. *)
Definition accounted (n : nat) (st : Join.t) : Prop :=
  NoDup (Join.future_to_app st).*1 /\
  Forall (fun future => (future < Join.next_future st)%nat) (Join.future_to_app st).*1 /\
  (Join.completed st + dropped st + List.length (Join.future_to_app st) = n)%nat.

(** The children of the root that [collect_targets] looks at beyond their
    handle: those whose handle can be read and is not the handle of one of
    the other applications. *)
Definition enumerable (other_apps_handle : list Z) (child : Control) : bool :=
  match NativeWindowHandle child with
  | Ok hwnd => negb (bool_decide (hwnd ∈ other_apps_handle))
  | Raise => false
  end.

(** Such a child stops the enumeration when its class is asked for, which
    happens with an active application or with system windows excluded,
    and cannot be read. *)
Definition blocks (cfg : Settings) (active_app : option App)
    (other_apps_handle : list Z) (child : Control) : bool :=
  enumerable other_apps_handle child
  && (bool_decide (is_Some active_app) || exclude_system_windows cfg)
  && raised (ClassName child).

(** It is kept unless it is the desktop while there is an active
    application, or a system window while these are excluded. *)
Definition wanted (cfg : Settings) (active_app : option App)
    (other_apps_handle : list Z) (child : Control) : bool :=
  let class_name := value_or "" (ClassName child) in
  enumerable other_apps_handle child
  && negb (bool_decide (is_Some active_app) && bool_decide (class_name = "Progman"))
  && negb (exclude_system_windows cfg && PyStr.mem class_name (EXCLUDED_APPS cfg)).

(** The windows that the root enumeration hands over: none when it fails
    or times out. *)
Definition enumerated (cfg : Settings) (active_app : option App)
    (other_apps : list App) (env : Call.t) : list Control :=
  match Call.root env with
  | RootAnswers children =>
      value_or [] (children ≫= collect_targets cfg active_app (handle <$> other_apps))
  | RootTimesOut _ => []
  end.

Definition is_window_job (j : job) : Prop := exists app, j = GetNodesJob app.


(** ** Concrete windows, used to run the engine *)

Module Examples.

(** A 1920x1080 screen. *)
Definition screen : Size := mkSize 1920 1080.
Definition tree0 : Tree.t := Tree.init screen.

(** The default budgets of [tree/config.py], in milliseconds; the centre
    of the rectangle stands for the sampled point. *)
Definition settings : Settings :=
  {| TREE_STATE_TIMEOUT_S := 6000;
     TREE_STATE_TIMEOUT_DOM_S := 10000;
     ROOT_ENUM_TIMEOUT_S := 2000;
     UIA_TIMEOUT_COOLDOWN_S := 15000;
     BROWSER_NAMES := ["chrome.exe"; "msedge.exe"; "firefox.exe"];
     EXCLUDED_APPS := ["Progman"; "Shell_TrayWnd"];
     exclude_system_windows := false;
     random_point_within_bounding_box := fun node =>
       box ← BoundingRectangle node;
       Ok (Rect.left box + Rect.width box / 2, Rect.top box + Rect.height box / 2) |}.

Definition no_pattern : LegacyIAccessiblePattern.t :=
  LegacyIAccessiblePattern.mk (Ok "") (Ok None).

(** An enabled control element of class [cls] that answers every read. *)
Definition control_with (cls : py_class) (type_name localized name : string)
    (box : Rect.t) (offscreen : bool) (automation_id process : string)
    (scroll_pattern : option ScrollPattern.t) (modal : bool)
    (children : list Control) : Control :=
  mkControl
    {| class_of := cls;
       Name := Ok name;
       ControlTypeName := Ok type_name;
       LocalizedControlType := Ok localized;
       ClassName := Ok "";
       AutomationId := Ok automation_id;
       AcceleratorKey := Ok "";
       IsOffscreen := Ok offscreen;
       IsEnabled := Ok true;
       IsKeyboardFocusable := Ok false;
       IsControlElement := Ok true;
       HasKeyboardFocus := Ok false;
       BoundingRectangle := Ok box;
       NativeWindowHandle := Ok 0;
       ProcessName := Ok process;
       GetScrollPattern := Ok scroll_pattern;
       GetLegacyIAccessiblePattern := Ok no_pattern;
       IsModal := Ok modal |}
    (Ok children).

Definition control (cls : py_class) (type_name localized name : string)
    (box : Rect.t) (offscreen : bool) (children : list Control) : Control :=
  control_with cls type_name localized name box offscreen "" "notepad.exe"
    None false children.

Definition button (name : string) (box : Rect.t) : Control :=
  control OtherControl "ButtonControl" "button" name box false [].

Definition full_screen : Rect.t := Rect.mk 0 0 1920 1080.

(** A top-level window that fills the screen. *)
Definition window (name : string) (children : list Control) : Control :=
  control WindowControl "WindowControl" "window" name full_screen false children.

(** Two windows with one button each. *)
Definition window_a : Control := window "A" [button "in A" (Rect.mk 10 10 110 40)].

(** A clock that never reaches the deadline: every read is time 0. *)
Definition frozen_clock : nat -> Z := fun _ => 0.

(** A call in which the root enumeration finds [windows] and every window
    job completes, in the order [order] of their futures. *)
Definition call (windows : list Control) (order : list (nat * Control)) : Call.t :=
  Call.mk 0 (RootAnswers (Ok windows)) Raise frozen_clock
    ((fun job => Completes job.1 job.2) <$> order).

(** A call entered at time 50 whose root enumeration times out; the
    handler reads the clock at 100. *)
Definition timed_out_call : Call.t :=
  Call.mk 50 (RootTimesOut 100) Raise frozen_clock [].

(** A call entered at time [now] that finds no window. *)
Definition call_at (now : Z) : Call.t :=
  Call.mk now (RootAnswers (Ok [])) Raise frozen_clock [].

(** An off-screen pane with an on-screen, enabled button below it. *)
Definition inner_button : Control := button "OK" (Rect.mk 10 10 110 40).
Definition hidden_pane : Control :=
  control OtherControl "PaneControl" "pane" "" (Rect.mk 0 0 400 300) true
    [inner_button].
Definition window_with_hidden_pane : Control := window "W" [hidden_pane].

(** A vertically scrollable pane of a window that hangs over the left edge
    of the screen. *)
Definition vertical_scroll : ScrollPattern.t :=
  ScrollPattern.mk (Ok false) (Ok 0) (Ok true) (Ok 40).
Definition overhanging_pane : Control :=
  control_with OtherControl "PaneControl" "pane" "files" (Rect.mk (-100) 0 500 400)
    false "" "explorer.exe" (Some vertical_scroll) false [].
Definition overhanging_window : Control :=
  control_with WindowControl "WindowControl" "window" "Explorer"
    (Rect.mk (-100) 0 500 400) false "" "explorer.exe" None false
    [overhanging_pane].

(** A browser window whose document root scrolls vertically. *)
Definition document_root : Control :=
  control_with OtherControl "DocumentControl" "document" "page"
    (Rect.mk 0 100 1920 1080) false "RootWebArea" "chrome.exe"
    (Some vertical_scroll) false [].


(** A modal, on-screen window control that carries the identity of a
    document root, below a browser window. *)
Definition modal_root : Control :=
  control_with WindowControl "WindowControl" "window" "dialog" full_screen
    false "RootWebArea" "chrome.exe" (Some vertical_scroll) true [].

(** An ordinary modal dialog. *)
Definition modal_dialog : Control :=
  control_with WindowControl "WindowControl" "window" "dialog"
    (Rect.mk 100 100 500 400) false "" "notepad.exe" None true [].

(** An element found earlier in a walk. *)
Definition earlier_element : TreeElementNode.t :=
  TreeElementNode.mk "Save" "Button" (Some "") ""
    (BoundingBox.mk 10 10 110 40 100 30) (Center.mk 60 25) "" "W" false.

(** The control [node] with the answer to [IsEnabled] replaced. *)
Definition with_IsEnabled (answer : exc bool) (node : Control) : Control :=
  mkControl
    {| class_of := class_of node;
       Name := Name node;
       ControlTypeName := ControlTypeName node;
       LocalizedControlType := LocalizedControlType node;
       ClassName := ClassName node;
       AutomationId := AutomationId node;
       AcceleratorKey := AcceleratorKey node;
       IsOffscreen := IsOffscreen node;
       IsEnabled := answer;
       IsKeyboardFocusable := IsKeyboardFocusable node;
       IsControlElement := IsControlElement node;
       HasKeyboardFocus := HasKeyboardFocus node;
       BoundingRectangle := BoundingRectangle node;
       NativeWindowHandle := NativeWindowHandle node;
       ProcessName := ProcessName node;
       GetScrollPattern := GetScrollPattern node;
       GetLegacyIAccessiblePattern := GetLegacyIAccessiblePattern node;
       IsModal := IsModal node |}
    (GetChildren node).

(** A window with an enabled, visible button and an off-screen, disabled
    one. *)
Definition ok_cancel_window : Control :=
  window "Confirm"
    [button "OK" (Rect.mk 10 10 110 40);
     with_IsEnabled (Ok false)
       (control OtherControl "ButtonControl" "button" "Cancel"
          (Rect.mk 120 10 220 40) true [])].


(** The join of one window, walked once so far, with no failure yet. *)
Definition waiting : Join.t :=
  Join.mk tree0 [] [] [] false [] {[ 0%nat := 0%nat ]} [(0%nat, 0%nat)] 0 1 2
    [GetNodesJob 0].

(** A window whose name cannot be read: every job that walks it raises. *)
Definition broken_window : Control :=
  mkControl
    {| class_of := WindowControl;
       Name := Raise;
       ControlTypeName := Ok "WindowControl";
       LocalizedControlType := Ok "window";
       ClassName := Ok "";
       AutomationId := Ok "";
       AcceleratorKey := Ok "";
       IsOffscreen := Ok false;
       IsEnabled := Ok true;
       IsKeyboardFocusable := Ok false;
       IsControlElement := Ok true;
       HasKeyboardFocus := Ok false;
       BoundingRectangle := Ok full_screen;
       NativeWindowHandle := Ok 0;
       ProcessName := Ok "notepad.exe";
       GetScrollPattern := Ok None;
       GetLegacyIAccessiblePattern := Ok no_pattern;
       IsModal := Ok false |}
    (Ok []).

End Examples.

(** ** Concrete desktops *)

Module DesktopExamples.

(** An ordinary overlapped window, with the minimise and the maximise box
    in its style. *)
Definition notepad : Win32.window :=
  Win32.mk 1001 (Ok true) (Ok true) (Ok "  Untitled - Notepad ") (Ok "Notepad")
    (Ok 0x14CF0000) (Ok (Rect.mk 100 100 900 700)) (Ok (1, 4242))
    (Ok false) (Ok false) (Ok 1).

(** A second one, maximised. *)
Definition editor : Win32.window :=
  Win32.mk 1002 (Ok true) (Ok true) (Ok "main.py - Editor") (Ok "EditorWindow")
    (Ok 0x15CF0000) (Ok (Rect.mk 0 0 1920 1040)) (Ok (2, 5151))
    (Ok false) (Ok true) (Ok 3).

(** A tool window: a caption and a system menu, but no boxes. *)
Definition palette : Win32.window :=
  Win32.mk 1003 (Ok true) (Ok true) (Ok "Colours") (Ok "ToolWindow")
    (Ok 0x14C80000) (Ok (Rect.mk 50 50 250 450)) (Ok (2, 5151))
    (Ok false) (Ok false) (Ok 1).

(** The controls that the provider shows for the first two windows and for
    the tool window. *)
Definition control_of (w : Win32.window) (name : string) : Control :=
  mkControl
    {| class_of := WindowControl;
       Name := Ok name;
       ControlTypeName := Ok "WindowControl";
       LocalizedControlType := Ok "window";
       ClassName := Ok "";
       AutomationId := Ok "";
       AcceleratorKey := Ok "";
       IsOffscreen := Ok false;
       IsEnabled := Ok true;
       IsKeyboardFocusable := Ok false;
       IsControlElement := Ok true;
       HasKeyboardFocus := Ok false;
       BoundingRectangle := Ok Examples.full_screen;
       NativeWindowHandle := Ok (Win32.hwnd w);
       ProcessName := Ok "notepad.exe";
       GetScrollPattern := Ok None;
       GetLegacyIAccessiblePattern := Ok Examples.no_pattern;
       IsModal := Ok false |}
    (Ok [Examples.button "OK" (Rect.mk 10 10 110 40)]).

(** No image work. *)
Definition blind : Vision := mkVision unit unit (fun _ _ => tt) (fun image => image).

Definition desktop0 : Desktop.t blind := Desktop.mk Examples.tree0 None.

(** The three windows on the desktop, the first in the foreground; the
    root enumeration of the engine finds a control for each, and every
    window job completes. *)
Definition three_windows : Desktop.world :=
  Desktop.mkWorld [notepad; editor; palette] (Ok notepad)
    (Examples.call
       [control_of notepad "Notepad"; control_of editor "Editor";
        control_of palette "Colours"]
       [(0%nat, control_of notepad "Notepad"); (1%nat, control_of palette "Colours")]).

(** A desktop on which the foreground lock refuses
    [SetForegroundWindow]; window 1001 is in the foreground, on thread 11,
    window 1002 is on thread 22, and the caller runs on thread 7. *)
Definition locked : activation_world :=
  mkActivationWorld (Ok 1001)
    (fun hwnd => if hwnd =? 1001 then Ok 11 else if hwnd =? 1002 then Ok 22 else Raise)
    (Ok 7)
    (fun c => bool_decide (c = SetForegroundWindow 1002))
    true (Ok 1001) (Ok (Rect.mk 0 0 1920 1040)).

End DesktopExamples.

(** * Properties *)

(** ** Geometry *)

Lemma iou_bounding_box_clipped (self : Tree.t) (window_box element_box : Rect.t) :
  clipped_box (Tree.screen_box self) (iou_bounding_box self window_box element_box).
Proof.
  unfold clipped_box, box_ordered, box_dimensions, box_degenerate, box_within,
    iou_bounding_box.
  destruct (_ && _) eqn:Hvalid; simpl.
  - apply andb_true_iff in Hvalid as [Hx Hy].
    apply Z.ltb_lt in Hx, Hy.
    repeat split; try lia.
  - repeat split; intros; try lia; try reflexivity.
Qed.

(** ** Fail-closed reads *)

Section FailClosed.







Variables node' node : Control.
Hypothesis Hdegraded : degraded node' node.








End FailClosed.



(** ** Induction on the provider's tree *)

Lemma Control_ind (P : Control -> Prop) :
  (forall a, P (mkControl a Raise)) ->
  (forall a children, Forall P children -> P (mkControl a (Ok children))) ->
  forall node, P node.
Proof.
  intros Hraise Hchildren. fix IH 1.
  intros [a [children |]]; [apply Hchildren | apply Hraise].
  induction children as [| child rest IHrest]; constructor; [apply IH | exact IHrest].
Qed.

Lemma some_descendant_never (node : Control) :
  some_descendant (fun _ => false) node = false.
Proof.
  induction node as [a | a children IH] using Control_ind; [done |].
  simpl. induction IH as [| child rest Hchild _ IHrest]; [done |].
  simpl. by rewrite Hchild, IHrest.
Qed.

(** ** Reasoning about a walk *)

Section WalkRules.

Variable P : Walk.t -> Prop.

Lemma walk_spec_weaken {A} (m : walk A) (Q Q' : A -> Prop) :
  walk_spec P m Q -> (forall a, Q a -> Q' a) -> walk_spec P m Q'.
Proof. intros Hm HQ w Hw. destruct (Hm w Hw). split; eauto. Qed.

Lemma walk_spec_ret {A} (a : A) (Q : A -> Prop) : Q a -> walk_spec P (mret a) Q.
Proof. intros Ha w Hw. split; [done |]. intros a' [= <-]. done. Qed.

Lemma walk_spec_bind {A B} (m : walk A) (k : A -> walk B) (Q : A -> Prop)
    (R : B -> Prop) :
  walk_spec P m Q -> (forall a, Q a -> walk_spec P (k a) R) ->
  walk_spec P (m ≫= k) R.
Proof.
  intros Hm Hk w Hw. destruct (Hm w Hw) as [Hw' Ha].
  unfold mbind, walk_mbind, walk_bind.
  destruct (m w) as [[a |] w']; simpl in *; [| by split].
  by apply Hk; [apply Ha |].
Qed.

Lemma walk_spec_read {A} (e : exc A) (Q : A -> Prop) :
  (forall a, e = Ok a -> Q a) -> walk_spec P (read e) Q.
Proof. intros He w Hw. by split. Qed.

Lemma walk_spec_update (f : Walk.t -> Walk.t) :
  (forall w, P w -> P (f w)) -> walk_keeps P (update f).
Proof. intros Hf w Hw. split; [by apply Hf | done]. Qed.

Lemma walk_spec_get_self (Q : Tree.t -> Prop) :
  (forall w, P w -> Q (Walk.self w)) -> walk_spec P get_self Q.
Proof. intros HQ w Hw. split; [done |]. intros a [= <-]. by apply HQ. Qed.

Lemma walk_spec_get_dom_bounding_box : walk_keeps P get_dom_bounding_box.
Proof.
  intros w Hw. unfold get_dom_bounding_box.
  by destruct (Tree.dom_bounding_box (Walk.self w)).
Qed.

Lemma walk_spec_pop :
  (forall w, P w -> P (Walk.with_dom_interactive (@removelast _) w)) ->
  walk_keeps P pop_dom_interactive_node.
Proof.
  intros Hpop w Hw. unfold pop_dom_interactive_node.
  destruct (Walk.dom_interactive_nodes w); [done |].
  split; [by apply Hpop | done].
Qed.

Lemma walk_spec_for_each {A} (body : A -> walk unit) (xs : list A) :
  Forall (fun x => walk_keeps P (body x)) xs -> walk_keeps P (for_each body xs).
Proof.
  induction 1 as [| x rest Hx _ IH]; [by apply walk_spec_ret |].
  apply (walk_spec_bind (body x) _ (fun _ => True)); [exact Hx | intros _ _; exact IH].
Qed.

Lemma walk_spec_for_each_reversed {A} (body : A -> walk unit) (xs : list A) :
  Forall (fun x => walk_keeps P (body x)) xs ->
  walk_keeps P (for_each_reversed body xs).
Proof.
  induction 1 as [| x rest Hx _ IH]; [by apply walk_spec_ret |].
  apply (walk_spec_bind (for_each_reversed body rest) _ (fun _ => True));
    [exact IH | intros _ _; exact Hx].
Qed.

End WalkRules.

(** The walk of a window keeps every invariant that the work on one node
    and the meeting of a child keep; [bad] marks children whose meeting
    need not keep it. *)
Section TraversalInvariant.

Variable cfg : Settings.
Variable is_browser : bool.
Variable app_name : string.
Variable window_bounding_box : Rect.t.
Variable P : Walk.t -> Prop.
Variable bad : Control -> bool.

Hypothesis classify_keeps : forall node is_dom,
  walk_keeps P (classify_node cfg is_browser app_name window_bounding_box node is_dom).
Hypothesis enter_keeps : forall child is_dom is_dialog,
  bad child = false ->
  walk_keeps P (enter_child is_browser child is_dom is_dialog).

Lemma tree_traversal_keeps (node : Control) :
  some_descendant bad node = false ->
  forall is_dom is_dialog,
    walk_keeps P (tree_traversal cfg is_browser app_name window_bounding_box
                    node is_dom is_dialog).
Proof.
  induction node as [a | a children IH] using Control_ind;
    intros Hbad is_dom is_dialog; simpl.
  - apply (walk_spec_bind _ _ _ (fun _ => True)); [by apply walk_spec_read |].
    intros [] _; [by apply walk_spec_ret |].
    apply (walk_spec_bind _ _ _ (fun _ => True)); [apply classify_keeps |].
    intros _ _. by apply walk_spec_read.
  - apply (walk_spec_bind _ _ _ (fun _ => True)); [by apply walk_spec_read |].
    intros [] _; [by apply walk_spec_ret |].
    apply (walk_spec_bind _ _ _ (fun _ => True)); [apply classify_keeps |].
    intros _ _.
    assert (Forall (fun child => walk_keeps P
              (flags ← enter_child is_browser child is_dom is_dialog;
               tree_traversal cfg is_browser app_name window_bounding_box
                 child flags.1 flags.2)) children) as Hvisit.
    { simpl in Hbad. clear -IH Hbad enter_keeps.
      induction IH as [| child rest Hchild _ IHrest]; constructor.
      - simpl in Hbad. apply orb_false_iff in Hbad as [Hhere _].
        apply orb_false_iff in Hhere as [Hroot Hbelow].
        apply (walk_spec_bind _ _ _ (fun _ => True)); [by apply enter_keeps |].
        intros flags _. by apply Hchild.
      - apply IHrest. simpl in Hbad. by apply orb_false_iff in Hbad as [_ ?]. }
    destruct is_dom;
      [by apply walk_spec_for_each | by apply walk_spec_for_each_reversed].
Qed.

End TraversalInvariant.

(** ** What a window job keeps

    Throughout a walk the [Tree] object keeps a property [on_self], every
    interactive element has a box with [on_box] and every scrollable
    element one with [on_scroll_box], as soon as clipping yields boxes with
    [on_box] and the provider's rectangles have [on_scroll_box]. *)

Section ElementInvariant.

Variable cfg : Settings.
Variable is_browser : bool.
Variable app_name : string.
Variable window_bounding_box : Rect.t.

Variable on_self : Tree.t -> Prop.
Variables on_box on_scroll_box : BoundingBox.t -> Prop.

Hypothesis clipping_on_box : forall self reference element,
  on_self self -> on_box (iou_bounding_box self reference element).
Hypothesis rectangle_on_scroll_box : forall r : Rect.t,
  on_scroll_box (BoundingBox.mk (Rect.left r) (Rect.top r) (Rect.right r)
                   (Rect.bottom r) (Rect.width r) (Rect.height r)).

#[local] Abbreviation P := (walk_invariant on_self on_box on_scroll_box).

Ltac exc_inversion H :=
  repeat match type of H with
         | (?m ≫= _) = Ok _ =>
             let x := fresh "x" in
             destruct m as [x |]; [cbn [mbind exc_bind Exc.bind] in H | discriminate H]
         | (match ?m with _ => _ end) = Ok _ =>
             destruct m; try discriminate H
         | (if ?b then _ else _) = Ok _ => destruct b
         end.

Lemma interactive_element_box (node : Control) (reference : Rect.t)
    (self : Tree.t) (e : TreeElementNode.t) :
  on_self self ->
  interactive_element app_name node reference self = Ok e ->
  on_box (TreeElementNode.bounding_box e).
Proof.
  intros Hself H. unfold interactive_element in H.
  exc_inversion H. injection H as <-. simpl. by apply clipping_on_box.
Qed.

Lemma scrollable_element_box (node : Control) (e : ScrollElementNode.t) :
  scrollable_element cfg app_name node = Ok e ->
  on_scroll_box (ScrollElementNode.bounding_box e).
Proof.
  intros H. unfold scrollable_element in H.
  exc_inversion H.
  all: injection H as <-; simpl; apply rectangle_on_scroll_box.
Qed.

Lemma keeps_append_interactive (e : TreeElementNode.t) :
  on_box (TreeElementNode.bounding_box e) ->
  walk_keeps P (update (Walk.with_interactive (append e))).
Proof.
  intros He. apply walk_spec_update. intros w (? & ? & ? & ?).
  repeat split; try done. simpl. apply Forall_app. by split; [| constructor].
Qed.

Lemma keeps_append_dom_interactive (e : TreeElementNode.t) :
  on_box (TreeElementNode.bounding_box e) ->
  walk_keeps P (update (Walk.with_dom_interactive (append e))).
Proof.
  intros He. apply walk_spec_update. intros w (? & ? & ? & ?).
  repeat split; try done. simpl. apply Forall_app. by split; [| constructor].
Qed.

Lemma keeps_pop : walk_keeps P pop_dom_interactive_node.
Proof.
  apply walk_spec_pop. intros w (? & ? & Hdom & ?).
  repeat split; try done. simpl.
  revert Hdom. generalize (Walk.dom_interactive_nodes w).
  induction l as [| e [| e' l] IH]; intros Hl; simpl; try done.
  inversion Hl; subst. constructor; [done |]. by apply IH.
Qed.

Lemma keeps_bind {A B} (m : walk A) (k : A -> walk B) :
  walk_keeps P m -> (forall a, walk_keeps P (k a)) -> walk_keeps P (m ≫= k).
Proof.
  intros Hm Hk.
  apply (walk_spec_bind _ _ _ (fun _ => True)); [exact Hm | intros a _; apply Hk].
Qed.

Lemma keeps_read {A} (e : exc A) : walk_keeps P (read e).
Proof. by apply walk_spec_read. Qed.

Lemma keeps_ret {A} (a : A) : walk_keeps P (mret a).
Proof. by apply walk_spec_ret. Qed.

Lemma group_element_box (node child : Control) :
  walk_spec P (group_element app_name node child)
    (fun e => on_box (TreeElementNode.bounding_box e)).
Proof.
  unfold group_element.
  do 3 (apply (walk_spec_bind _ _ _ (fun _ => True)); [by apply walk_spec_read |];
        intros ? _).
  apply (walk_spec_bind _ _ _ (fun _ => True)); [apply walk_spec_get_dom_bounding_box |].
  intros dom_box _.
  apply (walk_spec_bind _ _ _ on_self); [apply walk_spec_get_self; by intros w [? _] |].
  intros self Hself.
  do 4 (apply (walk_spec_bind _ _ _ (fun _ => True)); [by apply walk_spec_read |];
        intros ? _).
  apply walk_spec_ret. simpl. by apply clipping_on_box.
Qed.

Lemma link_element_box (node : Control) :
  walk_spec P (link_element app_name node)
    (fun e => on_box (TreeElementNode.bounding_box e)).
Proof.
  unfold link_element.
  do 3 (apply (walk_spec_bind _ _ _ (fun _ => True)); [by apply walk_spec_read |];
        intros ? _).
  apply (walk_spec_bind _ _ _ (fun _ => True)); [apply walk_spec_get_dom_bounding_box |].
  intros dom_box _.
  apply (walk_spec_bind _ _ _ on_self); [apply walk_spec_get_self; by intros w [? _] |].
  intros self Hself.
  do 3 (apply (walk_spec_bind _ _ _ (fun _ => True)); [by apply walk_spec_read |];
        intros ? _).
  apply walk_spec_ret. simpl. by apply clipping_on_box.
Qed.

Lemma dom_correction_keeps (node : Control) :
  walk_keeps P (dom_correction app_name node).
Proof.
  unfold dom_correction.
  apply keeps_bind; [apply keeps_read |]. intros [|]; [apply keeps_pop |].
  apply keeps_bind; [apply keeps_read |]. intros t.
  destruct (bool_decide (t = "GroupControl")).
  - apply keeps_bind; [apply keeps_pop |]. intros _.
    destruct (is_keyboard_focusable node); [| apply keeps_ret].
    destruct (first_child_chain node) as [child |]; [| apply keeps_ret].
    apply keeps_bind; [apply keeps_read |]. intros ct.
    destruct (bool_decide (ct = "TextControl")); [| apply keeps_ret].
    eapply walk_spec_bind; [apply group_element_box |].
    intros e He. by apply keeps_append_dom_interactive.
  - apply keeps_bind; [apply keeps_read |]. intros [|]; [| apply keeps_ret].
    apply keeps_bind; [apply keeps_pop |]. intros _.
    apply keeps_bind; [apply keeps_read |]. intros [heading |]; [| apply keeps_read].
    eapply walk_spec_bind; [apply link_element_box |].
    intros e He. by apply keeps_append_dom_interactive.
Qed.

Lemma classify_node_keeps (node : Control) (is_dom : bool) :
  walk_keeps P (classify_node cfg is_browser app_name window_bounding_box node is_dom).
Proof.
  unfold classify_node.
  apply keeps_bind.
  { destruct (is_element_scrollable node); [| apply keeps_ret].
    eapply walk_spec_bind.
    - apply walk_spec_read. intros e He. exact (scrollable_element_box node e He).
    - intros e He. apply walk_spec_update. intros w (? & ? & ? & ?).
      repeat split; try done. simpl. apply Forall_app. by split; [| constructor]. }
  intros _.
  destruct (is_element_interactive is_browser node).
  - destruct (is_browser && is_dom).
    + apply keeps_bind; [apply walk_spec_get_dom_bounding_box |]. intros dom_box.
      apply (walk_spec_bind _ _ _ on_self); [apply walk_spec_get_self; by intros w [? _] |].
      intros self Hself.
      eapply walk_spec_bind.
      * apply walk_spec_read. intros e He.
        exact (interactive_element_box node _ self e Hself He).
      * intros e He. apply keeps_bind; [by apply keeps_append_dom_interactive |].
        intros _. apply dom_correction_keeps.
    + apply (walk_spec_bind _ _ _ on_self); [apply walk_spec_get_self; by intros w [? _] |].
      intros self Hself.
      eapply walk_spec_bind.
      * apply walk_spec_read. intros e He.
        exact (interactive_element_box node _ self e Hself He).
      * intros e He. by apply keeps_append_interactive.
  - destruct (is_element_text node); [| apply keeps_ret].
    apply keeps_bind; [apply keeps_read |]. intros name.
    apply walk_spec_update. by intros w (? & ? & ? & ?).
Qed.

(** Meeting a child that is not taken for a document root leaves the
    [Tree] object alone. *)
Lemma enter_child_keeps_plain (child : Control) (is_dom is_dialog : bool) :
  is_browser && is_root_web_area child = false ->
  walk_keeps P (enter_child is_browser child is_dom is_dialog).
Proof.
  intros Hplain. unfold enter_child.
  eapply (walk_spec_bind _ _ _ (fun b => b = false)).
  { apply walk_spec_read. intros b Hb. unfold is_root_web_area in Hplain.
    destruct is_browser; [| by injection Hb].
    destruct (AutomationId child) as [a |]; [| done].
    simpl in Hb, Hplain. injection Hb as <-. done. }
  intros ? ->.
  destruct (class_of child); try apply keeps_ret.
  apply keeps_bind; [apply keeps_read |]. intros offscreen.
  apply keeps_bind; [| intros _; apply keeps_ret].
  destruct offscreen; [apply keeps_ret |].
  destruct is_dom.
  - apply keeps_bind; [apply keeps_read |]. intros box.
    apply keeps_bind; [apply walk_spec_get_dom_bounding_box |]. intros dom_box.
    destruct (_ <? _); [| apply keeps_ret].
    apply walk_spec_update. intros w (? & ? & ? & ?). repeat split; try done; constructor.
  - destruct (is_window_modal child); [| apply keeps_ret].
    apply walk_spec_update. intros w (? & ? & ? & ?). repeat split; try done; constructor.
Qed.

(** Meeting a document root writes the two document fields of the [Tree]
    object, so [on_self] must not depend on them. *)
Hypothesis on_self_set_dom_bounding_box : forall self box,
  on_self self -> on_self (Tree.set_dom_bounding_box self box).
Hypothesis on_self_set_dom_info : forall self info,
  on_self self -> on_self (Tree.set_dom_info self info).

Lemma enter_child_keeps (child : Control) (is_dom is_dialog : bool) :
  walk_keeps P (enter_child is_browser child is_dom is_dialog).
Proof.
  destruct (is_browser && is_root_web_area child) eqn:Hroot;
    [| by apply enter_child_keeps_plain].
  unfold enter_child.
  apply keeps_bind; [apply keeps_read |]. intros [|].
  - apply keeps_bind; [apply keeps_read |]. intros box.
    apply keeps_bind.
    { apply walk_spec_update. intros w (? & ? & ? & ?). repeat split; try done.
      by apply on_self_set_dom_bounding_box. }
    intros _. apply keeps_bind; [apply keeps_read |].
    intros [scroll_pattern |]; [| apply keeps_read].
    do 4 (apply keeps_bind; [apply keeps_read |]; intros ?).
    apply keeps_bind; [| intros _; apply keeps_ret].
    apply walk_spec_update. intros w (? & ? & ? & ?). repeat split; try done.
    by apply on_self_set_dom_info.
  - destruct (class_of child); try apply keeps_ret.
    apply keeps_bind; [apply keeps_read |]. intros offscreen.
    apply keeps_bind; [| intros _; apply keeps_ret].
    destruct offscreen; [apply keeps_ret |].
    destruct is_dom.
    + apply keeps_bind; [apply keeps_read |]. intros box.
      apply keeps_bind; [apply walk_spec_get_dom_bounding_box |]. intros dom_box.
      destruct (_ <? _); [| apply keeps_ret].
      apply walk_spec_update. intros w (? & ? & ? & ?). repeat split; try done; constructor.
    + destruct (is_window_modal child); [| apply keeps_ret].
      apply walk_spec_update. intros w (? & ? & ? & ?). repeat split; try done; constructor.
Qed.

End ElementInvariant.

(** ** What the join keeps *)

Section JoinInvariant.

Variable cfg : Settings.
Variable use_dom : bool.
Variable clock : nat -> Z.

(** An invariant [J] of the join state, kept by the handling of one
    completed future as long as the job walked a view with [good]. *)
Variable J : Join.t -> Prop.
Variable good : Control -> Prop.

Hypothesis on_completed_keeps : forall deadline future view st,
  good view -> J st -> J (on_completed cfg use_dom clock deadline future view st).
Hypothesis mark_partial_keeps : forall w st, J st -> J (mark_partial w st).
Hypothesis monotonic_keeps : forall st, J st -> J (monotonic clock st).2.
Hypothesis submit_keeps : forall app st, J st -> J (submit app st).

Lemma loop_head_keeps (deadline : Z) (st : Join.t) :
  J st -> J (loop_head cfg use_dom clock deadline st).2.
Proof.
  intros Hst. unfold loop_head.
  destruct (Join.future_to_app st); [done |].
  pose proof (monotonic_keeps st Hst) as Hread.
  destruct (monotonic clock st) as [now st']. simpl in Hread.
  destruct (_ <=? 0); simpl; [by apply mark_partial_keeps | done].
Qed.

Lemma join_keeps (deadline : Z) (schedule : list event) :
  Forall (good_event good) schedule ->
  forall pending st, J st -> J (join cfg use_dom clock deadline schedule pending st).
Proof.
  induction 1 as [| e rest He _ IH]; intros pending st Hst; simpl.
  - by apply mark_partial_keeps.
  - destruct e as [future view |]; [| by apply mark_partial_keeps].
    destruct (bool_decide (future ∈ pending)); [| by apply IH].
    pose proof (on_completed_keeps deadline future view st He Hst) as Hdone.
    destruct (filter _ pending); [| by apply IH].
    pose proof (loop_head_keeps deadline _ Hdone) as Hhead.
    destruct (loop_head _ _ _ _ _) as [[pending' |] st']; simpl in Hhead;
      [by apply IH | done].
Qed.

Lemma submit_all_keeps (apps : list nat) (st : Join.t) :
  J st -> J (foldl (fun st app => submit app st) st apps).
Proof.
  revert st. induction apps as [| app rest IH]; intros st Hst; simpl; [done |].
  apply IH. by apply submit_keeps.
Qed.

Lemma get_appwise_nodes_keeps (apps : list Control) (schedule : list event)
    (self : Tree.t) (submitted : list job) :
  Forall (good_event good) schedule ->
  (forall retry_counts, J (Join.mk self [] [] [] false [] retry_counts [] 0 0 1 submitted)) ->
  J (get_appwise_nodes cfg use_dom clock apps schedule self submitted).
Proof.
  intros Hgood Hstart. unfold get_appwise_nodes.
  match goal with
  | |- context [loop_head _ _ _ ?d ?st] =>
      assert (J st) as Hst by (apply submit_all_keeps, Hstart);
      pose proof (loop_head_keeps d st Hst) as Hhead;
      destruct (loop_head cfg use_dom clock d st) as [[pending |] st']
  end; simpl in Hhead; [by apply join_keeps | done].
Qed.

End JoinInvariant.

(** The box invariant of the jobs, lifted to the join. *)
Section JobInvariant.

Variable cfg : Settings.
Variable on_self : Tree.t -> Prop.
Variables on_box on_scroll_box : BoundingBox.t -> Prop.

Hypothesis clipping_on_box : forall self reference element,
  on_self self -> on_box (iou_bounding_box self reference element).
Hypothesis rectangle_on_scroll_box : forall r : Rect.t,
  on_scroll_box (BoundingBox.mk (Rect.left r) (Rect.top r) (Rect.right r)
                   (Rect.bottom r) (Rect.width r) (Rect.height r)).

#[local] Abbreviation job_keeps := (job_keeps cfg on_self on_box on_scroll_box).

Lemma get_nodes_from_traversal (view : Control) (use_dom : bool) :
  (forall app_name window_bounding_box,
     walk_keeps (walk_invariant on_self on_box on_scroll_box)
       (tree_traversal cfg (try_false (is_app_browser cfg view)) app_name
          window_bounding_box view false false)) ->
  job_keeps view use_dom.
Proof.
  intros Hwalk self Hself. unfold get_nodes.
  destruct (BoundingRectangle view) as [window_bounding_box |]; [| done].
  destruct (Name view) as [name |]; [| done].
  destruct (ClassName view) as [class_name |]; [| done].
  match goal with
  | |- context [tree_traversal _ _ ?app_name _ _ _ _ _] =>
      destruct (Hwalk app_name window_bounding_box (Walk.start self))
        as [(Hself' & Hi & Hd & Hs) _]; [by repeat split; try constructor |];
      destruct (tree_traversal cfg _ app_name window_bounding_box view false false
                  (Walk.start self)) as [[[] |] w]
  end; simpl in *; [| done].
  split; [done |]. intros result [= <-].
  destruct use_dom; [destruct (try_false _) |]; split; simpl;
    try done; try constructor.
  by apply Forall_app.
Qed.

(** A job whose window cannot show a document root keeps any [on_self]. *)
Lemma get_nodes_keeps_plain (view : Control) (use_dom : bool) :
  may_meet_document_root cfg view = false -> job_keeps view use_dom.
Proof.
  intros Hplain. apply get_nodes_from_traversal. intros app_name window_bounding_box.
  apply tree_traversal_keeps
    with (bad := fun child => try_false (is_app_browser cfg view) && is_root_web_area child).
  - intros. by apply classify_node_keeps.
  - intros. by apply enter_child_keeps_plain.
  - unfold may_meet_document_root, has_root_web_area in Hplain.
    destruct (try_false (is_app_browser cfg view)); simpl in *.
    + exact Hplain.
    + apply some_descendant_never.
Qed.

Lemma get_nodes_keeps (view : Control) (use_dom : bool) :
  (forall self box, on_self self -> on_self (Tree.set_dom_bounding_box self box)) ->
  (forall self info, on_self self -> on_self (Tree.set_dom_info self info)) ->
  job_keeps view use_dom.
Proof.
  intros Hbox Hinfo. apply get_nodes_from_traversal. intros app_name window_bounding_box.
  apply tree_traversal_keeps with (bad := fun _ => false).
  - intros. by apply classify_node_keeps.
  - intros. by apply enter_child_keeps.
  - apply some_descendant_never.
Qed.

Lemma on_completed_keeps_boxes (use_dom : bool) (clock : nat -> Z) (deadline : Z)
    (future : nat) (view : Control) (st : Join.t) :
  job_keeps view use_dom ->
  join_invariant on_self on_box on_scroll_box st ->
  join_invariant on_self on_box on_scroll_box
    (on_completed cfg use_dom clock deadline future view st).
Proof.
  intros Hjob (Hself & Hi & Hs). unfold on_completed.
  destruct (app_of future st) as [app |]; [| done].
  simpl. destruct (Hjob (Join.self st) Hself) as [Hself' Hresult].
  destruct (get_nodes cfg view None use_dom (Join.self st)) as [[result |] self'];
    simpl in *.
  - destruct (Hresult result eq_refl) as [Hri Hrs].
    destruct result as [[elements scrolls] texts]. simpl in *.
    repeat split; simpl; try done; by apply Forall_app.
  - destruct (_ <? THREAD_MAX_RETRIES)%nat; [| done].
    simpl. by destruct (0 <? _).
Qed.

Lemma get_appwise_nodes_keeps_boxes (use_dom : bool) (clock : nat -> Z)
    (apps : list Control) (schedule : list event) (self : Tree.t)
    (submitted : list job) :
  Forall (good_event (fun view => job_keeps view use_dom)) schedule ->
  on_self self ->
  join_invariant on_self on_box on_scroll_box
    (get_appwise_nodes cfg use_dom clock apps schedule self submitted).
Proof.
  intros Hgood Hself.
  apply get_appwise_nodes_keeps with (good := fun view => job_keeps view use_dom);
    try done.
  intros. by apply on_completed_keeps_boxes.
Qed.

End JobInvariant.

(** ** The loops over the children *)

Lemma for_each_app {A} (body : A -> walk unit) (xs ys : list A) (w : Walk.t) :
  for_each body (xs ++ ys) w =
  walk_bind (for_each body xs) (fun _ => for_each body ys) w.
Proof.
  revert w. induction xs as [| x rest IH]; intros w; simpl.
  - unfold walk_bind, walk_ret. by destruct (for_each body ys w).
  - unfold walk_bind in *. destruct (body x w) as [[[] |] w1]; [apply IH | done].
Qed.

(** The loop written by recursion on the list visits it as the source
    does: [for child in children[::-1]]. *)
Lemma for_each_reversed_rev {A} (body : A -> walk unit) (xs : list A) (w : Walk.t) :
  for_each_reversed body xs w = for_each body (rev xs) w.
Proof.
  revert w. induction xs as [| x rest IH]; intros w; simpl; [done |].
  rewrite for_each_app. unfold walk_bind. rewrite IH.
  destruct (for_each body (rev rest) w) as [[[] |] w1]; [| done].
  simpl. unfold walk_bind, walk_ret. by destruct (body x w1) as [[[] |] w2].
Qed.

(** ** The engine at work *)

(** An enabled, visible button next to an off-screen, disabled one: the
    window yields the first alone. *)
Example ok_cancel_scenario :
  (fun result : window_result => TreeElementNode.name <$> result.1.1)
    <$> (get_nodes Examples.settings Examples.ok_cancel_window None false
           Examples.tree0).1
  = Ok ["OK"].
Proof. vm_compute. reflexivity. Qed.

(** Outside a document the children are visited last to first. *)
Example reverse_sibling_order :
  (fun result : window_result => TreeElementNode.name <$> result.1.1)
    <$> (get_nodes Examples.settings
           (Examples.window "W"
              [Examples.button "first" (Rect.mk 10 10 110 40);
               Examples.button "second" (Rect.mk 10 50 110 80)])
           None false Examples.tree0).1
  = Ok ["second"; "first"].
Proof. vm_compute. reflexivity. Qed.

(** Document mode against a window that is no browser yields three empty
    lists. *)
Example document_mode_without_browser :
  (get_nodes Examples.settings Examples.window_a None true Examples.tree0).1
  = Ok ([], [], []).
Proof. vm_compute. reflexivity. Qed.

(** Two buttons are found before a modal dialog is met: the window ends
    with no interactive element. *)
Example modal_scenario :
  (get_nodes Examples.settings
     (Examples.window "W"
        [Examples.modal_dialog;
         Examples.button "first" (Rect.mk 10 10 110 40);
         Examples.button "second" (Rect.mk 10 50 110 80)])
     None false Examples.tree0).1
  = Ok ([], [], []).
Proof. vm_compute. reflexivity. Qed.

(** The string methods. *)
Example strip_title_capitalize :
  PyStr.strip "  Save as  " = "Save as" /\
  PyStr.title "double click" = "Double Click" /\
  PyStr.capitalize "pANE" = "Pane".
Proof. repeat split. Qed.

(** ** The walk, equation by equation *)

Section WalkEquations.

Variable cfg : Settings.
Variable is_browser : bool.
Variable app_name : string.
Variable window_bounding_box : Rect.t.

(** [tree_traversal] in terms of the body of its loop. *)
Lemma tree_traversal_unfold (node : Control) (is_dom is_dialog : bool) (w : Walk.t) :
  tree_traversal cfg is_browser app_name window_bounding_box node is_dom is_dialog w =
  (skip ← read (skip_rule node);
   if (skip : bool) then mret tt
   else
     classify_node cfg is_browser app_name window_bounding_box node is_dom;;
     children ← read (GetChildren node);
     let visit :=
       visit_child cfg is_browser app_name window_bounding_box is_dom is_dialog in
     if is_dom then for_each visit children else for_each_reversed visit children) w.
Proof.
  destruct node as [a [children |]]; simpl; unfold mbind, walk_mbind, walk_bind;
    destruct (read _ w) as [[[|] |] w1]; try reflexivity;
    destruct (classify_node _ _ _ _ _ _ w1) as [[[] |] w2]; try reflexivity;
    simpl; by destruct is_dom.
Qed.

(** A node that the skip rule matches is left out with everything below
    it: the walk returns at once and the buffers stay as they were. *)
Lemma tree_traversal_skipped (node : Control) (is_dom is_dialog : bool) (w : Walk.t) :
  skip_rule node = Ok true ->
  tree_traversal cfg is_browser app_name window_bounding_box node is_dom is_dialog w
  = (Ok tt, w).
Proof.
  intros Hskip. rewrite tree_traversal_unfold.
  unfold mbind, walk_mbind, walk_bind, read. by rewrite Hskip.
Qed.

(** Meeting an on-screen window control that is not taken for a document
    root, outside a document: the interactive elements found so far are
    dropped when the window says it is modal, and the walk enters it. *)
Lemma enter_window_normal (child : Control) (is_dialog : bool) (w : Walk.t) :
  class_of child = WindowControl ->
  IsOffscreen child = Ok false ->
  (is_browser = false \/
   exists a, AutomationId child = Ok a /\ a <> "RootWebArea") ->
  enter_child is_browser child false is_dialog w =
  (Ok (false, true),
   if is_window_modal child then Walk.with_interactive clear w else w).
Proof.
  intros Hclass Hoff Hplain. unfold enter_child.
  assert ((if is_browser
           then mbind (M := exc) (fun a => Ok (bool_decide (a = "RootWebArea")))
                  (AutomationId child)
           else Ok false) = Ok false) as ->.
  { destruct Hplain as [-> | (a & -> & Ha)]; [done |].
    destruct is_browser; [| done]. simpl. by rewrite bool_decide_eq_false_2. }
  unfold mbind, walk_mbind, walk_bind, read.
  rewrite Hclass, Hoff. by destruct (is_window_modal child).
Qed.

(** The same inside a document: the document's interactive elements found
    so far are dropped when the window is wider than 80% of the viewport. *)
Lemma enter_window_dom (child : Control) (is_dialog : bool) (w : Walk.t)
    (box : Rect.t) (viewport : BoundingBox.t) :
  class_of child = WindowControl ->
  IsOffscreen child = Ok false ->
  (is_browser = false \/
   exists a, AutomationId child = Ok a /\ a <> "RootWebArea") ->
  BoundingRectangle child = Ok box ->
  Tree.dom_bounding_box (Walk.self w) = Some viewport ->
  enter_child is_browser child true is_dialog w =
  (Ok (true, true),
   if 8 * BoundingBox.width viewport <? 10 * Rect.width box
   then Walk.with_dom_interactive clear w else w).
Proof.
  intros Hclass Hoff Hplain Hbox Hviewport. unfold enter_child.
  assert ((if is_browser
           then mbind (M := exc) (fun a => Ok (bool_decide (a = "RootWebArea")))
                  (AutomationId child)
           else Ok false) = Ok false) as ->.
  { destruct Hplain as [-> | (a & -> & Ha)]; [done |].
    destruct is_browser; [| done]. simpl. by rewrite bool_decide_eq_false_2. }
  unfold mbind, walk_mbind, walk_bind, read, get_dom_bounding_box.
  rewrite Hclass, Hoff, Hbox, Hviewport. by destruct (_ <? _).
Qed.

End WalkEquations.

(** ** The shape of a call *)

(** A call that the breaker does not stop hands the root enumeration to the
    pool, settles the windows to walk, and returns what the join returns.
    The root enumeration marks the result partial exactly when it records a
    warning, and it alone touches the breaker, when it times out. *)
Lemma get_state_open (cfg : Settings) (self : Tree.t) (active_app : option App)
    (other_apps : list App) (use_dom : bool) (env : Call.t) :
  Tree._uia_disabled_until self <= Call.now env ->
  exists apps root_partial root_warnings self1 submitted1,
    let st := get_appwise_nodes cfg use_dom (Call.clock env) apps
                (Call.schedule env) self1 submitted1 in
    get_state cfg self active_app other_apps use_dom env =
      (TreeState.mk (Tree.dom_info (Join.self st)) (Join.interactive_nodes st)
         (Join.scrollable_nodes st) (Join.dom_informative_nodes st)
         (Join.is_partial st || root_partial) (Join.warnings st ++ root_warnings),
       Join.self st, Join.submitted st) /\
    (root_partial = true <-> root_warnings <> []) /\
    head submitted1 = Some CollectTargetsJob /\
    Tree.screen_box self1 = Tree.screen_box self /\
    Tree.dom_info self1 = Tree.dom_info self /\
    Tree.dom_bounding_box self1 = Tree.dom_bounding_box self /\
    match Call.root env with
    | RootTimesOut now =>
        Tree._uia_disabled_until self1 =
          Z.max (Tree._uia_disabled_until self) (now + UIA_TIMEOUT_COOLDOWN_S cfg)
    | RootAnswers _ => Tree._uia_disabled_until self1 = Tree._uia_disabled_until self
    end.
Proof.
  intros Hclosed. unfold get_state.
  assert ((Call.now env <? Tree._uia_disabled_until self) = false) as ->
    by (apply Z.ltb_ge; lia).
  destruct (Call.root env) as [children | now].
  - destruct (children ≫= collect_targets cfg active_app (handle <$> other_apps))
      as [[| target targets] |].
    + destruct active_app as [app |].
      * destruct (bool_decide (handle app ≠ 0)).
        -- destruct (Call.active_window env) as [control |].
           ++ by eexists [control], false, [], self, _.
           ++ by eexists [], true, [ActiveLookupFailedWarning], self, _.
        -- by eexists [], false, [], self, _.
      * by eexists [], false, [], self, _.
    + destruct active_app as [app |];
        by eexists (target :: targets), false, [], self, _.
    + destruct active_app as [app |].
      * destruct (bool_decide (handle app ≠ 0)).
        -- destruct (Call.active_window env) as [control |].
           ++ by eexists [control], true, [RootEnumFailedWarning], self, _.
           ++ by eexists [], true, [RootEnumFailedWarning; ActiveLookupFailedWarning],
                self, _.
        -- by eexists [], true, [RootEnumFailedWarning], self, _.
      * by eexists [], true, [RootEnumFailedWarning], self, _.
  - destruct active_app as [app |].
    + destruct (bool_decide (handle app ≠ 0)).
      * destruct (Call.active_window env) as [control |].
        -- by eexists [control], true, [_], (Tree.set_uia_disabled_until self _), _.
        -- by eexists [], true, [_; _], (Tree.set_uia_disabled_until self _), _.
      * by eexists [], true, [_], (Tree.set_uia_disabled_until self _), _.
    + by eexists [], true, [_], (Tree.set_uia_disabled_until self _), _.
Qed.

(** A call that the breaker stops. *)
Lemma get_state_short_circuit (cfg : Settings) (self : Tree.t)
    (active_app : option App) (other_apps : list App) (use_dom : bool)
    (env : Call.t) :
  Call.now env < Tree._uia_disabled_until self ->
  get_state cfg self active_app other_apps use_dom env =
  (TreeState.mk None [] [] [] true
     [UiaDisabledWarning (Tree._uia_disabled_until self - Call.now env)],
   self, []).
Proof.
  intros Hopen. unfold get_state.
  by assert ((Call.now env <? Tree._uia_disabled_until self) = true) as ->
    by (apply Z.ltb_lt; lia).
Qed.

(** ** The skip rule *)

(** C2, as the code has it: a node that the skip rule matches is left out
    together with its whole subtree.  The walk returns at the node without
    reading its children, so no descendant is visited or classified through
    it and every buffer stays as it was.  Only a node that the rule lets
    through is classified and has its children visited, last to first
    outside a document and first to last inside one. *)
Theorem C2_skip_rule_prunes_subtree (cfg : Settings) (is_browser : bool)
    (app_name : string) (window_bounding_box : Rect.t) (node : Control)
    (is_dom is_dialog : bool) (w : Walk.t) :
  (skip_rule node = Ok true ->
   tree_traversal cfg is_browser app_name window_bounding_box node is_dom is_dialog w
     = (Ok tt, w)) /\
  (skip_rule node = Ok false ->
   tree_traversal cfg is_browser app_name window_bounding_box node is_dom is_dialog w
     = (classify_node cfg is_browser app_name window_bounding_box node is_dom;;
        children ← read (GetChildren node);
        for_each
          (visit_child cfg is_browser app_name window_bounding_box is_dom is_dialog)
          (if is_dom then children else rev children)) w).
Proof.
  split; intros Hskip.
  - by apply tree_traversal_skipped.
  - rewrite tree_traversal_unfold.
    unfold mbind, walk_mbind, walk_bind, read. rewrite Hskip.
    destruct (classify_node _ _ _ _ _ _ w) as [[[] |] w1]; [| done].
    destruct (GetChildren node) as [children |]; [| done].
    destruct is_dom; [done | apply for_each_reversed_rev].
Qed.

Lemma C2_skip_rule_prunes_subtree_witness :
  skip_rule Examples.hidden_pane = Ok true /\
  tree_traversal Examples.settings false "W" Examples.full_screen
    Examples.hidden_pane false false (Walk.start Examples.tree0)
    = (Ok tt, Walk.start Examples.tree0).
Proof.
  split; [reflexivity |].
  apply (C2_skip_rule_prunes_subtree Examples.settings false "W"
           Examples.full_screen Examples.hidden_pane false false
           (Walk.start Examples.tree0)).
  reflexivity.
Defined.

(** C2 as stated fails: below the off-screen pane, which the skip rule
    matches, there is an on-screen, enabled button that the classifier
    calls interactive and the skip rule lets through, and yet the walk of
    the window returns no element. *)
Lemma C2_descendants_of_skipped_node_not_classified :
  skip_rule Examples.hidden_pane = Ok true /\
  GetChildren Examples.hidden_pane = Ok [Examples.inner_button] /\
  skip_rule Examples.inner_button = Ok false /\
  is_element_interactive false Examples.inner_button = true /\
  (get_nodes Examples.settings Examples.window_with_hidden_pane None false
     Examples.tree0).1 = Ok ([], [], []).
Proof. repeat split; vm_compute; reflexivity. Qed.

(** ** The dialog rule *)

(** C8, as the code has it: for an on-screen window-type child that is not
    taken for the root of a browser document (the document-root branch
    comes first in the source), the body of the child loop clears the
    interactive results when the child says it is modal (outside a
    document), or the document's interactive results when the child is
    wider than 80% of the viewport (inside one), and in either case goes on
    to walk the child, whatever was decided. *)
Theorem C8_window_child_rule (cfg : Settings) (is_browser : bool)
    (app_name : string) (window_bounding_box : Rect.t) (child : Control)
    (is_dialog : bool) (w : Walk.t) :
  class_of child = WindowControl ->
  IsOffscreen child = Ok false ->
  (is_browser = false \/ exists a, AutomationId child = Ok a /\ a <> "RootWebArea") ->
  visit_child cfg is_browser app_name window_bounding_box false is_dialog child w =
    tree_traversal cfg is_browser app_name window_bounding_box child false true
      (if is_window_modal child then Walk.with_interactive clear w else w)
  /\
  forall box viewport,
    BoundingRectangle child = Ok box ->
    Tree.dom_bounding_box (Walk.self w) = Some viewport ->
    visit_child cfg is_browser app_name window_bounding_box true is_dialog child w =
      tree_traversal cfg is_browser app_name window_bounding_box child true true
        (if 8 * BoundingBox.width viewport <? 10 * Rect.width box
         then Walk.with_dom_interactive clear w else w).
Proof.
  intros Hclass Hoff Hplain. split.
  - unfold visit_child, mbind, walk_mbind, walk_bind.
    by rewrite (enter_window_normal is_browser child is_dialog w Hclass Hoff Hplain).
  - intros box viewport Hbox Hviewport.
    unfold visit_child, mbind, walk_mbind, walk_bind.
    by rewrite (enter_window_dom is_browser child is_dialog w box viewport
                  Hclass Hoff Hplain Hbox Hviewport).
Qed.

Lemma C8_window_child_rule_witness :
  let w := Walk.with_interactive (append Examples.earlier_element)
             (Walk.start Examples.tree0) in
  is_window_modal Examples.modal_dialog = true /\
  Walk.interactive_nodes (Walk.with_interactive clear w) = [] /\
  visit_child Examples.settings false "W" Examples.full_screen false false
    Examples.modal_dialog w =
  tree_traversal Examples.settings false "W" Examples.full_screen
    Examples.modal_dialog false true (Walk.with_interactive clear w).
Proof.
  split; [reflexivity |]. split; [reflexivity |].
  apply (C8_window_child_rule Examples.settings false "W" Examples.full_screen
           Examples.modal_dialog false
           (Walk.with_interactive (append Examples.earlier_element)
              (Walk.start Examples.tree0))).
  - reflexivity.
  - reflexivity.
  - left. reflexivity.
Defined.

(** C8 as stated fails: below a browser window, outside a document, an
    on-screen window control that says it is modal but carries the identity
    of a document root is handled by the document-root branch, and the
    interactive element found before it is kept. *)
Lemma C8_modal_document_root_keeps_results :
  let w := Walk.with_interactive (append Examples.earlier_element)
             (Walk.start Examples.tree0) in
  class_of Examples.modal_root = WindowControl /\
  IsOffscreen Examples.modal_root = Ok false /\
  is_window_modal Examples.modal_root = true /\
  (enter_child true Examples.modal_root false false w).1 = Ok (true, false) /\
  Walk.interactive_nodes (enter_child true Examples.modal_root false false w).2
    = [Examples.earlier_element].
Proof. repeat split; vm_compute; reflexivity. Qed.

(** ** Bounding boxes of a snapshot *)

(** C6, as the code has it: every interactive element of a returned
    snapshot has a clipped box (ordered edges, width and height equal to
    the differences of the edges, all-zero when it has no area, inside the
    screen rectangle otherwise); a scrollable element carries the
    provider's rectangle as it is, of which only width [= right - left] and
    height [= bottom - top] hold. *)
Theorem C6_snapshot_bounding_boxes (cfg : Settings) (self : Tree.t)
    (active_app : option App) (other_apps : list App) (use_dom : bool)
    (env : Call.t) :
  Forall (fun e => clipped_box (Tree.screen_box self) (TreeElementNode.bounding_box e))
    (TreeState.interactive_nodes
       (get_state cfg self active_app other_apps use_dom env).1.1) /\
  Forall (fun e => box_dimensions (ScrollElementNode.bounding_box e))
    (TreeState.scrollable_nodes
       (get_state cfg self active_app other_apps use_dom env).1.1).
Proof.
  destruct (Z.lt_ge_cases (Call.now env) (Tree._uia_disabled_until self)) as [Hopen | Hclosed].
  - rewrite get_state_short_circuit by done. by split; constructor.
  - destruct (get_state_open cfg self active_app other_apps use_dom env Hclosed)
      as (apps & root_partial & root_warnings & self1 & submitted1 & Hcall & _ & _
          & Hscreen & _).
    simpl in Hcall. rewrite Hcall. simpl.
    assert (forall s reference element,
              Tree.screen_box s = Tree.screen_box self ->
              clipped_box (Tree.screen_box self) (iou_bounding_box s reference element))
      as Hclip by (intros s reference element <-; apply iou_bounding_box_clipped).
    assert (forall r : Rect.t,
              box_dimensions (BoundingBox.mk (Rect.left r) (Rect.top r) (Rect.right r)
                                (Rect.bottom r) (Rect.width r) (Rect.height r)))
      as Hraw by (by intros []).
    destruct (get_appwise_nodes_keeps_boxes cfg
                (fun s => Tree.screen_box s = Tree.screen_box self)
                (clipped_box (Tree.screen_box self)) box_dimensions
                use_dom (Call.clock env) apps (Call.schedule env) self1 submitted1)
      as (_ & Hinteractive & Hscroll); [| done | done].
    apply Forall_true. intros [future view |]; [| done]. simpl.
    by apply get_nodes_keeps.
Qed.

(** C6 as stated fails for scrollable elements: the pane of a window that
    hangs over the left edge of the screen is on-screen and scrolls, and
    the snapshot lists it with the box the provider gave, which has an area
    and starts left of the screen. *)
Lemma C6_scrollable_box_leaves_screen :
  exists e,
    TreeState.scrollable_nodes
      (get_state Examples.settings Examples.tree0 None [] false
         (Examples.call [Examples.overhanging_window]
            [(0%nat, Examples.overhanging_window)])).1.1 = [e] /\
    ~ box_degenerate (ScrollElementNode.bounding_box e) /\
    ~ box_within (Tree.screen_box Examples.tree0) (ScrollElementNode.bounding_box e) /\
    ~ clipped_box (Tree.screen_box Examples.tree0) (ScrollElementNode.bounding_box e).
Proof.
  eexists. split; [vm_compute; reflexivity |].
  assert (~ box_degenerate
            (BoundingBox.mk (-100) 0 500 400 600 400)) as Harea
    by (unfold box_degenerate; simpl; lia).
  assert (~ box_within (Tree.screen_box Examples.tree0)
            (BoundingBox.mk (-100) 0 500 400 600 400)) as Hout
    by (unfold box_within; simpl; lia).
  repeat split; try done.
  intros (_ & _ & _ & Hwithin). by apply Hout, Hwithin.
Qed.

(** ** What persists between calls *)




(** ** The breaker *)

(** The window jobs and the join never write the breaker timestamp. *)
Lemma get_appwise_nodes_keeps_breaker (cfg : Settings) (use_dom : bool)
    (clock : nat -> Z) (apps : list Control) (schedule : list event)
    (self : Tree.t) (submitted : list job) :
  Tree._uia_disabled_until
    (Join.self (get_appwise_nodes cfg use_dom clock apps schedule self submitted))
  = Tree._uia_disabled_until self.
Proof.
  destruct (get_appwise_nodes_keeps_boxes cfg
              (fun s => Tree._uia_disabled_until s = Tree._uia_disabled_until self)
              (fun _ => True) (fun _ => True)
              use_dom clock apps schedule self submitted) as (Hself & _); try done.
  apply Forall_true. intros [future view |]; [| done]. simpl.
  by apply get_nodes_keeps.
Qed.

(** What has been handed to the pool stays first in the list of jobs. *)
Lemma get_appwise_nodes_keeps_first_job (cfg : Settings) (use_dom : bool)
    (clock : nat -> Z) (apps : list Control) (schedule : list event)
    (self : Tree.t) (submitted : list job) (first : job) :
  head submitted = Some first ->
  head (Join.submitted (get_appwise_nodes cfg use_dom clock apps schedule self submitted))
  = Some first.
Proof.
  intros Hfirst.
  apply (get_appwise_nodes_keeps cfg use_dom clock
           (fun st => head (Join.submitted st) = Some first) (fun _ => True));
    try done.
  - intros deadline future view st _ Hst. unfold on_completed.
    destruct (app_of future st) as [app |]; [| done]. simpl.
    destruct (get_nodes _ _ _ _ _) as [[[[elements scrolls] texts] |] self'];
      simpl; [done |].
    destruct (_ <? THREAD_MAX_RETRIES)%nat; [| done]. simpl.
    destruct (0 <? _); simpl; [| done].
    destruct (Join.submitted st); [done | by simpl in *].
  - intros app st Hst. simpl.
    destruct (Join.submitted st); [done | by simpl in *].
  - by apply Forall_true; intros [].
Qed.

(** The breaker timestamp after a call that the breaker does not stop. *)
Lemma get_state_breaker (cfg : Settings) (self : Tree.t) (active_app : option App)
    (other_apps : list App) (use_dom : bool) (env : Call.t) :
  Tree._uia_disabled_until self <= Call.now env ->
  Tree._uia_disabled_until (get_state cfg self active_app other_apps use_dom env).1.2 =
  match Call.root env with
  | RootTimesOut now =>
      Z.max (Tree._uia_disabled_until self) (now + UIA_TIMEOUT_COOLDOWN_S cfg)
  | RootAnswers _ => Tree._uia_disabled_until self
  end.
Proof.
  intros Hclosed.
  destruct (get_state_open cfg self active_app other_apps use_dom env Hclosed)
    as (apps & root_partial & root_warnings & self1 & submitted1 & Hcall & _ & _
        & _ & _ & _ & Hbreaker).
  simpl in Hcall. rewrite Hcall. simpl.
  rewrite get_appwise_nodes_keeps_breaker.
  by destruct (Call.root env).
Qed.

(** A call that the breaker does not stop attempts the root enumeration. *)
Lemma get_state_attempts_root_enumeration (cfg : Settings) (self : Tree.t)
    (active_app : option App) (other_apps : list App) (use_dom : bool)
    (env : Call.t) :
  Tree._uia_disabled_until self <= Call.now env ->
  head (get_state cfg self active_app other_apps use_dom env).2
  = Some CollectTargetsJob.
Proof.
  intros Hclosed.
  destruct (get_state_open cfg self active_app other_apps use_dom env Hclosed)
    as (apps & root_partial & root_warnings & self1 & submitted1 & Hcall & _
        & Hfirst & _).
  simpl in Hcall. rewrite Hcall. simpl.
  by apply get_appwise_nodes_keeps_first_job.
Qed.

(** C4: when a call trips the breaker at time [T] (its root enumeration
    times out and the handler reads the clock at [T]), every call at a time
    in [[T, T + cooldown)] returns at once the empty snapshot, partial,
    with the one warning that cites the remaining cooldown, hands nothing
    to the pool (every provider call is made by a pool job) and leaves the
    engine as it is; a call at a time from [T + cooldown] on hands the root
    enumeration to the pool again. *)
Theorem C4_breaker_cooldown (cfg : Settings) (self : Tree.t)
    (active_app : option App) (other_apps : list App) (use_dom : bool)
    (env : Call.t) (T : Z) :
  Tree._uia_disabled_until self <= Call.now env ->
  Call.root env = RootTimesOut T ->
  Call.now env <= T ->
  let tripped := (get_state cfg self active_app other_apps use_dom env).1.2 in
  let cooldown := UIA_TIMEOUT_COOLDOWN_S cfg in
  (forall active_app' other_apps' use_dom' env',
     T <= Call.now env' < T + cooldown ->
     get_state cfg tripped active_app' other_apps' use_dom' env' =
       (TreeState.mk None [] [] [] true
          [UiaDisabledWarning (T + cooldown - Call.now env')],
        tripped, [])) /\
  (forall active_app' other_apps' use_dom' env',
     T <= Call.now env' -> T + cooldown <= Call.now env' ->
     head (get_state cfg tripped active_app' other_apps' use_dom' env').2
       = Some CollectTargetsJob).
Proof.
  intros Hclosed Hroot Hmonotonic tripped cooldown.
  assert (Tree._uia_disabled_until tripped
          = Z.max (Tree._uia_disabled_until self) (T + cooldown)) as Huntil.
  { unfold tripped. rewrite get_state_breaker by done. by rewrite Hroot. }
  split.
  - intros active_app' other_apps' use_dom' env' [Hfrom Hbefore].
    rewrite get_state_short_circuit by lia.
    rewrite Huntil. repeat f_equal. lia.
  - intros active_app' other_apps' use_dom' env' Hfrom Hafter.
    apply get_state_attempts_root_enumeration. lia.
Qed.

Lemma C4_breaker_cooldown_witness :
  let tripped :=
    (get_state Examples.settings Examples.tree0 None [] false
       Examples.timed_out_call).1.2 in
  get_state Examples.settings tripped None [] false (Examples.call_at 5000) =
    (TreeState.mk None [] [] [] true [UiaDisabledWarning (100 + 15000 - 5000)],
     tripped, []) /\
  head (get_state Examples.settings tripped None [] false
          (Examples.call_at 15100)).2 = Some CollectTargetsJob.
Proof.
  destruct (C4_breaker_cooldown Examples.settings Examples.tree0 None [] false
              Examples.timed_out_call 100) as [Hshort Hagain].
  - simpl. lia.
  - reflexivity.
  - simpl. lia.
  - split.
    + apply (Hshort None [] false (Examples.call_at 5000)). simpl. lia.
    + apply (Hagain None [] false (Examples.call_at 15100)); simpl; lia.
Defined.



(** ** Partial results and warnings *)

Lemma get_appwise_nodes_partial_iff_warnings (cfg : Settings) (use_dom : bool)
    (clock : nat -> Z) (apps : list Control) (schedule : list event)
    (self : Tree.t) (submitted : list job) :
  let st := get_appwise_nodes cfg use_dom clock apps schedule self submitted in
  Join.is_partial st = true <-> Join.warnings st <> [].
Proof.
  apply (get_appwise_nodes_keeps cfg use_dom clock
           (fun st => Join.is_partial st = true <-> Join.warnings st <> [])
           (fun _ => True)); try done.
  - intros deadline future view st _ Hst. unfold on_completed.
    destruct (app_of future st) as [app |]; [| done]. simpl.
    destruct (get_nodes _ _ _ _ _) as [[[[elements scrolls] texts] |] self'];
      simpl; [done |].
    destruct (_ <? THREAD_MAX_RETRIES)%nat; simpl.
    + destruct (0 <? _); simpl; [done |].
      split; [by destruct (Join.warnings st) | done].
    + split; [by destruct (Join.warnings st) | done].
  - intros w st _. simpl. split; [by destruct (Join.warnings st) | done].
  - by apply Forall_true; intros [].
Qed.

(** C9: in every returned snapshot the partial flag is set if and only if
    the list of warnings is not empty. *)
Theorem C9_partial_iff_warnings (cfg : Settings) (self : Tree.t)
    (active_app : option App) (other_apps : list App) (use_dom : bool)
    (env : Call.t) :
  TreeState.is_partial (get_state cfg self active_app other_apps use_dom env).1.1 = true
  <->
  TreeState.warnings (get_state cfg self active_app other_apps use_dom env).1.1 <> [].
Proof.
  destruct (Z.lt_ge_cases (Call.now env) (Tree._uia_disabled_until self))
    as [Hopen | Hclosed].
  - by rewrite get_state_short_circuit.
  - destruct (get_state_open cfg self active_app other_apps use_dom env Hclosed)
      as (apps & root_partial & root_warnings & self1 & submitted1 & Hcall & Hroot & _).
    simpl in Hcall. rewrite Hcall. simpl.
    pose proof (get_appwise_nodes_partial_iff_warnings cfg use_dom (Call.clock env)
                  apps (Call.schedule env) self1 submitted1) as Hjoin.
    simpl in Hjoin. rewrite orb_true_iff, Hjoin, Hroot.
    split.
    + intros [Hw | Hw] Hnil; apply app_eq_nil in Hnil as [? ?]; by apply Hw.
    + intros Hw.
      destruct (Join.warnings _) as [| w ws]; [right; by simpl in Hw | by left].
Qed.

(** ** Retries *)

Lemma submissions_app (app : nat) (l1 l2 : list job) :
  submissions app (l1 ++ l2) = (submissions app l1 + submissions app l2)%nat.
Proof. unfold submissions. by rewrite filter_app, length_app. Qed.

Lemma submissions_one (app other : nat) :
  submissions app [GetNodesJob other] = if decide (other = app) then 1%nat else 0%nat.
Proof.
  unfold submissions. rewrite filter_cons, filter_nil.
  destruct (decide (other = app)) as [-> | Hne].
  - by rewrite decide_True.
  - rewrite decide_False; [done |]. by intros [= ->].
Qed.

Section Retries.

Variable cfg : Settings.
Variable use_dom : bool.
Variable clock : nat -> Z.
Variable deadline : Z.

(** What the join does with a job that raised.  With the failure counted,
    the window is handed to the pool once more when fewer than
    [THREAD_MAX_RETRIES] failures are on record and the deadline has not
    passed; otherwise it is dropped, the result is marked partial and the
    fixed warning is recorded. *)
Lemma on_completed_raise (future : nat) (view : Control) (app : nat) (st : Join.t) :
  app_of future st = Some app ->
  (get_nodes cfg view None use_dom (Join.self st)).1 = Raise ->
  let st' := on_completed cfg use_dom clock deadline future view st in
  failures app st' = S (failures app st) /\
  if bool_decide (S (failures app st) < THREAD_MAX_RETRIES)%nat
     && bool_decide (clock (Join.clock_reads st) < deadline)
  then
    Join.submitted st' = Join.submitted st ++ [GetNodesJob app] /\
    Join.future_to_app st' =
      filter (fun entry => entry.1 ≠ future) (Join.future_to_app st)
        ++ [(Join.next_future st, app)] /\
    Join.is_partial st' = Join.is_partial st /\
    Join.warnings st' = Join.warnings st
  else
    Join.submitted st' = Join.submitted st /\
    Join.future_to_app st' =
      filter (fun entry => entry.1 ≠ future) (Join.future_to_app st) /\
    Join.is_partial st' = true /\
    Join.warnings st' = Join.warnings st ++ [SubtreesFailedWarning].
Proof.
  intros Happ Hraise st'. subst st'. unfold on_completed, failures.
  rewrite Happ. simpl.
  destruct (get_nodes cfg view None use_dom (Join.self st)) as [[result |] self'];
    [done |]. simpl.
  rewrite lookup_insert_eq. simpl.
  destruct (S (default 0%nat (Join.retry_counts st !! app)) <? THREAD_MAX_RETRIES)%nat
    eqn:Hcount.
  - apply Nat.ltb_lt in Hcount. rewrite bool_decide_eq_true_2 by done. simpl.
    destruct (0 <? deadline - clock (Join.clock_reads st)) eqn:Hbudget.
    + apply Z.ltb_lt in Hbudget. rewrite bool_decide_eq_true_2 by lia.
      simpl. by rewrite lookup_insert_eq.
    + apply Z.ltb_ge in Hbudget. rewrite bool_decide_eq_false_2 by lia.
      simpl. by rewrite lookup_insert_eq.
  - apply Nat.ltb_ge in Hcount. rewrite bool_decide_eq_false_2 by lia.
    simpl. by rewrite lookup_insert_eq.
Qed.

Lemma on_completed_keeps_retry_bound (before : list job) (future : nat)
    (view : Control) (st : Join.t) :
  retry_bound before st ->
  retry_bound before (on_completed cfg use_dom clock deadline future view st).
Proof.
  intros Hst.
  destruct (app_of future st) as [app |] eqn:Happ;
    [| by unfold on_completed; rewrite Happ].
  destruct (get_nodes cfg view None use_dom (Join.self st)) as [[result |] self']
    eqn:Hjob.
  - unfold on_completed. rewrite Happ. simpl. rewrite Hjob.
    by destruct result as [[elements scrolls] texts].
  - pose proof (on_completed_raise future view app st Happ) as Hraise.
    rewrite Hjob in Hraise. specialize (Hraise eq_refl). simpl in Hraise.
    destruct Hraise as [Hfailures Hraise].
    assert (forall other, other <> app ->
              failures other (on_completed cfg use_dom clock deadline future view st)
              = failures other st) as Hothers.
    { intros other Hother. unfold on_completed, failures. rewrite Happ. simpl.
      rewrite Hjob.
      destruct (_ <? THREAD_MAX_RETRIES)%nat; simpl;
        [destruct (0 <? _); simpl |]; by rewrite lookup_insert_ne. }
    intros other. destruct (Hst other) as [Hone Hmax].
    destruct (bool_decide (S (failures app st) < THREAD_MAX_RETRIES)%nat) eqn:Hcount;
      simpl in Hraise.
    + apply bool_decide_eq_true in Hcount.
      destruct (bool_decide (clock (Join.clock_reads st) < deadline));
        destruct Hraise as (-> & _).
      * rewrite submissions_app, submissions_one.
        destruct (decide (app = other)) as [<- | Hne].
        -- rewrite Hfailures. split; lia.
        -- rewrite Hothers by done. split; lia.
      * destruct (decide (app = other)) as [<- | Hne].
        -- rewrite Hfailures. split; lia.
        -- rewrite Hothers by done. split; lia.
    + destruct Hraise as (-> & _).
      destruct (decide (app = other)) as [<- | Hne].
      * rewrite Hfailures. split; lia.
      * rewrite Hothers by done. split; lia.
Qed.

End Retries.

(** The state of the join once every window has been handed to the pool. *)
Lemma submit_all_state (cfg : Settings) (use_dom : bool) (apps : list nat) (st : Join.t) :
  let st' := foldl (fun st app => submit app st) st apps in
  Join.self st' = Join.self st /\
  Join.interactive_nodes st' = Join.interactive_nodes st /\
  Join.scrollable_nodes st' = Join.scrollable_nodes st /\
  Join.dom_informative_nodes st' = Join.dom_informative_nodes st /\
  Join.is_partial st' = Join.is_partial st /\
  Join.warnings st' = Join.warnings st /\
  Join.retry_counts st' = Join.retry_counts st /\
  Join.future_to_app st' =
    Join.future_to_app st ++ zip (seq (Join.next_future st) (List.length apps)) apps /\
  Join.clock_reads st' = Join.clock_reads st /\
  Join.submitted st' = Join.submitted st ++ (GetNodesJob <$> apps).
Proof.
  revert st. induction apps as [| app rest IH]; intros st; simpl.
  - by rewrite !app_nil_r.
  - destruct (IH (submit app st)) as (-> & -> & -> & -> & -> & -> & -> & -> & -> & ->).
    simpl. by rewrite <- !app_assoc.
Qed.

Lemma submissions_seq (app start count : nat) :
  submissions app (GetNodesJob <$> seq start count) =
  if decide (start <= app < start + count)%nat then 1%nat else 0%nat.
Proof.
  revert start. induction count as [| count IH]; intros start.
  - simpl. by rewrite decide_False by lia.
  - rewrite <- cons_seq, fmap_cons.
    pose proof (submissions_app app [GetNodesJob start]
                  (GetNodesJob <$> seq (S start) count)) as Hsplit.
    simpl in Hsplit. simpl. rewrite Hsplit, IH.
    pose proof (submissions_one app start) as Hone. simpl in Hone. rewrite Hone.
    repeat case_decide; lia.
Qed.

Lemma get_appwise_nodes_retry_bound (cfg : Settings) (use_dom : bool)
    (clock : nat -> Z) (apps : list Control) (schedule : list event)
    (self : Tree.t) (submitted : list job) :
  retry_bound submitted
    (get_appwise_nodes cfg use_dom clock apps schedule self submitted).
Proof.
  unfold get_appwise_nodes.
  set (start := Join.mk self [] [] [] false [] _ [] 0 0 1 submitted).
  set (st := foldl _ start _).
  assert (retry_bound submitted st) as Hst.
  { destruct (submit_all_state cfg use_dom (seq 0 (List.length apps)) start)
      as (_ & _ & _ & _ & _ & _ & Hcounts & _ & _ & Hsubmitted).
    fold st in Hcounts, Hsubmitted. intros app. unfold failures.
    rewrite Hsubmitted, submissions_app, submissions_seq. simpl.
    unfold THREAD_MAX_RETRIES. case_decide; lia. }
  assert (forall w st, retry_bound submitted st ->
            retry_bound submitted (mark_partial w st)) as Hmark by done.
  assert (forall st, retry_bound submitted st ->
            retry_bound submitted (monotonic clock st).2) as Hread by done.
  pose proof (loop_head_keeps cfg use_dom clock (retry_bound submitted) Hmark Hread
                (clock 0%nat + timeout_s cfg use_dom) st Hst) as Hhead.
  destruct (loop_head _ _ _ _ st) as [[pending |] st']; simpl in Hhead; [| done].
  apply join_keeps with (good := fun _ => True); try done.
  - intros. by apply on_completed_keeps_retry_bound.
  - by apply Forall_true; intros [].
Qed.

(** C5, as the code has it: the join counts the failures of a window; a
    job that raises is handed to the pool again while fewer than 3 failures
    are on record and the deadline has not passed, and is otherwise dropped,
    with the result marked partial and one fixed warning recorded that
    depends on nothing read from the failing window.  A window is thus
    walked at most 3 times in a call: once, and at most twice again. *)
Theorem C5_retry_rule (cfg : Settings) (use_dom : bool) (clock : nat -> Z)
    (deadline : Z) (future : nat) (view : Control) (app : nat) (st : Join.t) :
  app_of future st = Some app ->
  (get_nodes cfg view None use_dom (Join.self st)).1 = Raise ->
  let st' := on_completed cfg use_dom clock deadline future view st in
  failures app st' = S (failures app st) /\
  (if bool_decide (S (failures app st) < THREAD_MAX_RETRIES)%nat
      && bool_decide (clock (Join.clock_reads st) < deadline)
   then
     Join.submitted st' = Join.submitted st ++ [GetNodesJob app] /\
     Join.future_to_app st' =
       filter (fun entry => entry.1 ≠ future) (Join.future_to_app st)
         ++ [(Join.next_future st, app)] /\
     Join.is_partial st' = Join.is_partial st /\
     Join.warnings st' = Join.warnings st
   else
     Join.submitted st' = Join.submitted st /\
     Join.future_to_app st' =
       filter (fun entry => entry.1 ≠ future) (Join.future_to_app st) /\
     Join.is_partial st' = true /\
     Join.warnings st' = Join.warnings st ++ [SubtreesFailedWarning]) /\
  forall apps schedule self submitted window,
    (submissions window
       (Join.submitted (get_appwise_nodes cfg use_dom clock apps schedule self submitted))
     <= submissions window submitted + THREAD_MAX_RETRIES)%nat.
Proof.
  intros Happ Hraise st'.
  destruct (on_completed_raise cfg use_dom clock deadline future view app st
              Happ Hraise) as [Hfailures Hstep].
  split; [exact Hfailures |]. split; [exact Hstep |].
  intros apps schedule self submitted window.
  apply (get_appwise_nodes_retry_bound cfg use_dom clock apps schedule self submitted).
Qed.

Lemma C5_retry_rule_witness :
  failures 0 (on_completed Examples.settings false Examples.frozen_clock 6000 0
                Examples.broken_window Examples.waiting) = 1%nat /\
  (submissions 0
     (Join.submitted
        (get_appwise_nodes Examples.settings false Examples.frozen_clock
           [Examples.broken_window]
           [Completes 0 Examples.broken_window; Completes 1 Examples.broken_window;
            Completes 2 Examples.broken_window] Examples.tree0 []))
   <= submissions 0 [] + THREAD_MAX_RETRIES)%nat.
Proof.
  destruct (C5_retry_rule Examples.settings false Examples.frozen_clock 6000 0
              Examples.broken_window 0 Examples.waiting) as (Hfailures & _ & Hbound).
  - reflexivity.
  - reflexivity.
  - split; [exact Hfailures | apply Hbound].
Defined.

(** C5 as stated fails: with the deadline far away, a window whose job
    raises every time is handed to the pool three times in all, that is
    resubmitted twice, and is dropped on its third failure, not after a
    third resubmission. *)
Lemma C5_dropped_after_two_resubmissions :
  let st :=
    get_appwise_nodes Examples.settings false Examples.frozen_clock
      [Examples.broken_window]
      [Completes 0 Examples.broken_window; Completes 1 Examples.broken_window;
       Completes 2 Examples.broken_window; Completes 3 Examples.broken_window]
      Examples.tree0 [] in
  Join.submitted st = [GetNodesJob 0; GetNodesJob 0; GetNodesJob 0] /\
  Join.future_to_app st = [] /\
  Join.is_partial st = true /\
  Join.warnings st = [SubtreesFailedWarning] /\
  Examples.frozen_clock (Join.clock_reads st)
    < Examples.frozen_clock 0 + timeout_s Examples.settings false.
Proof. repeat split; vm_compute; reflexivity. Qed.

(** ** The order of the merged results *)


Lemma filter_keys (future : nat) (entries : list (nat * nat)) :
  (filter (fun entry => entry.1 ≠ future) entries).*1
  = filter (fun f => f ≠ future) entries.*1.
Proof.
  induction entries as [| [f app] rest IH]; [done |].
  rewrite fmap_cons, !filter_cons. simpl.
  destruct (decide (f ≠ future)); by rewrite ?fmap_cons, IH.
Qed.



Section CompletionOrder.

Variable cfg : Settings.
Variable use_dom : bool.
Variable clock : nat -> Z.
Variable deadline : Z.


End CompletionOrder.




(** * Further properties of the engine *)

(** ** The clipped box, point by point *)

(** The box that [iou_bounding_box] returns holds exactly the points that
    the window rectangle, the element rectangle and the screen have in
    common; the all-zero box it returns when they have none holds no
    point. *)
Theorem iou_bounding_box_points (self : Tree.t) (window_box element_box : Rect.t)
    (x y : Z) :
  rect_contains (BoundingBox.edges (iou_bounding_box self window_box element_box)) x y
  <->
  rect_contains window_box x y /\ rect_contains element_box x y /\
  rect_contains (BoundingBox.edges (Tree.screen_box self)) x y.
Proof.
  unfold rect_contains, iou_bounding_box.
  destruct (_ && _) eqn:Hvalid; simpl.
  - lia.
  - apply andb_false_iff in Hvalid as [H | H]; apply Z.ltb_ge in H; lia.
Qed.

(** Clipping does not tell the window from the element, and clipping a
    clipped box against the same window changes nothing. *)
Theorem iou_bounding_box_symmetric_idempotent (self : Tree.t)
    (window_box element_box : Rect.t) :
  iou_bounding_box self window_box element_box
    = iou_bounding_box self element_box window_box /\
  iou_bounding_box self window_box
      (BoundingBox.edges (iou_bounding_box self window_box element_box))
    = iou_bounding_box self window_box element_box.
Proof.
  split.
  - unfold iou_bounding_box.
    rewrite (Z.max_comm (Rect.left window_box)), (Z.max_comm (Rect.top window_box)),
      (Z.min_comm (Rect.right window_box)), (Z.min_comm (Rect.bottom window_box)).
    reflexivity.
  - unfold iou_bounding_box at 2 3.
    destruct (_ && _) eqn:Hvalid.
    + apply andb_true_iff in Hvalid as [Hx Hy]. apply Z.ltb_lt in Hx, Hy.
      unfold iou_bounding_box. simpl.
      rewrite !(Z.max_r _ (Z.max _ (Z.max _ _))) by lia.
      rewrite !(Z.min_r _ (Z.min _ (Z.min _ _))) by lia.
      assert (forall a b, a < b -> (a <? b) = true) as Hlt
        by (intros; by apply Z.ltb_lt).
      by rewrite !Hlt.
    + clear Hvalid. unfold iou_bounding_box. simpl.
      destruct (_ && _) eqn:Hagain; [| done].
      apply andb_true_iff in Hagain as [Hx Hy]. apply Z.ltb_lt in Hx, Hy. lia.
Qed.

(** ** The classifier, verdict by verdict *)


Lemma scrollable_cases (node : Control) :
  is_element_scrollable node = true ->
  exists t p,
    ControlTypeName node = Ok t /\
    (t ∉ INTERACTIVE_CONTROL_TYPE_NAMES ++ INFORMATIVE_CONTROL_TYPE_NAMES) /\
    IsOffscreen node = Ok false /\
    GetScrollPattern node = Ok (Some p) /\
    ScrollPattern.VerticallyScrollable p = Ok true.
Proof.
  unfold is_element_scrollable, or_, Exc.bind. intros H.
  destruct (ControlTypeName node) as [t |]; [| done].
  cbn [mbind exc_bind Exc.bind] in H.
  unfold PyStr.mem in H. case_bool_decide as Htype; [done |].
  destruct (IsOffscreen node) as [[|] |]; try done.
  destruct (GetScrollPattern node) as [[p |] |]; try done.
  exists t, p. repeat split; try done.
  cbn [mbind exc_bind Exc.bind try_false] in H.
  by destruct (ScrollPattern.VerticallyScrollable p) as [[|] |].
Qed.

(** [is_element_scrollable] answers [True] exactly for an on-screen control
    whose type is neither interactive nor informative and whose scroll
    pattern says it scrolls vertically. *)
Theorem is_element_scrollable_iff (node : Control) :
  is_element_scrollable node = true <->
  exists t p,
    ControlTypeName node = Ok t /\
    (t ∉ INTERACTIVE_CONTROL_TYPE_NAMES ++ INFORMATIVE_CONTROL_TYPE_NAMES) /\
    IsOffscreen node = Ok false /\
    GetScrollPattern node = Ok (Some p) /\
    ScrollPattern.VerticallyScrollable p = Ok true.
Proof.
  split; [apply scrollable_cases |].
  intros (t & p & Htype & Hplain & Hoff & Hpattern & Hvertical).
  unfold is_element_scrollable, or_, Exc.bind. rewrite Htype, Hoff, Hpattern.
  cbn [mbind exc_bind Exc.bind]. unfold PyStr.mem.
  rewrite bool_decide_eq_false_2 by done.
  cbn [try_false]. by rewrite Hvertical.
Qed.

(** The types of the controls that are interactive. *)
Lemma interactive_types (is_browser : bool) (node : Control) :
  is_element_interactive is_browser node = true ->
  exists t, ControlTypeName node = Ok t /\
    (is_browser = false /\ t = "ImageControl" \/
     t ∈ INTERACTIVE_CONTROL_TYPE_NAMES ++ DOCUMENT_CONTROL_TYPE_NAMES \/
     is_browser = true /\ t = "GroupControl").
Proof.
  unfold is_element_interactive. intros H.
  destruct (ControlTypeName node) as [t |]; [| done].
  cbn [mbind exc_bind Exc.bind] in H. exists t. split; [done |].
  unfold PyStr.mem in H.
  destruct (is_browser && _ && negb _); [done |].
  destruct (negb is_browser && bool_decide (t = "ImageControl") && _) eqn:Himage.
  { apply andb_true_iff in Himage as [Himage _].
    apply andb_true_iff in Himage as [Hbrowser Himage].
    apply bool_decide_eq_true in Himage. left. by destruct is_browser. }
  right. case_bool_decide as Hinteractive; [by left |].
  case_bool_decide as Hgroup; [| done].
  destruct is_browser; [by right | done].
Qed.

(** When [is_element_interactive] answers [True] the type of the control
    was read, and the control is a keyboard-focusable image outside a
    browser, or it is visible and enabled and has an interactive type, the
    document type or, inside a browser, the group type.  Inside a browser a
    data item or list item is interactive only when keyboard-focusable. *)
Theorem is_element_interactive_sound (is_browser : bool) (node : Control) :
  is_element_interactive is_browser node = true ->
  exists t, ControlTypeName node = Ok t /\
    (is_browser = true -> t ∈ ["DataItemControl"; "ListItemControl"] ->
     is_keyboard_focusable node = true) /\
    (is_browser = false /\ t = "ImageControl" /\ is_keyboard_focusable node = true \/
     is_element_visible node = Ok true /\ is_element_enabled node = true /\
     (t ∈ INTERACTIVE_CONTROL_TYPE_NAMES ++ DOCUMENT_CONTROL_TYPE_NAMES \/
      is_browser = true /\ t = "GroupControl")).
Proof.
  unfold is_element_interactive. intros H.
  destruct (ControlTypeName node) as [t |] eqn:Htype; [| done].
  cbn [mbind exc_bind Exc.bind] in H. exists t. split; [done |].
  assert (forall extra : exc bool,
            try_false (and_ (and_ (is_element_visible node) (Ok (is_element_enabled node)))
                            extra) = true ->
            is_element_visible node = Ok true /\ is_element_enabled node = true)
    as Hrule.
  { intros extra. unfold and_, Exc.bind.
    destruct (is_element_visible node) as [[|] |]; try done.
    by destruct (is_element_enabled node). }
  unfold PyStr.mem in H.
  destruct (is_browser && bool_decide (t ∈ ["DataItemControl"; "ListItemControl"])
            && negb (is_keyboard_focusable node)) eqn:Hrow; [done |].
  split.
  { intros -> Hin. rewrite bool_decide_eq_true_2 in Hrow by done.
    by destruct (is_keyboard_focusable node). }
  destruct (negb is_browser && bool_decide (t = "ImageControl")
            && is_keyboard_focusable node) eqn:Himage.
  { apply andb_true_iff in Himage as [Himage Hfocus].
    apply andb_true_iff in Himage as [Hbrowser Himage].
    apply bool_decide_eq_true in Himage. left.
    by destruct is_browser. }
  right. case_bool_decide as Hinteractive.
  { destruct (Hrule _ H). repeat split; try done. by left. }
  case_bool_decide as Hgroup; [| done].
  destruct is_browser; [| done].
  destruct (Hrule _ H). repeat split; try done. by right.
Qed.

Lemma is_element_interactive_sound_witness :
  exists t, ControlTypeName Examples.inner_button = Ok t /\
    (false = true -> t ∈ ["DataItemControl"; "ListItemControl"] ->
     is_keyboard_focusable Examples.inner_button = true) /\
    (false = false /\ t = "ImageControl" /\
       is_keyboard_focusable Examples.inner_button = true \/
     is_element_visible Examples.inner_button = Ok true /\
     is_element_enabled Examples.inner_button = true /\
     (t ∈ INTERACTIVE_CONTROL_TYPE_NAMES ++ DOCUMENT_CONTROL_TYPE_NAMES \/
      false = true /\ t = "GroupControl")).
Proof.
  apply (is_element_interactive_sound false Examples.inner_button). reflexivity.
Defined.

(** The walk lists a control both as scrollable and as interactive only
    when it is a document, or a group inside a browser window. *)
Theorem scrollable_and_interactive (is_browser : bool) (node : Control) :
  is_element_scrollable node = true ->
  is_element_interactive is_browser node = true ->
  ControlTypeName node = Ok "DocumentControl" \/
  is_browser = true /\ ControlTypeName node = Ok "GroupControl".
Proof.
  intros Hscroll Hinteractive.
  apply scrollable_cases in Hscroll as (t & p & Htype & Hnot & _).
  apply interactive_types in Hinteractive
    as (t' & Htype' & [(_ & ->) | [Hin | [-> ->]]]).
  - rewrite Htype in Htype'. injection Htype' as ->.
    exfalso. apply Hnot. rewrite elem_of_app. right. set_solver.
  - rewrite Htype in Htype'. injection Htype' as <-.
    apply elem_of_app in Hin as [Hin | Hin].
    + exfalso. apply Hnot. rewrite elem_of_app. by left.
    + left. apply list_elem_of_singleton in Hin as ->. done.
  - right. by rewrite Htype'.
Qed.

Lemma scrollable_and_interactive_witness :
  ControlTypeName Examples.document_root = Ok "DocumentControl" \/
  true = true /\ ControlTypeName Examples.document_root = Ok "GroupControl".
Proof.
  apply (scrollable_and_interactive true Examples.document_root); reflexivity.
Defined.

(** ** What a walk does to its buffers

    A property [P] of the traversal state that survives every kind of write
    the walk makes survives the walk. *)

Ltac exc_cases H :=
  repeat match type of H with
         | (?m ≫= _) = Ok _ =>
             let x := fresh "x" in
             destruct m as [x |]; [cbn [mbind exc_bind Exc.bind] in H | discriminate H]
         | (match ?m with _ => _ end) = Ok _ =>
             destruct m; try discriminate H
         | (if ?b then _ else _) = Ok _ => destruct b
         end.

Section WalkClosure.

Variable cfg : Settings.
Variable is_browser : bool.
Variable app_name : string.
Variable window_bounding_box : Rect.t.

Variable P : Walk.t -> Prop.

Hypothesis P_interactive : forall e w,
  element_of app_name e -> P w -> P (Walk.with_interactive (append e) w).
Hypothesis P_dom_interactive : forall e w,
  element_of app_name e -> P w -> P (Walk.with_dom_interactive (append e) w).
Hypothesis P_pop : forall w,
  P w -> P (Walk.with_dom_interactive (@removelast TreeElementNode.t) w).
Hypothesis P_clear_interactive : forall w, P w -> P (Walk.with_interactive clear w).
Hypothesis P_clear_dom_interactive : forall w,
  P w -> P (Walk.with_dom_interactive clear w).
Hypothesis P_scrollable : forall e w,
  scroll_element_of app_name e -> P w -> P (Walk.with_scrollable (append e) w).
Hypothesis P_informative : forall text w,
  P w -> P (Walk.with_informative (append text) w).
Hypothesis P_self : forall f w, P w -> P (Walk.with_self f w).

Lemma interactive_element_of (node : Control) (reference : Rect.t) (self : Tree.t)
    (e : TreeElementNode.t) :
  interactive_element app_name node reference self = Ok e -> element_of app_name e.
Proof.
  intros H. unfold interactive_element in H. exc_cases H. by injection H as <-.
Qed.

Lemma scrollable_element_of (node : Control) (e : ScrollElementNode.t) :
  scrollable_element cfg app_name node = Ok e -> scroll_element_of app_name e.
Proof.
  intros H. unfold scrollable_element in H. exc_cases H.
  all: by injection H as <-.
Qed.

Lemma closed_bind {A B} (m : walk A) (k : A -> walk B) :
  walk_keeps P m -> (forall a, walk_keeps P (k a)) -> walk_keeps P (m ≫= k).
Proof.
  intros Hm Hk.
  apply (walk_spec_bind _ _ _ (fun _ => True)); [exact Hm | intros a _; apply Hk].
Qed.

Lemma closed_read {A} (e : exc A) : walk_keeps P (read e).
Proof. by apply walk_spec_read. Qed.

Lemma closed_ret {A} (a : A) : walk_keeps P (mret a).
Proof. by apply walk_spec_ret. Qed.

Lemma group_element_of (node child : Control) :
  walk_spec P (group_element app_name node child) (element_of app_name).
Proof.
  unfold group_element.
  do 3 (apply (walk_spec_bind _ _ _ (fun _ => True)); [by apply walk_spec_read |];
        intros ? _).
  apply (walk_spec_bind _ _ _ (fun _ => True)); [apply walk_spec_get_dom_bounding_box |].
  intros dom_box _.
  apply (walk_spec_bind _ _ _ (fun _ => True)); [by apply walk_spec_get_self |].
  intros self _.
  do 4 (apply (walk_spec_bind _ _ _ (fun _ => True)); [by apply walk_spec_read |];
        intros ? _).
  by apply walk_spec_ret.
Qed.

Lemma link_element_of (node : Control) :
  walk_spec P (link_element app_name node) (element_of app_name).
Proof.
  unfold link_element.
  do 3 (apply (walk_spec_bind _ _ _ (fun _ => True)); [by apply walk_spec_read |];
        intros ? _).
  apply (walk_spec_bind _ _ _ (fun _ => True)); [apply walk_spec_get_dom_bounding_box |].
  intros dom_box _.
  apply (walk_spec_bind _ _ _ (fun _ => True)); [by apply walk_spec_get_self |].
  intros self _.
  do 3 (apply (walk_spec_bind _ _ _ (fun _ => True)); [by apply walk_spec_read |];
        intros ? _).
  by apply walk_spec_ret.
Qed.

Lemma dom_correction_closed (node : Control) :
  walk_keeps P (dom_correction app_name node).
Proof.
  pose proof (walk_spec_pop P P_pop) as Hpop.
  unfold dom_correction.
  apply closed_bind; [apply closed_read |]. intros [|]; [exact Hpop |].
  apply closed_bind; [apply closed_read |]. intros t.
  destruct (bool_decide (t = "GroupControl")).
  - apply closed_bind; [exact Hpop |]. intros _.
    destruct (is_keyboard_focusable node); [| apply closed_ret].
    destruct (first_child_chain node) as [child |]; [| apply closed_ret].
    apply closed_bind; [apply closed_read |]. intros ct.
    destruct (bool_decide (ct = "TextControl")); [| apply closed_ret].
    eapply walk_spec_bind; [apply group_element_of |].
    intros e He. apply walk_spec_update. intros w. by apply P_dom_interactive.
  - apply closed_bind; [apply closed_read |]. intros [|]; [| apply closed_ret].
    apply closed_bind; [exact Hpop |]. intros _.
    apply closed_bind; [apply closed_read |]. intros [heading |]; [| apply closed_read].
    eapply walk_spec_bind; [apply link_element_of |].
    intros e He. apply walk_spec_update. intros w. by apply P_dom_interactive.
Qed.

Lemma classify_node_closed (node : Control) (is_dom : bool) :
  walk_keeps P (classify_node cfg is_browser app_name window_bounding_box node is_dom).
Proof.
  unfold classify_node.
  apply closed_bind.
  { destruct (is_element_scrollable node); [| apply closed_ret].
    eapply walk_spec_bind.
    - apply walk_spec_read. intros e He. exact (scrollable_element_of node e He).
    - intros e He. apply walk_spec_update. intros w. by apply P_scrollable. }
  intros _.
  destruct (is_element_interactive is_browser node).
  - destruct (is_browser && is_dom).
    + apply closed_bind; [apply walk_spec_get_dom_bounding_box |]. intros dom_box.
      apply closed_bind; [by apply walk_spec_get_self |]. intros self.
      eapply walk_spec_bind.
      * apply walk_spec_read. intros e He.
        exact (interactive_element_of node _ self e He).
      * intros e He. apply closed_bind; [| intros _; apply dom_correction_closed].
        apply walk_spec_update. intros w. by apply P_dom_interactive.
    + apply closed_bind; [by apply walk_spec_get_self |]. intros self.
      eapply walk_spec_bind.
      * apply walk_spec_read. intros e He.
        exact (interactive_element_of node _ self e He).
      * intros e He. apply walk_spec_update. intros w. by apply P_interactive.
  - destruct (is_element_text node); [| apply closed_ret].
    apply closed_bind; [apply closed_read |]. intros name.
    apply walk_spec_update. intros w. by apply P_informative.
Qed.

Lemma enter_child_closed (child : Control) (is_dom is_dialog : bool) :
  walk_keeps P (enter_child is_browser child is_dom is_dialog).
Proof.
  unfold enter_child.
  apply closed_bind; [apply closed_read |]. intros [|].
  - apply closed_bind; [apply closed_read |]. intros box.
    apply closed_bind; [apply walk_spec_update; intros w; by apply P_self |].
    intros _. apply closed_bind; [apply closed_read |].
    intros [scroll_pattern |]; [| apply closed_read].
    do 4 (apply closed_bind; [apply closed_read |]; intros ?).
    apply closed_bind; [| intros _; apply closed_ret].
    apply walk_spec_update. intros w. by apply P_self.
  - destruct (class_of child); try apply closed_ret.
    apply closed_bind; [apply closed_read |]. intros offscreen.
    apply closed_bind; [| intros _; apply closed_ret].
    destruct offscreen; [apply closed_ret |].
    destruct is_dom.
    + apply closed_bind; [apply closed_read |]. intros box.
      apply closed_bind; [apply walk_spec_get_dom_bounding_box |]. intros dom_box.
      destruct (_ <? _); [| apply closed_ret].
      apply walk_spec_update. intros w. by apply P_clear_dom_interactive.
    + destruct (is_window_modal child); [| apply closed_ret].
      apply walk_spec_update. intros w. by apply P_clear_interactive.
Qed.

Lemma tree_traversal_closed (node : Control) (is_dom is_dialog : bool) :
  walk_keeps P (tree_traversal cfg is_browser app_name window_bounding_box
                  node is_dom is_dialog).
Proof.
  apply tree_traversal_keeps with (bad := fun _ => false).
  - apply classify_node_closed.
  - intros. apply enter_child_closed.
  - apply some_descendant_never.
Qed.

End WalkClosure.

Lemma Forall_removelast {A} (Q : A -> Prop) (l : list A) :
  Forall Q l -> Forall Q (removelast l).
Proof.
  induction l as [| x [| y l] IH]; intros Hl; simpl; try done.
  inversion Hl; subst. constructor; [done |]. by apply IH.
Qed.

(** The walk never takes anything back from the scrollable elements and
    the texts it has gathered: what was there before the walk of a node is
    still there after it, in front of what the walk added.  The dialog rule
    empties the interactive buffers alone. *)
Theorem tree_traversal_keeps_scrollable_and_text (cfg : Settings)
    (is_browser : bool) (app_name : string) (window_bounding_box : Rect.t)
    (node : Control) (is_dom is_dialog : bool) (w : Walk.t) :
  let w' := (tree_traversal cfg is_browser app_name window_bounding_box
               node is_dom is_dialog w).2 in
  Walk.scrollable_nodes w `prefix_of` Walk.scrollable_nodes w' /\
  Walk.dom_informative_nodes w `prefix_of` Walk.dom_informative_nodes w'.
Proof.
  apply (tree_traversal_closed cfg is_browser app_name window_bounding_box
           (fun w' => Walk.scrollable_nodes w `prefix_of` Walk.scrollable_nodes w' /\
                      Walk.dom_informative_nodes w `prefix_of`
                        Walk.dom_informative_nodes w'));
    try done.
  - intros e w' _ [Hs Ht]. split; [| done]. by apply prefix_app_r.
  - intros text w' [Hs Ht]. split; [done |]. by apply prefix_app_r.
Qed.

(** The invariant behind the filing of the elements: every element in the
    buffers of the walk of the window [label] is filed under it. *)
Lemma tree_traversal_elements_of (cfg : Settings) (is_browser : bool)
    (label : string) (window_bounding_box : Rect.t) (node : Control)
    (is_dom is_dialog : bool) :
  walk_keeps
    (fun w => Forall (element_of label) (Walk.interactive_nodes w) /\
              Forall (element_of label) (Walk.dom_interactive_nodes w) /\
              Forall (scroll_element_of label) (Walk.scrollable_nodes w))
    (tree_traversal cfg is_browser label window_bounding_box node is_dom is_dialog).
Proof.
  apply tree_traversal_closed.
  - intros e w He (? & ? & ?). repeat split; try done.
    apply Forall_app. by split; [| constructor].
  - intros e w He (? & ? & ?). repeat split; try done.
    apply Forall_app. by split; [| constructor].
  - intros w (? & ? & ?). repeat split; try done. by apply Forall_removelast.
  - intros w (? & ? & ?). repeat split; try done; constructor.
  - intros w (? & ? & ?). repeat split; try done; constructor.
  - intros e w He (? & ? & ?). repeat split; try done.
    apply Forall_app. by split; [| constructor].
  - by intros text w (? & ? & ?).
  - by intros f w (? & ? & ?).
Qed.

(** A result of [get_nodes] is a selection from the buffers of the walk of
    the window under its label. *)
Lemma get_nodes_returns (cfg : Settings) (view : Control)
    (is_browser : option bool) (use_dom : bool) (self : Tree.t)
    (result : window_result) :
  (get_nodes cfg view is_browser use_dom self).1 = Ok result ->
  exists label b window_bounding_box,
    app_name_of view = Ok label /\
    let w := (tree_traversal cfg b label window_bounding_box view false false
                (Walk.start self)).2 in
    result.1.1 ∈ [Walk.dom_interactive_nodes w; [];
                  Walk.interactive_nodes w ++ Walk.dom_interactive_nodes w] /\
    result.1.2 ∈ [Walk.scrollable_nodes w; []].
Proof.
  unfold get_nodes, app_name_of.
  destruct (BoundingRectangle view) as [window_bounding_box |]; [| done].
  destruct (Name view) as [name |]; [| done].
  destruct (ClassName view) as [class_name |]; [| done].
  cbn [mbind exc_bind Exc.bind].
  match goal with
  | |- context [tree_traversal _ ?b ?app_name _ _ _ _ _] =>
      intros Hresult; exists app_name, b, window_bounding_box;
      destruct (tree_traversal cfg b app_name window_bounding_box view false false
                  (Walk.start self)) as [[[] |] w]; [| done]
  end.
  cbn [fst snd] in *. injection Hresult as <-. split; [done |].
  destruct use_dom; [destruct (match is_browser with Some b => b | None => _ end) |];
    cbn [fst snd]; split; set_solver.
Qed.



(** The same for the join: every element it has merged carries an empty
    path and is filed under the label of a window that a job has walked. *)
Lemma elements_of_join (cfg : Settings) (use_dom : bool) (clock : nat -> Z)
    (apps : list Control) (schedule : list event) (self : Tree.t)
    (submitted : list job) :
  let st := get_appwise_nodes cfg use_dom clock apps schedule self submitted in
  let walked label :=
    exists future view,
      Completes future view ∈ schedule /\ app_name_of view = Ok label in
  Forall (fun e => TreeElementNode.xpath e = "" /\ walked (TreeElementNode.app_name e))
    (Join.interactive_nodes st) /\
  Forall (fun e => ScrollElementNode.xpath e = "" /\ walked (ScrollElementNode.app_name e))
    (Join.scrollable_nodes st).
Proof.
  intros st walked. subst st.
  apply (get_appwise_nodes_keeps cfg use_dom clock
           (fun st =>
              Forall (fun e => TreeElementNode.xpath e = "" /\
                               walked (TreeElementNode.app_name e))
                (Join.interactive_nodes st) /\
              Forall (fun e => ScrollElementNode.xpath e = "" /\
                               walked (ScrollElementNode.app_name e))
                (Join.scrollable_nodes st))
           (fun view => exists future, Completes future view ∈ schedule));
    try done.
  - intros deadline future view st [future' Hview] [Hi Hs]. unfold on_completed.
    destruct (app_of future st) as [app |]; [| done]. simpl.
    destruct (get_nodes cfg view None use_dom (Join.self st)) as [[result |] self']
      eqn:Hjob; simpl.
    + pose proof (get_nodes_returns cfg view None use_dom (Join.self st) result)
        as Hresult.
      rewrite Hjob in Hresult.
      destruct (Hresult eq_refl)
        as (label & b & window_bounding_box & Hlabel & Helements & Hscrolls).
      destruct (tree_traversal_elements_of cfg b label window_bounding_box view false
                  false (Walk.start (Join.self st))) as [(Hwi & Hwd & Hws) _];
        [by repeat split; constructor |].
      assert (forall e, element_of label e ->
                TreeElementNode.xpath e = "" /\ walked (TreeElementNode.app_name e))
        as Hfiled.
      { intros e [Hpath Hname]. split; [done |]. exists future', view.
        by rewrite Hname. }
      assert (forall e, scroll_element_of label e ->
                ScrollElementNode.xpath e = "" /\ walked (ScrollElementNode.app_name e))
        as Hscroll_filed.
      { intros e [Hpath Hname]. split; [done |]. exists future', view.
        by rewrite Hname. }
      destruct result as [[elements scrolls] texts]. cbn [fst snd] in *.
      split; apply Forall_app; (split; [done |]).
      * apply elem_of_cons in Helements as [-> | Helements];
          [by eapply Forall_impl |].
        apply elem_of_cons in Helements as [-> | Helements]; [constructor |].
        apply list_elem_of_singleton in Helements as ->.
        apply Forall_app. split; by eapply Forall_impl.
      * apply elem_of_cons in Hscrolls as [-> | Hscrolls];
          [by eapply Forall_impl |].
        apply list_elem_of_singleton in Hscrolls as ->. constructor.
    + destruct (_ <? THREAD_MAX_RETRIES)%nat; [| done].
      simpl. by destruct (0 <? _).
  - apply Forall_forall. intros [future view |] Hin; [| done]. by exists future.
Qed.


(** ** The flag [is_dialog] *)

Lemma for_each_ext {A} (f g : A -> walk unit) (xs : list A) :
  Forall (fun x => forall w, f x w = g x w) xs ->
  forall w, for_each f xs w = for_each g xs w.
Proof.
  induction 1 as [| x rest Hx _ IH]; intros w; simpl; [done |].
  unfold walk_bind. rewrite Hx. by destruct (g x w) as [[[] |] w1].
Qed.

Lemma for_each_reversed_ext {A} (f g : A -> walk unit) (xs : list A) :
  Forall (fun x => forall w, f x w = g x w) xs ->
  forall w, for_each_reversed f xs w = for_each_reversed g xs w.
Proof.
  induction 1 as [| x rest Hx _ IH]; intros w; simpl; [done |].
  unfold walk_bind. rewrite IH. by destruct (for_each_reversed g rest w) as [[[] |] w1].
Qed.

(** Meeting a child does the same to the traversal state and settles the
    same [is_dom] for the child whatever [is_dialog] is. *)
Lemma enter_child_is_dialog (is_browser : bool) (child : Control)
    (is_dom d1 d2 : bool) (w : Walk.t) :
  (enter_child is_browser child is_dom d1 w).2
    = (enter_child is_browser child is_dom d2 w).2 /\
  match (enter_child is_browser child is_dom d1 w).1,
        (enter_child is_browser child is_dom d2 w).1 with
  | Ok flags1, Ok flags2 => flags1.1 = flags2.1
  | Raise, Raise => True
  | _, _ => False
  end.
Proof.
  unfold enter_child, mbind, walk_mbind, walk_bind, read, update, mret, walk_mret,
    walk_ret, get_dom_bounding_box.
  destruct (if is_browser then _ else _) as [[|] |]; [| | done].
  - destruct (BoundingRectangle child) as [box |]; [| done].
    destruct (GetScrollPattern child) as [[p |] |]; [| done | done].
    destruct (ScrollPattern.HorizontallyScrollable p) as [h |]; [| done].
    destruct (if h then _ else _) as [hp |]; [| done].
    destruct (ScrollPattern.VerticallyScrollable p) as [v |]; [| done].
    by destruct (if v then _ else _) as [vp |].
  - destruct (class_of child); try done.
    destruct (IsOffscreen child) as [[|] |]; try done.
    destruct is_dom.
    + destruct (BoundingRectangle child) as [box |]; [| done].
      destruct (Tree.dom_bounding_box (Walk.self w)) as [dom_box |]; [| done].
      by destruct (_ <? _).
    + by destruct (is_window_modal child).
Qed.

(** The walk carries [is_dialog] along and never reads it: the walk of a
    node does the same, and returns or raises the same, whatever the flag
    says. *)
Theorem tree_traversal_ignores_is_dialog (cfg : Settings) (is_browser : bool)
    (app_name : string) (window_bounding_box : Rect.t) (node : Control)
    (is_dom d1 d2 : bool) (w : Walk.t) :
  tree_traversal cfg is_browser app_name window_bounding_box node is_dom d1 w
  = tree_traversal cfg is_browser app_name window_bounding_box node is_dom d2 w.
Proof.
  revert is_dom d1 d2 w.
  induction node as [a | a children IH] using Control_ind; intros is_dom d1 d2 w;
    [done |].
  rewrite !tree_traversal_unfold.
  unfold mbind, walk_mbind, walk_bind.
  destruct (read (skip_rule _) w) as [[[|] |] w1]; try done.
  destruct (classify_node _ _ _ _ _ _ w1) as [[[] |] w2]; try done.
  simpl.
  assert (Forall (fun child => forall w,
            visit_child cfg is_browser app_name window_bounding_box is_dom d1 child w
            = visit_child cfg is_browser app_name window_bounding_box is_dom d2 child w)
            children) as Hvisit.
  { eapply Forall_impl; [exact IH |]. intros child Hchild w'.
    unfold visit_child, mbind, walk_mbind, walk_bind.
    destruct (enter_child_is_dialog is_browser child is_dom d1 d2 w') as [Hstate Hflags].
    destruct (enter_child is_browser child is_dom d1 w') as [[flags1 |] w1'],
             (enter_child is_browser child is_dom d2 w') as [[flags2 |] w2'];
      simpl in *; subst; try done.
    rewrite Hflags. apply Hchild. }
  destruct is_dom; [by apply for_each_ext | by apply for_each_reversed_ext].
Qed.

(** ** Windows that yield nothing *)

(** The job of a window that is no browser writes nothing to the engine,
    and in document mode what it returns is three empty lists. *)
Theorem get_nodes_outside_browser (cfg : Settings) (view : Control)
    (use_dom : bool) (self : Tree.t) :
  try_false (is_app_browser cfg view) = false ->
  (get_nodes cfg view None use_dom self).2 = self /\
  (use_dom = true ->
   forall result, (get_nodes cfg view None use_dom self).1 = Ok result ->
     result = ([], [], [])).
Proof.
  intros Hplain. split.
  - apply (get_nodes_keeps_plain cfg (fun s => s = self) (fun _ => True) (fun _ => True));
      try done.
    unfold may_meet_document_root. by rewrite Hplain.
  - intros -> result. unfold get_nodes. rewrite Hplain.
    destruct (BoundingRectangle view) as [window_bounding_box |]; [| done].
    destruct (Name view) as [name |]; [| done].
    destruct (ClassName view) as [class_name |]; [| done].
    destruct (tree_traversal _ _ _ _ _ _ _ _) as [[[] |] w]; [| done].
    simpl. by intros [= <-].
Qed.

Lemma get_nodes_outside_browser_witness :
  (get_nodes Examples.settings Examples.window_a None true Examples.tree0).2
    = Examples.tree0 /\
  (true = true ->
   forall result,
     (get_nodes Examples.settings Examples.window_a None true Examples.tree0).1
       = Ok result ->
     result = ([], [], [])).
Proof.
  apply (get_nodes_outside_browser Examples.settings Examples.window_a true
           Examples.tree0).
  reflexivity.
Defined.

(** A window that the skip rule matches, such as an off-screen window, is
    given up at its root: when its rectangle, its name and its class can be
    read the job returns three empty lists, otherwise it raises, and the
    engine is left as it was. *)
Theorem get_nodes_skipped_window (cfg : Settings) (view : Control)
    (is_browser : option bool) (use_dom : bool) (self : Tree.t) :
  skip_rule view = Ok true ->
  get_nodes cfg view is_browser use_dom self =
  (BoundingRectangle view ≫= fun _ =>
   Name view ≫= fun _ =>
   ClassName view ≫= fun _ => Ok ([], [], []),
   self).
Proof.
  intros Hskip. unfold get_nodes.
  destruct (BoundingRectangle view) as [window_bounding_box |]; [| done].
  destruct (Name view) as [name |]; [| done].
  destruct (ClassName view) as [class_name |]; [| done].
  rewrite tree_traversal_skipped by done. simpl.
  by destruct use_dom; [destruct (match is_browser with Some b => b | None => _ end) |].
Qed.

Lemma get_nodes_skipped_window_witness :
  get_nodes Examples.settings
    (Examples.control WindowControl "WindowControl" "window" "Hidden"
       Examples.full_screen true [Examples.inner_button])
    None false Examples.tree0
  = (Ok ([], [], []), Examples.tree0).
Proof.
  apply (get_nodes_skipped_window Examples.settings
           (Examples.control WindowControl "WindowControl" "window" "Hidden"
              Examples.full_screen true [Examples.inner_button])
           None false Examples.tree0).
  reflexivity.
Defined.

(** A window whose rectangle, name, class or off-screen flag cannot be read
    fails its job before anything is written to the engine. *)
Theorem get_nodes_unreadable_window (cfg : Settings) (view : Control)
    (is_browser : option bool) (use_dom : bool) (self : Tree.t) :
  BoundingRectangle view = Raise \/ Name view = Raise \/ ClassName view = Raise \/
  IsOffscreen view = Raise ->
  get_nodes cfg view is_browser use_dom self = (Raise, self).
Proof.
  intros Hraise. unfold get_nodes.
  destruct (BoundingRectangle view) as [window_bounding_box |]; [| done].
  destruct (Name view) as [name |]; [| done].
  destruct (ClassName view) as [class_name |]; [| done].
  destruct Hraise as [? | [? | [? | Hoff]]]; try done.
  rewrite tree_traversal_unfold.
  unfold mbind, walk_mbind, walk_bind, read, skip_rule, and_, Exc.bind.
  by rewrite Hoff.
Qed.

Lemma get_nodes_unreadable_window_witness :
  get_nodes Examples.settings Examples.broken_window None false Examples.tree0
  = (Raise, Examples.tree0).
Proof.
  apply (get_nodes_unreadable_window Examples.settings Examples.broken_window None
           false Examples.tree0).
  right. left. reflexivity.
Defined.

(** ** The join from its first wait to its exit *)

Section JoinRun.

Variable cfg : Settings.
Variable use_dom : bool.
Variable clock : nat -> Z.

(** [J] holds at every turn of the loop, [Q] once the loop is left: with
    nothing pending, or with the timeout on record. *)
Variables J Q : Join.t -> Prop.

Hypothesis J_on_completed : forall deadline future view st,
  J st -> J (on_completed cfg use_dom clock deadline future view st).
Hypothesis J_monotonic : forall st, J st -> J (monotonic clock st).2.
Hypothesis Q_nothing_pending : forall st, J st -> Join.future_to_app st = [] -> Q st.
Hypothesis Q_timeout : forall st,
  J st -> Q (mark_partial (EnumerationTimeoutWarning (timeout_s cfg use_dom)) st).

Lemma loop_head_run (deadline : Z) (st : Join.t) :
  J st ->
  match loop_head cfg use_dom clock deadline st with
  | (Some _, st') => J st'
  | (None, st') => Q st'
  end.
Proof.
  intros Hst. unfold loop_head.
  destruct (Join.future_to_app st) eqn:Hpending; [by apply Q_nothing_pending |].
  pose proof (J_monotonic st Hst) as Hread.
  destruct (monotonic clock st) as [now st']. simpl in Hread.
  destruct (_ <=? 0); [by apply Q_timeout | done].
Qed.

Lemma join_run (deadline : Z) (schedule : list event) (pending : list nat)
    (st : Join.t) :
  J st -> Q (join cfg use_dom clock deadline schedule pending st).
Proof.
  revert pending st.
  induction schedule as [| e rest IH]; intros pending st Hst; simpl.
  - by apply Q_timeout.
  - destruct e as [future view |]; [| by apply Q_timeout].
    destruct (bool_decide (future ∈ pending)); [| by apply IH].
    pose proof (J_on_completed deadline future view st Hst) as Hdone.
    destruct (filter _ pending); [| by apply IH].
    pose proof (loop_head_run deadline _ Hdone) as Hhead.
    destruct (loop_head _ _ _ _ _) as [[pending' |] st']; [by apply IH | done].
Qed.

Lemma get_appwise_nodes_run (apps : list Control) (schedule : list event)
    (self : Tree.t) (submitted : list job) :
  (forall retry_counts,
     J (foldl (fun st app => submit app st)
          (Join.mk self [] [] [] false [] retry_counts [] 0 0 1 submitted)
          (seq 0 (List.length apps)))) ->
  Q (get_appwise_nodes cfg use_dom clock apps schedule self submitted).
Proof.
  intros Hstart. unfold get_appwise_nodes.
  match goal with
  | |- context [loop_head _ _ _ ?d ?st] =>
      pose proof (loop_head_run d st (Hstart _)) as Hhead;
      destruct (loop_head cfg use_dom clock d st) as [[pending |] st']
  end; [by apply join_run | done].
Qed.

End JoinRun.

Lemma submit_all_counters (apps : list nat) (st : Join.t) :
  let st' := foldl (fun st app => submit app st) st apps in
  Join.completed st' = Join.completed st /\
  Join.next_future st' = (Join.next_future st + List.length apps)%nat.
Proof.
  revert st. induction apps as [| app rest IH]; intros st; simpl; [by split |].
  destruct (IH (submit app st)) as [-> ->]. simpl. split; [done | lia].
Qed.

Lemma pop_one (future app : nat) (entries : list (nat * nat)) :
  NoDup entries.*1 -> (future, app) ∈ entries ->
  S (List.length (filter (fun entry : nat * nat => entry.1 ≠ future) entries))
  = List.length entries.
Proof.
  induction entries as [| [f a] rest IH]; intros Hnodup Hin; [by inversion Hin |].
  rewrite fmap_cons in Hnodup. apply NoDup_cons in Hnodup as [Hfresh Hnodup].
  rewrite filter_cons. simpl in *.
  destruct (decide (f ≠ future)) as [Hne | Heq].
  - simpl. f_equal. apply IH; [done |].
    apply elem_of_cons in Hin as [[= -> ->] | Hin]; done.
  - assert (f = future) as -> by (by destruct (decide (f = future))).
    f_equal. clear IH Hin Heq.
    induction rest as [| [f' a'] rest IH]; [done |].
    rewrite filter_cons. simpl.
    rewrite decide_True.
    + simpl. f_equal. apply IH.
      * intros Hin. apply Hfresh. rewrite fmap_cons. by right.
      * rewrite fmap_cons in Hnodup. by apply NoDup_cons in Hnodup as [_ ?].
    + intros ->. apply Hfresh. rewrite fmap_cons. by left.
Qed.

Lemma on_completed_accounted (cfg : Settings) (use_dom : bool) (clock : nat -> Z)
    (n : nat) (deadline : Z) (future : nat) (view : Control) (st : Join.t) :
  accounted n st -> accounted n (on_completed cfg use_dom clock deadline future view st).
Proof.
  intros (Hnodup & Hbelow & Hsum). unfold on_completed.
  destruct (app_of future st) as [app |] eqn:Happ; [| done].
  assert ((future, app) ∈ Join.future_to_app st) as Hin.
  { unfold app_of in Happ.
    destruct (list_find _ _) as [[i [f a]] |] eqn:Hfind; [| done].
    injection Happ as <-. apply list_find_Some in Hfind as (Hi & Hf & _).
    simpl in Hf. subst f. by eapply list_elem_of_lookup_2. }
  pose proof (pop_one future app _ Hnodup Hin) as Hpop.
  assert (NoDup (filter (fun entry : nat * nat => entry.1 ≠ future)
                   (Join.future_to_app st)).*1) as Hnodup'
    by (rewrite filter_keys; by apply NoDup_filter).
  assert (Forall (fun f => (f < Join.next_future st)%nat)
            (filter (fun entry : nat * nat => entry.1 ≠ future)
               (Join.future_to_app st)).*1) as Hbelow'.
  { rewrite filter_keys. apply Forall_forall. intros f Hf.
    apply list_elem_of_filter in Hf as [_ Hf].
    rewrite Forall_forall in Hbelow. by apply Hbelow. }
  simpl.
  destruct (get_nodes cfg view None use_dom (Join.self st))
    as [[[[elements scrolls] texts] |] self']; simpl.
  - repeat split; try done. unfold dropped in *. simpl. lia.
  - assert (accounted n
              (mark_partial SubtreesFailedWarning
                 (count_retry app self' (pop_future future st)))) as Hdropped.
    { repeat split; try done. unfold dropped in *. simpl.
      rewrite filter_app, length_app, filter_cons, decide_True by done. simpl. lia. }
    destruct (_ <? THREAD_MAX_RETRIES)%nat; [| exact Hdropped].
    simpl. destruct (0 <? _); [| exact Hdropped].
    repeat split; simpl.
    + rewrite fmap_app. simpl. apply NoDup_app. repeat split; [done | | apply NoDup_singleton].
      intros f Hf Hnew. apply list_elem_of_singleton in Hnew as ->.
      rewrite Forall_forall in Hbelow'. specialize (Hbelow' _ Hf). lia.
    + rewrite fmap_app. apply Forall_app. split.
      * eapply Forall_impl; [exact Hbelow' |]. simpl. lia.
      * repeat constructor.
    + unfold dropped in *. simpl. rewrite length_app. simpl. lia.
Qed.

(** Every window handed to the join is merged, given up or still pending
    when the join returns, and never two of these; a result that is not
    marked partial has merged one result for every window and left nothing
    pending. *)
Theorem get_appwise_nodes_accounts_for_every_window (cfg : Settings)
    (use_dom : bool) (clock : nat -> Z) (apps : list Control)
    (schedule : list event) (self : Tree.t) (submitted : list job) :
  let st := get_appwise_nodes cfg use_dom clock apps schedule self submitted in
  (Join.completed st + dropped st + List.length (Join.future_to_app st)
   = List.length apps)%nat /\
  (Join.is_partial st = false ->
   Join.completed st = List.length apps /\ Join.future_to_app st = []).
Proof.
  intros st.
  assert (accounted (List.length apps) st /\
          (Join.is_partial st = true \/ Join.future_to_app st = [])) as [Hbooks Hexit].
  { apply (get_appwise_nodes_run cfg use_dom clock (accounted (List.length apps))).
    - intros. by apply on_completed_accounted.
    - done.
    - intros st' Hst' Hnone. split; [done | by right].
    - intros st' (? & ? & Hsum'). split; [| by left].
      repeat split; try done. unfold dropped in *. simpl.
      rewrite filter_app, length_app, filter_cons, decide_False by done.
      simpl. lia.
    - intros retry_counts.
      match goal with |- accounted _ (foldl _ ?start ?windows) =>
        destruct (submit_all_state cfg use_dom windows start)
          as (_ & _ & _ & _ & _ & Hw & _ & Hpending & _);
        destruct (submit_all_counters windows start) as [Hcompleted Hnext]
      end.
      simpl in *. rewrite length_seq in Hpending, Hnext.
      assert ((zip (seq 0 (List.length apps)) (seq 0 (List.length apps))).*1
              = seq 0 (List.length apps)) as Hkeys by (by apply fst_zip).
      repeat split.
      + rewrite Hpending, Hkeys. apply NoDup_seq.
      + rewrite Hpending, Hkeys, Hnext.
        apply Forall_forall. intros f Hf. apply elem_of_seq in Hf. lia.
      + unfold dropped. rewrite Hw, Hcompleted, Hpending. simpl.
        rewrite length_zip_with, !length_seq. lia. }
  destruct Hbooks as (_ & _ & Hsum). split; [done |].
  intros Hwhole.
  pose proof (get_appwise_nodes_partial_iff_warnings cfg use_dom clock apps schedule
                self submitted) as Hwarnings.
  simpl in Hwarnings. fold st in Hwarnings.
  destruct Hexit as [Hpartial | Hnone]; [by rewrite Hwhole in Hpartial |].
  split; [| done].
  assert (Join.warnings st = []) as Hquiet.
  { destruct (Join.warnings st); [done |].
    assert (Join.is_partial st = true) as Hp by (by apply Hwarnings).
    by rewrite Hwhole in Hp. }
  unfold dropped in Hsum. rewrite Hquiet, Hnone in Hsum. simpl in Hsum. lia.
Qed.

(** ** The warnings of a snapshot, in order *)



(** ** The windows to walk *)

(** [collect_targets] is a filter that can fail: it raises when one of the
    children it looks at cannot tell its class while the class is asked
    for, and otherwise returns, in the order of the enumeration, the
    children that are wanted.  A child whose handle cannot be read is
    passed over in silence. *)
Theorem collect_targets_filter (cfg : Settings) (active_app : option App)
    (other_apps_handle : list Z) (children : list Control) :
  collect_targets cfg active_app other_apps_handle children =
  if existsb (blocks cfg active_app other_apps_handle) children then Raise
  else Ok (filter (fun child => wanted cfg active_app other_apps_handle child = true)
             children).
Proof.
  induction children as [| child rest IH]; [done |].
  cbn [collect_targets existsb]. rewrite filter_cons, IH. clear IH.
  set (failing := existsb _ rest). set (kept := filter _ rest).
  unfold blocks, wanted, enumerable.
  destruct (NativeWindowHandle child) as [hwnd |]; [| done].
  destruct (bool_decide (hwnd ∈ other_apps_handle)); [done |].
  cbn [negb andb].
  destruct active_app as [app |].
  - rewrite (bool_decide_eq_true_2 (is_Some (Some app))) by done.
    cbn [orb andb].
    destruct (ClassName child) as [class_name |]; [| done].
    cbn [mbind exc_bind Exc.bind raised value_or orb].
    destruct (bool_decide (class_name = "Progman")); [done |].
    cbn [negb andb].
    destruct (exclude_system_windows cfg); cbn [mbind exc_bind Exc.bind andb negb].
    + destruct (PyStr.mem class_name (EXCLUDED_APPS cfg)); [done |].
      cbn [negb]. rewrite decide_True by done.
      by destruct failing.
    + rewrite decide_True by done. by destruct failing.
  - rewrite (bool_decide_eq_false_2 (is_Some None)) by (by intros [? ?]).
    cbn [mbind exc_bind Exc.bind orb andb negb].
    destruct (exclude_system_windows cfg); cbn [mbind exc_bind Exc.bind andb negb].
    + destruct (ClassName child) as [class_name |]; [| done].
      cbn [mbind exc_bind Exc.bind raised value_or orb].
      destruct (PyStr.mem class_name (EXCLUDED_APPS cfg)); [done |].
      cbn [negb]. rewrite decide_True by done.
      by destruct failing.
    + rewrite decide_True by done. by destruct failing.
Qed.

(** ** What a call hands to the pool *)

(** The join hands window jobs to the pool and nothing else. *)
Lemma get_appwise_nodes_window_jobs (cfg : Settings) (use_dom : bool)
    (clock : nat -> Z) (apps : list Control) (schedule : list event)
    (self : Tree.t) (submitted : list job) :
  exists walks,
    Join.submitted (get_appwise_nodes cfg use_dom clock apps schedule self submitted)
    = submitted ++ walks /\
    Forall is_window_job walks.
Proof.
  apply (get_appwise_nodes_keeps cfg use_dom clock
           (fun st => exists walks,
              Join.submitted st = submitted ++ walks /\ Forall is_window_job walks)
           (fun _ => True)); try done.
  - intros deadline future view st _ (walks & Hst & Hwalks). unfold on_completed.
    destruct (app_of future st) as [app |]; [| by exists walks]. simpl.
    destruct (get_nodes _ _ _ _ _) as [[[[elements scrolls] texts] |] self'];
      simpl; [by exists walks |].
    destruct (_ <? THREAD_MAX_RETRIES)%nat; [| by exists walks].
    simpl. destruct (0 <? _); simpl; [| by exists walks].
    exists (walks ++ [GetNodesJob app]). rewrite Hst, app_assoc. split; [done |].
    apply Forall_app. split; [done |]. repeat constructor. by exists app.
  - intros app st (walks & Hst & Hwalks). simpl.
    exists (walks ++ [GetNodesJob app]). rewrite Hst, app_assoc. split; [done |].
    apply Forall_app. split; [done |]. repeat constructor. by exists app.
  - by apply Forall_true; intros [].
  - intros retry_counts. exists []. by rewrite app_nil_r.
Qed.

(** A call that the breaker stops hands nothing to the pool.  Any other
    call hands over the root enumeration first; then the lookup of the
    active window by its handle, exactly when the root enumeration has
    found no window to walk and there is an active application with a
    handle other than zero; then window jobs, and nothing else. *)
Theorem get_state_jobs (cfg : Settings) (self : Tree.t) (active_app : option App)
    (other_apps : list App) (use_dom : bool) (env : Call.t) :
  let jobs := (get_state cfg self active_app other_apps use_dom env).2 in
  if Call.now env <? Tree._uia_disabled_until self then jobs = []
  else
    exists walks,
      jobs =
        CollectTargetsJob ::
        match enumerated cfg active_app other_apps env, active_app with
        | [], Some app =>
            if bool_decide (handle app ≠ 0)
            then [ControlFromHandleJob (handle app)] else []
        | _, _ => []
        end ++ walks /\
      Forall is_window_job walks.
Proof.
  intros jobs. subst jobs. unfold get_state, enumerated.
  destruct (Call.now env <? Tree._uia_disabled_until self); [done |].
  assert (forall apps self1 lookup,
            exists walks,
              Join.submitted
                (get_appwise_nodes cfg use_dom (Call.clock env) apps
                   (Call.schedule env) self1 ([CollectTargetsJob] ++ lookup))
              = CollectTargetsJob :: lookup ++ walks /\
              Forall is_window_job walks) as Hjoin.
  { intros apps self1 lookup.
    destruct (get_appwise_nodes_window_jobs cfg use_dom (Call.clock env) apps
                (Call.schedule env) self1 ([CollectTargetsJob] ++ lookup))
      as (walks & -> & Hwalks).
    by exists walks. }
  destruct (Call.root env) as [children | now].
  - destruct (children ≫= collect_targets cfg active_app (handle <$> other_apps))
      as [[| target targets] |]; cbn [value_or].
    + destruct active_app as [app |]; [| apply (Hjoin _ _ [])].
      destruct (bool_decide (handle app ≠ 0)); [| apply (Hjoin _ _ [])].
      destruct (Call.active_window env) as [control |]; apply Hjoin.
    + destruct active_app as [app |]; apply (Hjoin _ _ []).
    + destruct active_app as [app |]; [| apply (Hjoin _ _ [])].
      destruct (bool_decide (handle app ≠ 0)); [| apply (Hjoin _ _ [])].
      destruct (Call.active_window env) as [control |]; apply Hjoin.
  - destruct active_app as [app |]; [| apply (Hjoin _ _ [])].
    destruct (bool_decide (handle app ≠ 0)); [| apply (Hjoin _ _ [])].
    destruct (Call.active_window env) as [control |]; apply Hjoin.
Qed.

(** ** What a call does to the engine *)

(** A call never changes the screen box of the engine and never clears
    its two document fields: once a document has been met they stay set. *)
Theorem get_state_keeps_document_fields (cfg : Settings) (self : Tree.t)
    (active_app : option App) (other_apps : list App) (use_dom : bool)
    (env : Call.t) :
  let self' := (get_state cfg self active_app other_apps use_dom env).1.2 in
  Tree.screen_box self' = Tree.screen_box self /\
  (is_Some (Tree.dom_info self) -> is_Some (Tree.dom_info self')) /\
  (is_Some (Tree.dom_bounding_box self) -> is_Some (Tree.dom_bounding_box self')).
Proof.
  intros self'. subst self'.
  destruct (Z.lt_ge_cases (Call.now env) (Tree._uia_disabled_until self))
    as [Hopen | Hclosed].
  { by rewrite get_state_short_circuit. }
  destruct (get_state_open cfg self active_app other_apps use_dom env Hclosed)
    as (apps & root_partial & root_warnings & self1 & submitted1 & Hcall & _ & _
        & Hscreen & Hinfo & Hbox & _).
  simpl in Hcall. rewrite Hcall. simpl.
  destruct (get_appwise_nodes_keeps_boxes cfg
              (fun s => Tree.screen_box s = Tree.screen_box self /\
                        (is_Some (Tree.dom_info self) -> is_Some (Tree.dom_info s)) /\
                        (is_Some (Tree.dom_bounding_box self) ->
                         is_Some (Tree.dom_bounding_box s)))
              (fun _ => True) (fun _ => True)
              use_dom (Call.clock env) apps (Call.schedule env) self1 submitted1)
    as (Hself & _); [| by rewrite Hscreen, Hinfo, Hbox | done].
  apply Forall_true. intros [future view |]; [| done]. simpl.
  apply get_nodes_keeps; try done.
  - by intros s box (? & ? & ?).
  - by intros s info (? & ? & ?).
Qed.

(** ** A join that has no time *)



(** ** The load on the pool *)

Lemma app_of_elem (future app : nat) (st : Join.t) :
  app_of future st = Some app -> (future, app) ∈ Join.future_to_app st.
Proof.
  unfold app_of. intros Happ.
  destruct (list_find _ _) as [[i [f a]] |] eqn:Hfind; [| done].
  injection Happ as <-. apply list_find_Some in Hfind as (Hi & Hf & _).
  simpl in Hf. subst f. by eapply list_elem_of_lookup_2.
Qed.

Lemma submissions_filter (app : nat) (Q : job -> Prop) `{!forall j, Decision (Q j)}
    (l : list job) :
  (submissions app (filter Q l) <= submissions app l)%nat.
Proof.
  unfold submissions. induction l as [| j l IH]; [done |].
  rewrite (filter_cons Q). destruct (decide (Q j)).
  - rewrite !filter_cons. destruct (decide (j = GetNodesJob app)); simpl; lia.
  - rewrite (filter_cons (fun j => j = GetNodesJob app)).
    destruct (decide (j = GetNodesJob app)); simpl; lia.
Qed.

(** Window jobs for [n] windows, each window at most [k] times, are at
    most [k * n] jobs. *)
Lemma bounded_jobs (k n : nat) (walks : list job) :
  Forall (fun j => exists app, j = GetNodesJob app /\ (app < n)%nat) walks ->
  (forall app, (submissions app walks <= k)%nat) ->
  (List.length walks <= k * n)%nat.
Proof.
  revert walks. induction n as [| n IH]; intros walks Hwalks Hbound.
  - destruct walks as [| j walks]; [simpl; lia |].
    apply Forall_cons in Hwalks as [(app & _ & Happ) _]. lia.
  - pose proof (filter_app_complement (fun j => j = GetNodesJob n) walks) as Hsplit.
    apply Permutation_length in Hsplit. rewrite length_app in Hsplit.
    pose proof (Hbound n) as Hhere. unfold submissions in Hhere.
    assert (List.length (filter (fun j => ¬ j = GetNodesJob n) walks) <= k * n)%nat
      as Hothers.
    { apply IH.
      - apply Forall_forall. intros j Hj.
        apply list_elem_of_filter in Hj as [Hne Hj].
        rewrite Forall_forall in Hwalks.
        destruct (Hwalks j Hj) as (app & -> & Happ).
        exists app. split; [done |].
        assert (app <> n) by (by intros ->). lia.
      - intros app. etrans; [apply submissions_filter | apply Hbound]. }
    lia.
Qed.

(** Whatever the windows do, the join hands at most [THREAD_MAX_RETRIES]
    jobs per window to the pool. *)
Theorem get_appwise_nodes_pool_load (cfg : Settings) (use_dom : bool)
    (clock : nat -> Z) (apps : list Control) (schedule : list event)
    (self : Tree.t) (submitted : list job) :
  (List.length
     (Join.submitted (get_appwise_nodes cfg use_dom clock apps schedule self submitted))
   <= List.length submitted + THREAD_MAX_RETRIES * List.length apps)%nat.
Proof.
  set (n := List.length apps).
  assert (exists walks,
            Join.submitted
              (get_appwise_nodes cfg use_dom clock apps schedule self submitted)
            = submitted ++ walks /\
            Forall (fun j => exists app, j = GetNodesJob app /\ (app < n)%nat) walks)
    as (walks & Hsubmitted & Hwalks).
  { apply (get_appwise_nodes_run cfg use_dom clock
             (fun st =>
                Forall (fun entry : nat * nat => (entry.2 < n)%nat)
                  (Join.future_to_app st) /\
                exists walks,
                  Join.submitted st = submitted ++ walks /\
                  Forall (fun j => exists app, j = GetNodesJob app /\ (app < n)%nat)
                    walks)).
    - intros deadline future view st (Hpending & walks & Hst & Hwalks).
      unfold on_completed.
      destruct (app_of future st) as [app |] eqn:Happ; [| by split; [| exists walks]].
      apply app_of_elem in Happ.
      assert (app < n)%nat as Hwindow
        by (rewrite Forall_forall in Hpending; exact (Hpending _ Happ)).
      assert (Forall (fun entry : nat * nat => (entry.2 < n)%nat)
                (filter (fun entry : nat * nat => entry.1 ≠ future)
                   (Join.future_to_app st))) as Hpending'.
      { apply Forall_forall. intros entry Hentry.
        apply list_elem_of_filter in Hentry as [_ Hentry].
        rewrite Forall_forall in Hpending. by apply Hpending. }
      simpl.
      destruct (get_nodes _ _ _ _ _) as [[[[elements scrolls] texts] |] self'];
        simpl; [by split; [| exists walks] |].
      destruct (_ <? THREAD_MAX_RETRIES)%nat; [| by split; [| exists walks]].
      simpl. destruct (0 <? _); simpl; [| by split; [| exists walks]].
      split.
      + apply Forall_app. split; [done |]. by repeat constructor.
      + exists (walks ++ [GetNodesJob app]). rewrite Hst, app_assoc. split; [done |].
        apply Forall_app. split; [done |]. repeat constructor. by exists app.
    - done.
    - by intros st (_ & ?).
    - by intros st (_ & ?).
    - intros retry_counts.
      match goal with |- context [foldl _ ?start ?windows] =>
        destruct (submit_all_state cfg use_dom windows start)
          as (_ & _ & _ & _ & _ & _ & _ & Hpending & _ & Hsub)
      end.
      simpl in Hpending, Hsub. rewrite length_seq in Hpending. subst n. split.
      + rewrite Hpending. apply Forall_forall. intros [f app] Hentry. simpl.
        assert (app ∈ (zip (seq 0 (List.length apps)) (seq 0 (List.length apps))).*2)
          as Hin by (apply list_elem_of_fmap; by exists (f, app)).
        rewrite snd_zip in Hin by done. apply elem_of_seq in Hin. lia.
      + exists (GetNodesJob <$> seq 0 (List.length apps)). split; [done |].
        apply Forall_forall. intros j Hj.
        apply list_elem_of_fmap in Hj as (app & -> & Happ).
        apply elem_of_seq in Happ. exists app. split; [done | lia]. }
  rewrite Hsubmitted, length_app.
  apply Nat.add_le_mono_l. apply bounded_jobs; [done |].
  intros app.
  destruct (get_appwise_nodes_retry_bound cfg use_dom clock apps schedule self
              submitted app) as [_ Hmax].
  rewrite Hsubmitted, submissions_app in Hmax. lia.
Qed.

(** ** Document mode *)


(** ** The scrollable elements *)

(** A scrollable element that the walk lists scrolls vertically, has a
    name that is not empty (at worst two quote marks), shows a horizontal
    position of zero when it does not scroll horizontally, and has the
    rectangle of its control as its box, as the provider gives it. *)
Theorem listed_scrollable_element (cfg : Settings) (app_name : string)
    (node : Control) (e : ScrollElementNode.t) :
  is_element_scrollable node = true ->
  scrollable_element cfg app_name node = Ok e ->
  ScrollElementNode.vertical_scrollable e = true /\
  ScrollElementNode.name e <> "" /\
  (ScrollElementNode.horizontal_scrollable e = false ->
   ScrollElementNode.horizontal_scroll_percent e = 0) /\
  exists rect,
    BoundingRectangle node = Ok rect /\
    ScrollElementNode.bounding_box e =
      BoundingBox.mk (Rect.left rect) (Rect.top rect) (Rect.right rect)
        (Rect.bottom rect) (Rect.width rect) (Rect.height rect).
Proof.
  intros Hscrollable He.
  apply scrollable_cases in Hscrollable as (t & p & _ & _ & _ & Hpattern & Hvertical).
  unfold scrollable_element in He. rewrite Hpattern in He.
  cbn [mbind exc_bind Exc.bind] in He.
  destruct (BoundingRectangle node) as [rect |]; [| done].
  cbn [mbind exc_bind Exc.bind] in He.
  destruct (random_point_within_bounding_box cfg node) as [[x y] |]; [| done].
  cbn [mbind exc_bind Exc.bind] in He.
  destruct (scrollable_name node) as [name |] eqn:Hname; [| done].
  destruct (LocalizedControlType node) as [control_type |]; [| done].
  cbn [mbind exc_bind Exc.bind] in He.
  destruct (ScrollPattern.HorizontallyScrollable p) as [horizontal |]; [| done].
  cbn [mbind exc_bind Exc.bind] in He.
  assert (name <> "") as Hnamed.
  { unfold scrollable_name in Hname.
    destruct (Name node) as [n |]; [| done].
    cbn [mbind exc_bind Exc.bind] in Hname.
    destruct (PyStr.truthy (PyStr.strip n)) eqn:Hn;
      [injection Hname as <-; intros Hb; by rewrite Hb in Hn |].
    destruct (AutomationId node) as [a |]; [| done].
    cbn [mbind exc_bind Exc.bind] in Hname.
    destruct (PyStr.truthy a) eqn:Ha;
      [injection Hname as <-; intros Hb; by rewrite Hb in Ha |].
    destruct (LocalizedControlType node) as [c |]; [| done].
    cbn [mbind exc_bind Exc.bind] in Hname. injection Hname as <-.
    unfold PyStr.or_else.
    by destruct (PyStr.truthy (PyStr.capitalize c)) eqn:Hc;
      [intros Hb; rewrite Hb in Hc |]. }
  rewrite Hvertical in He. cbn [mbind exc_bind Exc.bind] in He.
  destruct horizontal.
  - destruct (ScrollPattern.HorizontalScrollPercent p) as [hp |]; [| done].
    destruct (ScrollPattern.VerticalScrollPercent p) as [vp |]; [| done].
    destruct (HasKeyboardFocus node) as [focused |]; [| done].
    injection He as <-. simpl. repeat split; try done. by exists rect.
  - cbn [mbind exc_bind Exc.bind] in He.
    destruct (ScrollPattern.VerticalScrollPercent p) as [vp |]; [| done].
    destruct (HasKeyboardFocus node) as [focused |]; [| done].
    injection He as <-. simpl. repeat split; try done. by exists rect.
Qed.

Lemma listed_scrollable_element_witness :
  let e :=
    ScrollElementNode.mk "files" "Explorer" "Pane"
      (BoundingBox.mk (-100) 0 500 400 600 400) (Center.mk 200 200) ""
      false 0 true 40 false in
  ScrollElementNode.vertical_scrollable e = true /\
  ScrollElementNode.name e <> "" /\
  (ScrollElementNode.horizontal_scrollable e = false ->
   ScrollElementNode.horizontal_scroll_percent e = 0) /\
  exists rect,
    BoundingRectangle Examples.overhanging_pane = Ok rect /\
    ScrollElementNode.bounding_box e =
      BoundingBox.mk (Rect.left rect) (Rect.top rect) (Rect.right rect)
        (Rect.bottom rect) (Rect.width rect) (Rect.height rect).
Proof.
  apply (listed_scrollable_element Examples.settings "Explorer"
           Examples.overhanging_pane); reflexivity.
Defined.

(** * The desktop service *)

(** ** The listing of the applications *)






(** ** The foreground application *)

(** When [get_active_app] returns an application, it stands for the
    foreground window: its handle is the handle of that window and is not
    zero, its depth is zero, its name is not empty (a window with a blank
    title is called "Foreground Window") and its size is not negative. *)
Theorem get_active_app_some (has_IsZoomed : bool)
    (GetForegroundWindow : exc Win32.window) (app : DesktopApp.t) :
  Desktop.get_active_app has_IsZoomed GetForegroundWindow = Some app ->
  (exists w, GetForegroundWindow = Ok w /\ Win32.hwnd w = DesktopApp.handle app) /\
  DesktopApp.handle app <> 0 /\
  DesktopApp.depth app = 0%nat /\
  DesktopApp.name app <> "" /\
  0 <= Size_width (DesktopApp.size app) /\
  0 <= Size_height (DesktopApp.size app).
Proof.
  unfold Desktop.get_active_app. intros Happ.
  destruct GetForegroundWindow as [w |]; [| done].
  cbn [mbind exc_bind Exc.bind] in Happ.
  destruct (bool_decide (Win32.hwnd w = 0)) eqn:Hhandle; [done |].
  apply bool_decide_eq_false in Hhandle.
  destruct (Win32.GetWindowText w) as [text |]; [| done].
  destruct (Win32.GetWindowRect w) as [rect |]; [| done].
  destruct (Win32.GetWindowThreadProcessId w) as [ids |]; [| done].
  destruct (Win32.IsIconic w) as [is_min |]; [| done].
  cbn [mbind exc_bind Exc.bind] in Happ.
  destruct (Desktop.is_max_of has_IsZoomed w) as [is_max |]; [| done].
  destruct (Win32.IsWindowVisible w) as [is_visible |]; [| done].
  cbn [mbind exc_bind Exc.bind] in Happ. injection Happ as <-.
  cbn [DesktopApp.handle DesktopApp.name DesktopApp.size DesktopApp.depth
       Size_width Size_height].
  repeat split; try done; try lia.
  - by exists w.
  - unfold PyStr.or_else at 1. by destruct (PyStr.truthy _) eqn:Hname; [intros Hb; rewrite Hb in Hname |].
Qed.

Lemma get_active_app_some_witness :
  (exists w, Ok DesktopExamples.notepad = Ok w /\ Win32.hwnd w = 1001) /\
  1001 <> 0 /\
  0%nat = 0%nat /\
  "Untitled - Notepad" <> "" /\
  0 <= 800 /\
  0 <= 600.
Proof.
  apply (get_active_app_some true (Ok DesktopExamples.notepad)
           (DesktopApp.mk "Untitled - Notepad" 0 NORMAL (mkSize 800 600) 1001 4242)).
  reflexivity.
Defined.

(** ** [Desktop.get_state] *)





(** ** Windows fit to be shown *)

(** [is_app_visible] answers [True] exactly for a window that is not
    minimised, has a rectangle of more than ten pixels, has children, and
    has no "Overlay" in its name; every read involved has to succeed. *)
Theorem is_app_visible_iff (window_of : Z -> Win32.window) (app : Control) :
  Desktop.is_app_visible window_of app = Ok true <->
  exists status rect children name,
    Desktop.get_app_status window_of app = Ok status /\ status <> MINIMIZED /\
    BoundingRectangle app = Ok rect /\ 10 < Rect.width rect * Rect.height rect /\
    GetChildren app = Ok children /\ children <> [] /\
    Name app = Ok name /\ occurs_in "Overlay" (PyStr.strip name) = false.
Proof.
  unfold Desktop.is_app_visible, Desktop.get_app_size, Desktop.is_overlay_app. split.
  - intros H.
    destruct (Desktop.get_app_status window_of app) as [status |]; [| done].
    destruct (BoundingRectangle app) as [rect |]; [| done].
    cbn [mbind exc_bind Exc.bind] in H.
    destruct (Rect.isempty rect) eqn:Hempty; cbn [mbind exc_bind Exc.bind] in H;
      (destruct (GetChildren app) as [children |]; [| done]);
      (destruct (Name app) as [name |]; [| done]);
      cbn [mbind exc_bind Exc.bind] in H;
      injection H as H;
      apply andb_true_iff in H as [H Harea]; apply andb_true_iff in H as [Hoverlay Hstatus];
      apply Z.ltb_lt in Harea; simpl in Harea; [lia |].
    exists status, rect, children, name.
    apply negb_true_iff, orb_false_iff in Hoverlay as [Hchildren Hname].
    apply negb_true_iff, bool_decide_eq_false in Hstatus.
    apply bool_decide_eq_false in Hchildren.
    repeat split; try done. intros ->. by apply Hchildren.
  - intros (status & rect & children & name & -> & Hstatus & -> & Harea & -> & Hchildren
            & -> & Hname).
    cbn [mbind exc_bind Exc.bind].
    assert (Rect.isempty rect = false) as ->.
    { unfold Rect.isempty. apply orb_false_iff. split; apply Z.eqb_neq; nia. }
    cbn [mbind exc_bind Exc.bind Size_width Size_height]. rewrite Hname.
    rewrite (bool_decide_eq_false_2 (status = MINIMIZED)) by done.
    rewrite (bool_decide_eq_false_2 (List.length children = 0%nat))
      by (by destruct children).
    simpl. f_equal. by apply Z.ltb_lt.
Qed.

(** ** Scrolling *)


(** ** Bringing a window to the top *)

Lemma focus_click_calls (w : activation_world) (target_handle : Z) (c : activation) :
  c ∈ Desktop.focus_click w target_handle ->
  (exists x y, c = click x y) \/ c = time_sleep 50.
Proof.
  unfold Desktop.focus_click.
  destruct (GetForegroundWindow_then w) as [foreground |]; [| by intros ?%elem_of_nil].
  destruct (bool_decide _); [| by intros ?%elem_of_nil].
  destruct (GetWindowRect_target w) as [rect |]; [| by intros ?%elem_of_nil].
  destruct (raises w _).
  - intros ->%list_elem_of_singleton. left. by eexists _, _.
  - intros [-> | ->%list_elem_of_singleton]%elem_of_cons; [left | by right].
    by eexists _, _.
Qed.

(** Once [bring_window_to_top] has read the three thread identifiers it
    does not raise, whatever the calls it makes do, and it ends by
    detaching the input of the current thread from the thread of the
    target and from the thread of the foreground window, in this order,
    whether or not the attaching was done.  [SetForegroundWindow] is
    attempted exactly when [AllowSetForegroundWindow] has not raised, and
    no other thread is ever attached. *)
Theorem bring_window_to_top_detaches (w : activation_world)
    (target_handle foreground_handle foreground_thread target_thread
     current_thread : Z) :
  GetForegroundWindow_first w = Ok foreground_handle ->
  GetWindowThreadProcessId_thread w foreground_handle = Ok foreground_thread ->
  GetWindowThreadProcessId_thread w target_handle = Ok target_thread ->
  GetCurrentThreadId w = Ok current_thread ->
  let result := Desktop.bring_window_to_top w target_handle in
  result.1 = Ok tt /\
  exists calls,
    result.2 =
      AllowSetForegroundWindow (-1) :: calls ++
      [AttachThreadInput current_thread target_thread false;
       AttachThreadInput current_thread foreground_thread false] /\
    (SetForegroundWindow target_handle ∈ calls <->
     raises w (AllowSetForegroundWindow (-1)) = false) /\
    (raises w (AllowSetForegroundWindow (-1)) = true -> calls = []) /\
    (forall current thread attach,
       AttachThreadInput current thread attach ∈ calls ->
       current = current_thread /\ attach = true /\
       (thread = foreground_thread \/ thread = target_thread)).
Proof.
  intros Hforeground Hforeground_thread Htarget_thread Hcurrent result. subst result.
  unfold Desktop.bring_window_to_top.
  rewrite Hforeground. cbn [mbind exc_bind Exc.bind].
  rewrite Hforeground_thread. cbn [mbind exc_bind Exc.bind].
  rewrite Htarget_thread. cbn [mbind exc_bind Exc.bind].
  rewrite Hcurrent. cbn [mbind exc_bind Exc.bind Desktop.run_calls].
  destruct (raises w (AllowSetForegroundWindow (-1))) eqn:Hallow.
  { destruct (raises w (SetForegroundWindow target_handle)); cbn [fst snd app];
      (split; [done |]); exists []; (split; [done |]);
      (split; [split; [by intros ?%elem_of_nil | done] |]); (split; [done |]);
      by intros ? ? ? ?%elem_of_nil. }
  destruct (raises w (SetForegroundWindow target_handle)) eqn:Hset; cbn [fst snd].
  - split; [done |]. eexists. split; [reflexivity |].
    split; [split; [done | intros _; set_solver] |]. split; [done |].
    intros current thread attach Hin.
    repeat (apply elem_of_cons in Hin as [Hin | Hin]; [try done |]);
      [injection Hin as -> -> ->; auto | injection Hin as -> -> ->; auto |].
    by apply elem_of_nil in Hin.
  - split; [done |].
    set (extra := if WINDOWS_MCP_FORCE_FOCUS_CLICK w
                  then _ ++ Desktop.focus_click w target_handle else _).
    assert (exists clicks,
              extra = AllowSetForegroundWindow (-1) ::
                      [AttachThreadInput current_thread foreground_thread true;
                       AttachThreadInput current_thread target_thread true;
                       ShowWindow target_handle SW_SHOW;
                       SetForegroundWindow target_handle;
                       SetActiveWindow target_handle;
                       SetFocus target_handle;
                       BringWindowToTop target_handle;
                       ControlFromHandle_SetFocus target_handle] ++ clicks /\
              forall c, c ∈ clicks -> (exists x y, c = click x y) \/ c = time_sleep 50)
      as (clicks & -> & Hclicks).
    { subst extra. destruct (WINDOWS_MCP_FORCE_FOCUS_CLICK w).
      - eexists. split; [reflexivity |]. apply focus_click_calls.
      - exists []. split; [done |]. by intros c ?%elem_of_nil. }
    exists ([AttachThreadInput current_thread foreground_thread true;
             AttachThreadInput current_thread target_thread true;
             ShowWindow target_handle SW_SHOW;
             SetForegroundWindow target_handle;
             SetActiveWindow target_handle;
             SetFocus target_handle;
             BringWindowToTop target_handle;
             ControlFromHandle_SetFocus target_handle] ++ clicks).
    split; [reflexivity |].
    split; [split; [done | intros _; apply elem_of_app; left; set_solver] |].
    split; [done |].
    intros current thread attach Hin.
    apply elem_of_app in Hin as [Hin | Hin].
    + repeat (apply elem_of_cons in Hin as [Hin | Hin]; [try done |]);
        [injection Hin as -> -> ->; auto | injection Hin as -> -> ->; auto |].
      by apply elem_of_nil in Hin.
    + by destruct (Hclicks _ Hin) as [(x & y & ?) | ?].
Qed.

Lemma bring_window_to_top_detaches_witness :
  let result := Desktop.bring_window_to_top DesktopExamples.locked 1002 in
  result.1 = Ok tt /\
  exists calls,
    result.2 =
      AllowSetForegroundWindow (-1) :: calls ++
      [AttachThreadInput 7 22 false; AttachThreadInput 7 11 false] /\
    (SetForegroundWindow 1002 ∈ calls <->
     raises DesktopExamples.locked (AllowSetForegroundWindow (-1)) = false) /\
    (raises DesktopExamples.locked (AllowSetForegroundWindow (-1)) = true ->
     calls = []) /\
    (forall current thread attach,
       AttachThreadInput current thread attach ∈ calls ->
       current = 7 /\ attach = true /\ (thread = 11 \/ thread = 22)).
Proof.
  apply (bring_window_to_top_detaches DesktopExamples.locked 1002 1001 11 22 7);
    reflexivity.
Defined.

(** ** Paths and labels *)

(** The resolution of paths at work, on a root with two buttons around a
    pane: indexes count from one among the children of the type named, the
    first component of the path is not looked at, an index of zero or none
    selects the first child, a part that does not parse is passed over, and
    an index out of range raises. *)
Example path_resolution :
  let first := Examples.button "first" (Rect.mk 10 10 110 40) in
  let second := Examples.button "second" (Rect.mk 10 50 110 80) in
  let pane :=
    Examples.control OtherControl "PaneControl" "pane" "" (Rect.mk 0 0 400 300)
      false [] in
  let root := Ok (Examples.window "Desktop" [first; pane; second]) in
  Desktop.get_element_from_xpath root "PaneControl/ButtonControl[2]" = Ok second /\
  Desktop.get_element_from_xpath root "PaneControl/ButtonControl" = Ok first /\
  Desktop.get_element_from_xpath root "PaneControl/ButtonControl[0]" = Ok first /\
  Desktop.get_element_from_xpath root "PaneControl/no-type/PaneControl[1]" = Ok pane /\
  Desktop.get_element_from_xpath root "PaneControl/ButtonControl[3]" = Raise.
Proof. repeat split. Qed.

Lemma split_single (sep : ascii) (s : string) :
  Forall (fun c => c <> sep) (list_ascii_of_string s) -> Desktop.split sep s = [s].
Proof.
  induction s as [| c s IH]; intros Hs; [done |].
  simpl in Hs. apply Forall_cons in Hs as [Hc Hs]. simpl.
  rewrite (proj2 (Ascii.eqb_neq c sep)) by done. by rewrite IH.
Qed.

Lemma split_first (sep : ascii) (first rest : string) :
  Forall (fun c => c <> sep) (list_ascii_of_string first) ->
  Desktop.split sep (first ++ String sep rest)%string = first :: Desktop.split sep rest.
Proof.
  induction first as [| c first IH]; intros Hfirst; simpl.
  - by rewrite Ascii.eqb_refl.
  - simpl in Hfirst. apply Forall_cons in Hfirst as [Hc Hfirst].
    rewrite (proj2 (Ascii.eqb_neq c sep)) by done. by rewrite IH.
Qed.

(** The first component of a path is never looked at.  A path of a single
    component, the empty path included, resolves to the root, and no
    control is asked anything; a longer path resolves from the root
    whatever its first component says the root is. *)
Theorem get_element_from_xpath_first_component (GetRootControl : exc Control)
    (first : string) :
  Forall (fun c => c <> "/"%char) (list_ascii_of_string first) ->
  Desktop.get_element_from_xpath GetRootControl first = GetRootControl /\
  forall rest,
    Desktop.get_element_from_xpath GetRootControl (first ++ String "/" rest)%string
    = Desktop.get_element_from_xpath GetRootControl (String "/" rest).
Proof.
  intros Hfirst. unfold Desktop.get_element_from_xpath. split.
  - rewrite split_single by done. by destruct GetRootControl.
  - intros rest. by rewrite split_first.
Qed.

Lemma get_element_from_xpath_first_component_witness :
  Desktop.get_element_from_xpath (Ok Examples.window_a) "WindowControl"
    = Ok Examples.window_a /\
  forall rest,
    Desktop.get_element_from_xpath (Ok Examples.window_a)
      ("WindowControl" ++ String "/" rest)%string
    = Desktop.get_element_from_xpath (Ok Examples.window_a) (String "/" rest).
Proof.
  apply (get_element_from_xpath_first_component (Ok Examples.window_a) "WindowControl").
  repeat constructor; discriminate.
Defined.

Lemma py_index_elem {A} (l : list A) (i : Z) (x : A) : py_index l i = Ok x -> x ∈ l.
Proof.
  unfold py_index. destruct (_ && _); [| done].
  destruct (l !! _) as [y |] eqn:Hy; [| done].
  intros [= <-]. by eapply list_elem_of_lookup_2.
Qed.

(** Every element of a snapshot carries the empty path, so after
    [Desktop.get_state] every label resolves to the root of the desktop:
    [get_element_handle_from_label] returns the root for a label in range
    and raises for any other. *)
Theorem label_resolves_to_root (cfg : Settings) (has_IsZoomed : bool)
    (V : Vision) (self : Desktop.t V) (use_vision use_dom as_bytes : bool)
    (scale : Scale V) (env : Desktop.world) (GetRootControl : exc Control)
    (label : Z) :
  let result :=
    Desktop.get_state cfg has_IsZoomed self use_vision use_dom as_bytes scale env in
  Desktop.get_element_handle_from_label result.1.2 GetRootControl label =
  (py_index (TreeState.interactive_nodes (DesktopState.tree_state result.1.1)) label
   ≫= fun _ => GetRootControl).
Proof.
  intros result. subst result. unfold Desktop.get_state.
  set (active_app := Desktop.get_active_app has_IsZoomed (Desktop.foreground env)).
  set (apps := match active_app with
               | Some active => filter _ _
               | None => _
               end).
  assert (Forall (fun e => TreeElementNode.xpath e = "")
            (TreeState.interactive_nodes
               (get_state cfg (Desktop.tree self) (as_engine_app <$> active_app)
                  (as_engine_app <$> apps) use_dom (Desktop.call env)).1.1)) as Hpaths.
  { destruct (Z.lt_ge_cases (Call.now (Desktop.call env))
                (Tree._uia_disabled_until (Desktop.tree self))) as [Hopen | Hclosed].
    { rewrite get_state_short_circuit by done. constructor. }
    destruct (get_state_open cfg (Desktop.tree self) (as_engine_app <$> active_app)
                (as_engine_app <$> apps) use_dom (Desktop.call env) Hclosed)
      as (targets & root_partial & root_warnings & self1 & submitted1 & Hcall & _).
    simpl in Hcall. rewrite Hcall. cbn [fst TreeState.interactive_nodes].
    destruct (elements_of_join cfg use_dom (Call.clock (Desktop.call env)) targets
                (Call.schedule (Desktop.call env)) self1 submitted1) as [Hjoin _].
    eapply Forall_impl; [exact Hjoin |]. by intros e [? _]. }
  destruct (get_state cfg (Desktop.tree self) (as_engine_app <$> active_app)
              (as_engine_app <$> apps) use_dom (Desktop.call env))
    as [[tree_state tree] jobs].
  cbn [fst snd] in *.
  unfold Desktop.get_element_handle_from_label.
  cbn [Desktop.desktop_state DesktopState.tree_state].
  destruct (py_index (TreeState.interactive_nodes tree_state) label) as [e |] eqn:He;
    [| done].
  cbn [mbind exc_bind Exc.bind].
  apply py_index_elem in He. rewrite Forall_forall in Hpaths.
  rewrite (Hpaths e He).
  by destruct GetRootControl.
Qed.
